(** * le-marche: the legacy data migration command and the geocoding helper

    A shallow embedding of
    - [lemarche/cocorico/management/commands/migrate_data_to_django.py]
      (field coercers, enumeration mappers, the entity migrators), and
    - [lemarche/utils/apis/geocoding.py]
    together with the properties the specification states about them.

    Python values are a small inductive type, dictionaries read from the
    legacy database are finite maps from column names to values, exceptions
    are an explicit [Raise] result, and code that mutates the destination
    database or prints runs in a state-and-exception monad. *)

From Stdlib Require Import ZArith QArith String List Lia Bool.
From stdpp Require Import base option list gmap strings fin_maps pretty.

Local Open Scope Z_scope.
Local Open Scope string_scope.
Local Open Scope list_scope.

(** ** Python values, exceptions *)

Module Py.

(** The values that occur in legacy rows and in the records built from them.
    [PObj] is a foreign object (a datetime, a GEOS geometry) known by its
    textual form only. *)
#[warnings="-register-all"]
Inductive pyval : Type :=
| PNone
| PBool (b : bool)
| PInt (z : Z)
| PStr (s : string)
| PBytes (s : string)
| PList (l : list pyval)
| PObj (repr : string).

(** [bool(v)]. *)
Definition truthy (v : pyval) : bool :=
  match v with
  | PNone => false
  | PBool b => b
  | PInt z => negb (Z.eqb z 0)
  | PStr s | PBytes s => negb (String.eqb s "")
  | PList l => match l with [] => false | _ => true end
  | PObj _ => true
  end.

(** [a == b]: [bool] is a subclass of [int], so [True == 1] and
    [False == 0]; [str] and [bytes] never compare equal. *)
Fixpoint py_eq (a b : pyval) : bool :=
  match a, b with
  | PNone, PNone => true
  | PBool x, PBool y => Bool.eqb x y
  | PBool x, PInt z => Z.eqb z (Z.b2z x)
  | PInt z, PBool x => Z.eqb z (Z.b2z x)
  | PInt x, PInt y => Z.eqb x y
  | PStr x, PStr y => String.eqb x y
  | PBytes x, PBytes y => String.eqb x y
  | PList xs, PList ys =>
      (fix go (xs ys : list pyval) : bool :=
         match xs, ys with
         | [], [] => true
         | x :: xs', y :: ys' => py_eq x y && go xs' ys'
         | _, _ => false
         end) xs ys
  | PObj x, PObj y => String.eqb x y
  | _, _ => false
  end.

(** [v in [x1, ..., xn]] on a list literal. *)
Definition py_in (v : pyval) (l : list pyval) : bool :=
  existsb (fun x => py_eq x v) l.

(** Lists are the only unhashable values here. *)
Definition hashable (v : pyval) : bool :=
  match v with PList _ => false | _ => true end.

Inductive exn : Type :=
| KeyError (key : pyval)
| TypeError (msg : string)
| IndexError
| StopIteration
| AttributeError (name : string)
| IntegrityError (msg : string)
| JSONDecodeError
| OtherError (msg : string).

Inductive result (A : Type) : Type :=
| Ok (a : A)
| Raise (e : exn).
Arguments Ok {A} a.
Arguments Raise {A} e.

Definition is_ok {A} (r : result A) : bool :=
  match r with Ok _ => true | Raise _ => false end.

(** A dict literal with heterogeneous keys, as an association list;
    [d[k]] finds the entry whose key equals [k]. *)
Fixpoint assoc (d : list (pyval * pyval)) (k : pyval) : option pyval :=
  match d with
  | [] => None
  | (k', v) :: d' => if py_eq k' k then Some v else assoc d' k
  end.

Definition dict_get (d : list (pyval * pyval)) (k : pyval) : result pyval :=
  if hashable k then
    match assoc d k with
    | Some v => Ok v
    | None => Raise (KeyError k)
    end
  else Raise (TypeError "unhashable type").

(** A row of a legacy table: column name to value. *)
Abbreviation row := (gmap string pyval).

(** [elem[key]] on a row. *)
Definition getitem (elem : row) (key : string) : result pyval :=
  match elem !! key with
  | Some v => Ok v
  | None => Raise (KeyError (PStr key))
  end.

(** [elem.pop(key)], value dropped. *)
Definition pop (elem : row) (key : string) : result row :=
  match elem !! key with
  | Some _ => Ok (delete key elem)
  | None => Raise (KeyError (PStr key))
  end.

(** [[elem.pop(key) for key in keys]]: stops at the first missing key, the
    keys popped before it stay removed (the caller's dict is mutated; every
    caller lets the exception escape, so the partial dict is not observed). *)
Fixpoint pop_all (elem : row) (keys : list string) : result row :=
  match keys with
  | [] => Ok elem
  | key :: keys' =>
      match pop elem key with
      | Ok elem' => pop_all elem' keys'
      | Raise e => Raise e
      end
  end.

(** [{key: elem[key] for key in keys}]. *)
Fixpoint restrict (elem : row) (keys : list string) : result row :=
  match keys with
  | [] => Ok ∅
  | key :: keys' =>
      match getitem elem key with
      | Ok v =>
          match restrict elem keys' with
          | Ok r => Ok (<[key := v]> r)
          | Raise e => Raise e
          end
      | Raise e => Raise e
      end
  end.

(** The error monad of the pure helpers. *)
Definition rbind {A B} (r : result A) (k : A -> result B) : result B :=
  match r with
  | Ok a => k a
  | Raise e => Raise e
  end.

End Py.
Export Py.

#[export] Instance result_ret : MRet result := fun A a => Ok a.
#[export] Instance result_bind : MBind result := fun A B k r => rbind r k.


(** ** Field renamer, type coercers, enumeration mappers *)

(** What the command imports from the rest of the application and from
    Django, none of it part of the command's file: the field lists read off
    the models ([Siae._meta.fields], ...), the enumeration values of [Siae],
    [User] and [siae_constants], [timezone.make_aware], [slugify], the
    construction of a point geometry from two coordinates
    ([GEOSGeometry] over [float(...)]), and, for every destination model, the
    validation a [create] runs against the table ([None]: the record is
    inserted; [Some e]: [create] raises [e]). *)
Class Django := {
  DIRECTORY_BOOLEAN_FIELDS : list string;
  USER_BOOLEAN_FIELDS : list string;
  DIRECTORY_DATE_FIELDS : list string;
  NETWORK_DATE_FIELDS : list string;
  SECTOR_DATE_FIELDS : list string;
  USER_DATE_FIELDS : list string;
  make_aware : pyval -> result pyval;
  slugify : pyval -> result pyval;
  GEOSGeometry : pyval -> pyval -> result pyval;
  NATURE_HEAD_OFFICE : pyval;
  NATURE_ANTENNA : pyval;
  PRESTA_DISP : pyval;
  PRESTA_PREST : pyval;
  PRESTA_BUILD : pyval;
  GEO_RANGE_COUNTRY : pyval;
  GEO_RANGE_REGION : pyval;
  GEO_RANGE_DEPARTMENT : pyval;
  GEO_RANGE_CUSTOM : pyval;
  KIND_BUYER : pyval;
  KIND_SIAE : pyval;
  KIND_ADMIN : pyval;
  KIND_PARTNER : pyval;
  Siae_validate : list row -> row -> option exn;
  Network_validate : list row -> row -> option exn;
  SiaeOffer_validate : list row -> row -> option exn;
  SiaeLabelOld_validate : list row -> row -> option exn;
  SiaeClientReference_validate : list row -> row -> option exn;
  SiaeImage_validate : list row -> row -> option exn;
  User_validate : list row -> row -> option exn;
}.

Module Mappers.

(** Modelled from the spec: [rename_dict_key] of [lemarche.utils.data] (the
    Field Renamer, which "renames dictionary keys between source and
    destination schemas"): the value moves from the old key to the new one,
    and a missing old key is a [KeyError]. *)
Definition rename_dict_key (elem : row) (key_name_before key_name_after : string)
  : result row :=
  match elem !! key_name_before with
  | Some v => Ok (delete key_name_before (<[key_name_after := v]> elem))
  | None => Raise (KeyError (PStr key_name_before))
  end.

(** The value [integer_to_boolean] stores back for a boolean column that
    holds [v]: the four branches of its [if]/[elif] chain. *)
Definition boolean_of (v : pyval) : pyval :=
  if py_in v [PInt 1; PStr "1"] then PBool true
  else if py_in v [PInt 0; PStr "0"] then PBool false
  else if py_in v [PNone] then PNone
  else PBool false.

Definition cleanup_date_field_names (elem : row) : row :=
  let elem1 :=
    match elem !! "createdAt" with
    | Some v =>
        delete "createdAt" (if truthy v then <["created_at" := v]> elem else elem)
    | None => elem
    end in
  match elem1 !! "updatedAt" with
  | Some v =>
      delete "updatedAt" (if truthy v then <["updated_at" := v]> elem1 else elem1)
  | None => elem1
  end.

Section Models.
Context `{Django}.

(** [list(set(DIRECTORY_BOOLEAN_FIELDS + USER_BOOLEAN_FIELDS))] *)
Definition boolean_keys : list string :=
  elements (list_to_set (DIRECTORY_BOOLEAN_FIELDS ++ USER_BOOLEAN_FIELDS) : gset string).

Definition integer_to_boolean_keys (elem : row) (keys : list string) : row :=
  foldl (fun elem key =>
           match elem !! key with
           | Some v => <[key := boolean_of v]> elem
           | None => elem
           end) elem keys.

Definition integer_to_boolean (elem : row) : row :=
  integer_to_boolean_keys elem boolean_keys.

Definition date_keys : list string :=
  elements (list_to_set (DIRECTORY_DATE_FIELDS ++ NETWORK_DATE_FIELDS
                         ++ SECTOR_DATE_FIELDS ++ USER_DATE_FIELDS) : gset string).

(** A key that is neither a date field nor a boolean field of the models. *)
Definition plain (key : string) : Prop :=
  (key ∉ (DIRECTORY_DATE_FIELDS ++ NETWORK_DATE_FIELDS
          ++ SECTOR_DATE_FIELDS ++ USER_DATE_FIELDS))
  /\ (key ∉ (DIRECTORY_BOOLEAN_FIELDS ++ USER_BOOLEAN_FIELDS)).

Fixpoint make_aware_keys (elem : row) (keys : list string) : result row :=
  match keys with
  | [] => Ok elem
  | key :: keys' =>
      match elem !! key with
      | Some v =>
          if truthy v then
            v' ← make_aware v;
            make_aware_keys (<[key := v']> elem) keys'
          else make_aware_keys elem keys'
      | None => make_aware_keys elem keys'
      end
  end.

Definition make_aware_dates (elem : row) : result row :=
  make_aware_keys elem date_keys.

Definition nature_mapping : list (pyval * pyval) :=
  [ (PStr "siege", NATURE_HEAD_OFFICE);
    (PStr "antenne", NATURE_ANTENNA);
    (PStr "n/a", PNone);
    (PNone, PNone) ].

Definition map_siae_nature (input_value : pyval) : result pyval :=
  if truthy input_value then dict_get nature_mapping input_value
  else Ok PNone.

Definition presta_type_mapping : list (pyval * pyval) :=
  [ (PNone, PNone);
    (PStr "0", PList []);
    (PStr "2", PList [PRESTA_DISP]);
    (PStr "4", PList [PRESTA_PREST]);
    (PStr "6", PList [PRESTA_DISP; PRESTA_PREST]);
    (PStr "8", PList [PRESTA_BUILD]);
    (PStr "10", PList [PRESTA_DISP; PRESTA_BUILD]);
    (PStr "12", PList [PRESTA_PREST; PRESTA_BUILD]);
    (PStr "14", PList [PRESTA_DISP; PRESTA_PREST; PRESTA_BUILD]) ].

(** Whether a byte lies between two values. *)
Definition byte_in (low high : N) (c : Ascii.ascii) : bool :=
  (low <=? Ascii.N_of_ascii c)%N && (Ascii.N_of_ascii c <=? high)%N.

(** Whether the bytes are well-formed UTF-8, which is what the strict
    decoder accepts: no stray or missing continuation byte, no overlong form,
    no surrogate, nothing above U+10FFFF. *)
Fixpoint utf8 (s : string) : bool :=
  match s with
  | EmptyString => true
  | String c s1 =>
      if byte_in 0 127 c then utf8 s1
      else
        match s1 with
        | EmptyString => false
        | String c1 s2 =>
            if byte_in 194 223 c && byte_in 128 191 c1 then utf8 s2
            else
              match s2 with
              | EmptyString => false
              | String c2 s3 =>
                  if (byte_in 224 224 c && byte_in 160 191 c1
                      || byte_in 225 236 c && byte_in 128 191 c1
                      || byte_in 237 237 c && byte_in 128 159 c1
                      || byte_in 238 239 c && byte_in 128 191 c1)
                     && byte_in 128 191 c2
                  then utf8 s3
                  else
                    match s3 with
                    | EmptyString => false
                    | String c3 s4 =>
                        (byte_in 240 240 c && byte_in 144 191 c1
                         || byte_in 241 243 c && byte_in 128 191 c1
                         || byte_in 244 244 c && byte_in 128 143 c1)
                        && byte_in 128 191 c2 && byte_in 128 191 c3 && utf8 s4
                    end
              end
        end
  end.

(** [input_value_byte.decode()]: a method of [bytes] only, which raises
    [UnicodeDecodeError] on bytes that are not UTF-8; text is kept as its
    UTF-8 bytes, so that the decoded string has the bytes it was read from. *)
Definition decode (v : pyval) : result pyval :=
  match v with
  | PBytes s =>
      if utf8 s then Ok (PStr s) else Raise (OtherError "UnicodeDecodeError")
  | _ => Raise (AttributeError "decode")
  end.

Definition map_siae_presta_type (input_value_byte : pyval) : result pyval :=
  if truthy input_value_byte then
    input_value_string ← decode input_value_byte;
    match dict_get presta_type_mapping input_value_string with
    | Ok v => Ok v
    | Raise _ => Ok PNone
    end
  else Ok PNone.

Definition geo_range_mapping : list (pyval * pyval) :=
  [ (PInt 3, GEO_RANGE_COUNTRY);
    (PInt 2, GEO_RANGE_REGION);
    (PInt 1, GEO_RANGE_DEPARTMENT);
    (PInt 0, GEO_RANGE_CUSTOM);
    (PNone, PNone) ].

Definition map_geo_range (input_value_integer : pyval) : result pyval :=
  match dict_get geo_range_mapping input_value_integer with
  | Ok v => Ok v
  | Raise _ => Ok PNone
  end.

Definition user_kind_mapping : list (pyval * pyval) :=
  [ (PNone, PNone);
    (PInt 3, KIND_BUYER);
    (PInt 4, KIND_SIAE);
    (PInt 5, KIND_ADMIN);
    (PInt 6, KIND_PARTNER) ].

Definition map_user_kind (input_value_integer : pyval) : result pyval :=
  if truthy input_value_integer then
    match dict_get user_kind_mapping input_value_integer with
    | Ok v => Ok v
    | Raise _ => Ok PNone
    end
  else Ok PNone.

(** The legacy codes a mapping table knows: its keys, up to [==]. *)
Definition known_code (mapping : list (pyval * pyval)) (v : pyval) : bool :=
  py_in v (map fst mapping).

End Models.

End Mappers.
Export Mappers.

(** ** The destination database and the command's monad *)

Module Orm.

(** What [print] writes: text, or an exception shown by [str]. *)
Inductive printed : Type :=
| Text (s : string)
| Exn (e : exn).

(** A [User] record with the enterprises related to it ([user.siaes]). *)
Record user_rec := { user_fields : row; user_siaes : list Z }.

Record sector_group_rec := { group_pk : Z; group_name : string; group_slug : string }.

Record sector_rec :=
  { sector_pk : Z; sector_name : string; sector_slug : string; sector_group : Z }.

(** The destination tables, each in primary-key order, and what was printed. *)
Record db := {
  Siae_objects : list row;
  Network_objects : list row;
  SiaeOffer_objects : list row;
  SiaeLabelOld_objects : list row;
  SiaeClientReference_objects : list row;
  SiaeImage_objects : list row;
  User_objects : list user_rec;
  SectorGroup_objects : list sector_group_rec;
  Sector_objects : list sector_rec;
  stdout : list (list printed);
}.
Definition set_Siae_objects (x : list row) (d : db) : db :=
  {| Siae_objects := x; Network_objects := Network_objects d; SiaeOffer_objects := SiaeOffer_objects d; SiaeLabelOld_objects := SiaeLabelOld_objects d; SiaeClientReference_objects := SiaeClientReference_objects d; SiaeImage_objects := SiaeImage_objects d; User_objects := User_objects d; SectorGroup_objects := SectorGroup_objects d; Sector_objects := Sector_objects d; stdout := stdout d |}.
Definition set_Network_objects (x : list row) (d : db) : db :=
  {| Siae_objects := Siae_objects d; Network_objects := x; SiaeOffer_objects := SiaeOffer_objects d; SiaeLabelOld_objects := SiaeLabelOld_objects d; SiaeClientReference_objects := SiaeClientReference_objects d; SiaeImage_objects := SiaeImage_objects d; User_objects := User_objects d; SectorGroup_objects := SectorGroup_objects d; Sector_objects := Sector_objects d; stdout := stdout d |}.
Definition set_SiaeOffer_objects (x : list row) (d : db) : db :=
  {| Siae_objects := Siae_objects d; Network_objects := Network_objects d; SiaeOffer_objects := x; SiaeLabelOld_objects := SiaeLabelOld_objects d; SiaeClientReference_objects := SiaeClientReference_objects d; SiaeImage_objects := SiaeImage_objects d; User_objects := User_objects d; SectorGroup_objects := SectorGroup_objects d; Sector_objects := Sector_objects d; stdout := stdout d |}.
Definition set_SiaeLabelOld_objects (x : list row) (d : db) : db :=
  {| Siae_objects := Siae_objects d; Network_objects := Network_objects d; SiaeOffer_objects := SiaeOffer_objects d; SiaeLabelOld_objects := x; SiaeClientReference_objects := SiaeClientReference_objects d; SiaeImage_objects := SiaeImage_objects d; User_objects := User_objects d; SectorGroup_objects := SectorGroup_objects d; Sector_objects := Sector_objects d; stdout := stdout d |}.
Definition set_SiaeClientReference_objects (x : list row) (d : db) : db :=
  {| Siae_objects := Siae_objects d; Network_objects := Network_objects d; SiaeOffer_objects := SiaeOffer_objects d; SiaeLabelOld_objects := SiaeLabelOld_objects d; SiaeClientReference_objects := x; SiaeImage_objects := SiaeImage_objects d; User_objects := User_objects d; SectorGroup_objects := SectorGroup_objects d; Sector_objects := Sector_objects d; stdout := stdout d |}.
Definition set_SiaeImage_objects (x : list row) (d : db) : db :=
  {| Siae_objects := Siae_objects d; Network_objects := Network_objects d; SiaeOffer_objects := SiaeOffer_objects d; SiaeLabelOld_objects := SiaeLabelOld_objects d; SiaeClientReference_objects := SiaeClientReference_objects d; SiaeImage_objects := x; User_objects := User_objects d; SectorGroup_objects := SectorGroup_objects d; Sector_objects := Sector_objects d; stdout := stdout d |}.
Definition set_User_objects (x : list user_rec) (d : db) : db :=
  {| Siae_objects := Siae_objects d; Network_objects := Network_objects d; SiaeOffer_objects := SiaeOffer_objects d; SiaeLabelOld_objects := SiaeLabelOld_objects d; SiaeClientReference_objects := SiaeClientReference_objects d; SiaeImage_objects := SiaeImage_objects d; User_objects := x; SectorGroup_objects := SectorGroup_objects d; Sector_objects := Sector_objects d; stdout := stdout d |}.
Definition set_SectorGroup_objects (x : list sector_group_rec) (d : db) : db :=
  {| Siae_objects := Siae_objects d; Network_objects := Network_objects d; SiaeOffer_objects := SiaeOffer_objects d; SiaeLabelOld_objects := SiaeLabelOld_objects d; SiaeClientReference_objects := SiaeClientReference_objects d; SiaeImage_objects := SiaeImage_objects d; User_objects := User_objects d; SectorGroup_objects := x; Sector_objects := Sector_objects d; stdout := stdout d |}.
Definition set_Sector_objects (x : list sector_rec) (d : db) : db :=
  {| Siae_objects := Siae_objects d; Network_objects := Network_objects d; SiaeOffer_objects := SiaeOffer_objects d; SiaeLabelOld_objects := SiaeLabelOld_objects d; SiaeClientReference_objects := SiaeClientReference_objects d; SiaeImage_objects := SiaeImage_objects d; User_objects := User_objects d; SectorGroup_objects := SectorGroup_objects d; Sector_objects := x; stdout := stdout d |}.
Definition set_stdout (x : list (list printed)) (d : db) : db :=
  {| Siae_objects := Siae_objects d; Network_objects := Network_objects d; SiaeOffer_objects := SiaeOffer_objects d; SiaeLabelOld_objects := SiaeLabelOld_objects d; SiaeClientReference_objects := SiaeClientReference_objects d; SiaeImage_objects := SiaeImage_objects d; User_objects := User_objects d; SectorGroup_objects := SectorGroup_objects d; Sector_objects := Sector_objects d; stdout := x |}.

(** The models whose records are plain keyword dictionaries. *)
Inductive model : Type :=
| Siae | Network | SiaeOffer | SiaeLabelOld | SiaeClientReference | SiaeImage.

(** [Model.objects.all()] *)
Definition objects (m : model) (d : db) : list row :=
  match m with
  | Siae => Siae_objects d
  | Network => Network_objects d
  | SiaeOffer => SiaeOffer_objects d
  | SiaeLabelOld => SiaeLabelOld_objects d
  | SiaeClientReference => SiaeClientReference_objects d
  | SiaeImage => SiaeImage_objects d
  end.

Definition set_objects (m : model) (l : list row) (d : db) : db :=
  match m with
  | Siae => set_Siae_objects l d
  | Network => set_Network_objects l d
  | SiaeOffer => set_SiaeOffer_objects l d
  | SiaeLabelOld => set_SiaeLabelOld_objects l d
  | SiaeClientReference => set_SiaeClientReference_objects l d
  | SiaeImage => set_SiaeImage_objects l d
  end.

Definition validate `{Django} (m : model) : list row -> row -> option exn :=
  match m with
  | Siae => Siae_validate
  | Network => Network_validate
  | SiaeOffer => SiaeOffer_validate
  | SiaeLabelOld => SiaeLabelOld_validate
  | SiaeClientReference => SiaeClientReference_validate
  | SiaeImage => SiaeImage_validate
  end.

(** The destination accepts the records, created one after the other in the
    table [table] of the model. *)
Fixpoint accepts `{Django} (m : model) (table records : list row) : Prop :=
  match records with
  | [] => True
  | r :: records' => validate m table r = None /\ accepts m (table ++ [r]) records'
  end.

(** State (the destination database and the output) and exceptions: a
    statement returns the state it leaves, also when it raises. *)
Definition M (A : Type) : Type := db -> db * result A.

#[export] Instance M_ret : MRet M := fun A a d => (d, Ok a).
#[export] Instance M_bind : MBind M := fun A B k m d =>
  match m d with
  | (d', Ok a) => k a d'
  | (d', Raise e) => (d', Raise e)
  end.

Definition raise {A} (e : exn) : M A := fun d => (d, Raise e).

(** A pure helper called from a statement. *)
Definition lift {A} (r : result A) : M A := fun d => (d, r).

(** [try: m  except Exception as e: handler e] *)
Definition try_except {A} (m : M A) (handler : exn -> M A) : M A := fun d =>
  match m d with
  | (d', Ok a) => (d', Ok a)
  | (d', Raise e) => handler e d'
  end.

Definition print (l : list printed) : M unit := fun d =>
  (set_stdout (stdout d ++ [l]) d, Ok tt).

(** [for x in l: body x] *)
Fixpoint for_each {A} (l : list A) (body : A -> M unit) : M unit :=
  match l with
  | [] => mret tt
  | x :: l' => _ ← body x; for_each l' body
  end.

(** [Model.objects.all().delete()] *)
Definition objects_delete (m : model) : M unit := fun d =>
  (set_objects m [] d, Ok tt).

(** [Model.objects.create] with the keyword arguments [elem]. *)
Definition objects_create `{Django} (m : model) (elem : row) : M unit := fun d =>
  match validate m (objects m d) elem with
  | None => (set_objects m (objects m d ++ [elem]) d, Ok tt)
  | Some e => (d, Raise e)
  end.

(** [Model.objects.count()] *)
Definition objects_count (m : model) : M nat := fun d =>
  (d, Ok (length (objects m d))).

(** [field__isnull=True] on a record. *)
Definition isnull (elem : row) (field : string) : bool :=
  match elem !! field with
  | None | Some PNone => true
  | Some _ => false
  end.

(** [User.objects.filter(api_key__isnull=True).delete()] *)
Definition User_delete_without_api_key : M unit := fun d =>
  (set_User_objects
     (List.filter (fun u => negb (isnull (user_fields u) "api_key")) (User_objects d)) d,
   Ok tt).

(** [User.objects.create] with the keyword arguments [elem]: the new user
    has no enterprise yet. *)
Definition User_create `{Django} (elem : row) : M unit := fun d =>
  match User_validate (map user_fields (User_objects d)) elem with
  | None =>
      (set_User_objects
         (User_objects d ++ [{| user_fields := elem; user_siaes := [] |}]) d,
       Ok tt)
  | Some e => (d, Raise e)
  end.

(** [User.objects.filter(c4_id=value)] *)
Definition User_filter_c4_id (value : pyval) (d : db) : list user_rec :=
  List.filter
    (fun u => match user_fields u !! "c4_id" with
              | Some v => py_eq v value
              | None => false
              end)
    (User_objects d).

(** [print("-" * 80)] *)
Definition dashes : string :=
  String.concat "" (repeat "-" 80).

(** The lines printed so far that show an exception. *)
Definition shows_exception (line : list printed) : bool :=
  existsb (fun x => match x with Exn _ => true | Text _ => false end) line.

Definition exceptions_printed (d : db) : nat :=
  length (List.filter shows_exception (stdout d)).

End Orm.
Export Orm.

(** ** The entity migrators *)

Module Migrate.

(** A row of [listing_category] and of [listing_category_translation], typed
    as the legacy schema types their columns. *)
Record listing_category_row := { category_id : Z; category_parent_id : option Z }.

Record category_translation_row :=
  { translatable_id : Z; locale : string; name : string; slug : string }.

(** The legacy database behind the cursor: what [cur.fetchall()] returns after
    [cur.execute("SELECT * FROM <table>")]. *)
Record cursor := {
  directory : list row;
  network : list row;
  listing_category : list listing_category_row;
  listing_category_translation : list category_translation_row;
  directory_offer : list row;
  directory_label : list row;
  directory_client_image : list row;
  listing : list row;
  listing_translation : list row;
  listing_image : list row;
  user : list row;
}.

Definition DIRECTORY_EXTRA_KEYS : list string :=
  ["latitude"; "longitude"; "sector"].

Definition USER_EXTRA_KEYS : list string :=
  [ "username"; "username_canonical"; "email_canonical"; "slug"; "salt";
    "password"; "confirmation_token"; "password_requested_at"; "roles";
    "person_type"; "birthday"; "nationality"; "country_of_residence";
    "profession"; "mother_tongue"; "iban"; "bic"; "bank_owner_name";
    "bank_owner_address"; "annual_income"; "nb_bookings_offerer";
    "nb_bookings_asker"; "fee_as_asker"; "fee_as_offerer";
    "average_rating_as_asker"; "average_rating_as_offerer"; "answer_delay";
    "nb_quotes_offerer"; "nb_quotes_asker"; "company_addr_string" ].

(** [if key in elem: elem[key] = f(elem[key])] *)
Definition map_field (elem : row) (key : string) (f : pyval -> result pyval)
  : result row :=
  match elem !! key with
  | Some v => v' ← f v; mret (<[key := v']> elem)
  | None => mret elem
  end.

(** [value.startswith(prefix)] *)
Definition startswith (value : pyval) (prefix : string) : result bool :=
  match value with
  | PStr s => Ok (String.prefix prefix s)
  | PBytes _ => Raise (TypeError "startswith first arg must be bytes")
  | _ => Raise (AttributeError "startswith")
  end.

Section Command.
Context `{Django}.

(** *** Siae *)

Definition set_coords (elem : row) : result row :=
  match elem !! "latitude", elem !! "longitude" with
  | Some latitude, Some longitude =>
      if truthy latitude && truthy longitude then
        coords ← GEOSGeometry longitude latitude;
        mret (<["coords" := coords]> elem)
      else mret elem
  | _, _ => mret elem
  end.

(** The body of the loop of [migrate_siae] up to the creation: the record
    passed to [Siae.objects.create]. *)
Definition siae_record (elem : row) : result row :=
  elem ← rename_dict_key elem "geo_range" "geo_range_custom_distance";
  elem ← rename_dict_key elem "pol_range" "geo_range";
  elem ← rename_dict_key elem "c4_id" "c4_id_old";
  elem ← rename_dict_key elem "c1_source" "source";
  elem ← make_aware_dates (cleanup_date_field_names elem);
  elem ← map_field (integer_to_boolean elem) "nature" map_siae_nature;
  elem ← map_field elem "presta_type" map_siae_presta_type;
  elem ← map_field elem "geo_range" map_geo_range;
  elem ← set_coords elem;
  pop_all elem DIRECTORY_EXTRA_KEYS.

Definition migrate_siae_row (elem : row) : M unit :=
  elem ← lift (siae_record elem);
  try_except (objects_create Siae elem) (fun e => print [Exn e]).

Definition migrate_siae (cur : cursor) : M unit :=
  print [Text dashes];;
  print [Text "Migrating Siae..."];;
  objects_delete Siae;;
  for_each (directory cur) migrate_siae_row;;
  n ← objects_count Siae;
  print [Text ("Created " +:+ pretty n +:+ " siaes !")].

(** *** Network *)

Definition network_record (elem : row) : result row :=
  elem ← make_aware_dates (cleanup_date_field_names elem);
  elem ← pop_all elem ["accronym"; "siret"];
  name ← getitem elem "name";
  slug ← slugify name;
  mret (<["slug" := slug]> elem).

Definition migrate_network_row (elem : row) : M unit :=
  elem ← lift (network_record elem);
  objects_create Network elem.

Definition migrate_network (cur : cursor) : M unit :=
  print [Text dashes];;
  print [Text "Migrating Network..."];;
  objects_delete Network;;
  for_each (network cur) migrate_network_row;;
  n ← objects_count Network;
  print [Text ("Created " +:+ pretty n +:+ " siae networks !")].

(** *** SiaeOffer, SiaeLabelOld, SiaeClientReference *)

Definition offer_record (elem : row) : result row :=
  elem ← rename_dict_key elem "directory_id" "siae_id";
  elem ← make_aware_dates (cleanup_date_field_names elem);
  pop_all elem ["id"].

Definition migrate_siae_offer (cur : cursor) : M unit :=
  print [Text dashes];;
  print [Text "Migrating SiaeOffer..."];;
  objects_delete SiaeOffer;;
  for_each (directory_offer cur)
    (fun elem => elem ← lift (offer_record elem); objects_create SiaeOffer elem);;
  n ← objects_count SiaeOffer;
  print [Text ("Created " +:+ pretty n +:+ " offers !")].

Definition migrate_siae_label (cur : cursor) : M unit :=
  print [Text dashes];;
  print [Text "Migrating SiaeLabelOld..."];;
  objects_delete SiaeLabelOld;;
  for_each (directory_label cur)
    (fun elem => elem ← lift (offer_record elem); objects_create SiaeLabelOld elem);;
  n ← objects_count SiaeLabelOld;
  print [Text ("Created " +:+ pretty n +:+ " labels !")].

Definition client_reference_record (elem : row) : result row :=
  elem ← make_aware_dates (cleanup_date_field_names elem);
  elem ← rename_dict_key elem "name" "image_name";
  elem ← rename_dict_key elem "description" "name";
  elem ← rename_dict_key elem "position" "order";
  elem ← rename_dict_key elem "directory_id" "siae_id";
  pop_all elem ["id"].

Definition migrate_siae_client_reference_logo (cur : cursor) : M unit :=
  print [Text dashes];;
  print [Text "Migrating SiaeClientReference..."];;
  objects_delete SiaeClientReference;;
  for_each (directory_client_image cur)
    (fun elem => elem ← lift (client_reference_record elem);
                 objects_create SiaeClientReference elem);;
  n ← objects_count SiaeClientReference;
  print [Text ("Created " +:+ pretty n +:+ " client references !")].

(** *** User *)

Definition set_staff (elem : row) : result row :=
  match elem !! "roles" with
  | Some roles =>
      staff ← startswith roles "a:1:{i:0;s:10";
      let elem := if staff : bool then <["is_staff" := PBool true]> elem else elem in
      superuser ← startswith roles "a:1:{i:0;s:16";
      mret (if superuser : bool then <["is_superuser" := PBool true]> elem else elem)
  | None => mret elem
  end.

(** [if "person_type" in elem: elem["kind"] = map_user_kind(elem["person_type"])] *)
Definition set_kind (elem : row) : result row :=
  match elem !! "person_type" with
  | Some person_type =>
      kind ← map_user_kind person_type;
      mret (<["kind" := kind]> elem)
  | None => mret elem
  end.

Definition user_renames : list (string * string) :=
  [ ("enabled", "is_active"); ("id", "c4_id");
    ("phone_prefix", "c4_phone_prefix"); ("time_zone", "c4_time_zone");
    ("website", "c4_website"); ("siret", "c4_siret"); ("naf", "c4_naf");
    ("phone_verified", "c4_phone_verified");
    ("email_verified", "c4_email_verified");
    ("id_card_verified", "c4_id_card_verified");
    ("offers_for_pro_sector", "accept_offers_for_pro_sector");
    ("quote_promise", "accept_quote_promise") ].

(** A run of [rename_dict_key] calls, in order. *)
Fixpoint rename_all (elem : row) (renames : list (string * string)) : result row :=
  match renames with
  | [] => Ok elem
  | (before, after) :: renames' =>
      elem ← rename_dict_key elem before after;
      rename_all elem renames'
  end.

(** The body of the loop of [migrate_user] up to the test on [kind]. *)
Definition user_record (elem : row) : result row :=
  elem ← rename_all elem user_renames;
  elem ← make_aware_dates (cleanup_date_field_names elem);
  elem ← set_kind (integer_to_boolean elem);
  elem ← set_staff elem;
  pop_all elem USER_EXTRA_KEYS.

Definition migrate_user_row (elem : row) : M unit :=
  elem ← lift (user_record elem);
  kind ← lift (getitem elem "kind");
  if truthy kind then
    try_except (User_create elem) (fun e => print [Text "a"; Exn e])
  else mret tt.

(** [reset_app_sql_sequences("users")] resets the key sequences, which the
    tables here do not carry. *)
Definition migrate_user (cur : cursor) : M unit :=
  print [Text dashes];;
  print [Text "Migrating User..."];;
  User_delete_without_api_key;;
  for_each (user cur) migrate_user_row;;
  n ← (fun d => (d, Ok (length (User_objects d))));
  print [Text ("Created " +:+ pretty n +:+ " users !")].

(** Whether the row of a legacy user gets past the test on its kind: 1 if
    it does, 0 if the row is skipped. *)
Definition with_kind (elem : row) : nat :=
  match user_record elem with
  | Ok r =>
      match r !! "kind" with
      | Some kind => if truthy kind then 1%nat else 0%nat
      | None => 0%nat
      end
  | Raise _ => 0%nat
  end.

(** *** Sector and SectorGroup *)

(** Modelled from the spec: the uniqueness constraints of the [Sector] and
    [SectorGroup] models ("slug uniqueness within Sector is enforced"), which
    live in [lemarche.sectors.models]: [create] raises [IntegrityError] when
    the primary key or the slug is already taken. *)
Definition SectorGroup_create (pk : Z) (name slug : string) : M unit := fun d =>
  if existsb (fun g => Z.eqb (group_pk g) pk || String.eqb (group_slug g) slug)
       (SectorGroup_objects d)
  then (d, Raise (IntegrityError "duplicate key value violates unique constraint"))
  else (set_SectorGroup_objects
          (SectorGroup_objects d
             ++ [{| group_pk := pk; group_name := name; group_slug := slug |}]) d,
        Ok tt).

Definition Sector_create (pk : Z) (name slug : string) (group : Z) : M unit := fun d =>
  if existsb (fun s => Z.eqb (sector_pk s) pk || String.eqb (sector_slug s) slug)
       (Sector_objects d)
  then (d, Raise (IntegrityError "duplicate key value violates unique constraint"))
  else (set_Sector_objects
          (Sector_objects d
             ++ [{| sector_pk := pk; sector_name := name; sector_slug := slug;
                    sector_group := group |}]) d,
        Ok tt).

(** [try: m  except IntegrityError: handler] *)
Definition try_except_IntegrityError {A} (m : M A) (handler : M A) : M A := fun d =>
  match m d with
  | (d', Raise (IntegrityError _)) => handler d'
  | r => r
  end.

(** An entry of [sector_group_list]: [{"id": ..., "children": [...]}]. *)
Record sector_group_dict := { sg_id : Z; sg_children : list Z }.

(** [next((index for (index, s) in enumerate(l) if p s), None)] *)
Fixpoint find_index {A} (p : A -> bool) (l : list A) : option nat :=
  match l with
  | [] => None
  | x :: l' => if p x then Some 0%nat else option_map S (find_index p l')
  end.

Definition append_child (child : Z) (s : sector_group_dict) : sector_group_dict :=
  {| sg_id := sg_id s; sg_children := sg_children s ++ [child] |}.

(** [not elem["parent_id"]]: the column is NULL or 0. *)
Definition no_parent (elem : listing_category_row) : bool :=
  match category_parent_id elem with
  | Some parent_id => Z.eqb parent_id 0
  | None => true
  end.

(** One turn of the loop that rebuilds the hierarchy. *)
Definition hierarchy_step (sector_group_list : list sector_group_dict)
    (elem : listing_category_row) : list sector_group_dict :=
  match category_parent_id elem with
  | Some parent_id =>
      if Z.eqb parent_id 0 then
        match find_index (fun s => Z.eqb (sg_id s) (category_id elem)) sector_group_list with
        | None => sector_group_list ++ [{| sg_id := category_id elem; sg_children := [] |}]
        | Some _ => sector_group_list
        end
      else
        match find_index (fun s => Z.eqb (sg_id s) parent_id) sector_group_list with
        | None =>
            let sector_group_list :=
              sector_group_list ++ [{| sg_id := parent_id; sg_children := [] |}] in
            alter (append_child (category_id elem))
              (length sector_group_list - 1)%nat sector_group_list
        | Some sector_group_index =>
            alter (append_child (category_id elem)) sector_group_index sector_group_list
        end
  | None =>
      match find_index (fun s => Z.eqb (sg_id s) (category_id elem)) sector_group_list with
      | None => sector_group_list ++ [{| sg_id := category_id elem; sg_children := [] |}]
      | Some _ => sector_group_list
      end
  end.

Definition sector_hierarchy (resp : list listing_category_row) : list sector_group_dict :=
  foldl hierarchy_step [] resp.

(** What the loop of [migrate_sector] keeps true of [sector_group_list]
    over the rows read so far. *)
Definition hierarchy_of (seen : list listing_category_row)
    (l : list sector_group_dict) : Prop :=
  NoDup (sg_id <$> l)
  /\ (forall elem parent_id,
        elem ∈ seen -> category_parent_id elem = Some parent_id -> parent_id <> 0 ->
        exists g, g ∈ l /\ sg_id g = parent_id /\ category_id elem ∈ sg_children g)
  /\ (forall g child,
        g ∈ l -> child ∈ sg_children g ->
        exists elem, elem ∈ seen /\ category_id elem = child
                     /\ category_parent_id elem = Some (sg_id g) /\ sg_id g <> 0).

(** [next(s for s in resp if s["translatable_id"] == i and s["locale"] == "fr")],
    which has no default. *)
Definition french (resp : list category_translation_row) (i : Z)
  : result category_translation_row :=
  match List.find (fun s => Z.eqb (translatable_id s) i && String.eqb (locale s) "fr") resp with
  | Some s => Ok s
  | None => Raise StopIteration
  end.

(** [f"{elem_data['slug']}-{sector_group_dict['id']}"] *)
Definition slug_fix (slug : string) (group_id : Z) : string :=
  slug +:+ "-" +:+ pretty group_id.

Definition create_sector (resp : list category_translation_row)
    (sector_group_dict : sector_group_dict) (sector_id : Z) : M unit :=
  elem_data ← lift (french resp sector_id);
  try_except_IntegrityError
    (Sector_create sector_id (name elem_data) (slug elem_data) (sg_id sector_group_dict))
    (Sector_create sector_id (name elem_data)
       (slug_fix (slug elem_data) (sg_id sector_group_dict)) (sg_id sector_group_dict)).

Definition create_sector_group (resp : list category_translation_row)
    (sector_group_dict : sector_group_dict) : M unit :=
  elem_data ← lift (french resp (sg_id sector_group_dict));
  SectorGroup_create (sg_id sector_group_dict) (name elem_data) (slug elem_data);;
  for_each (sg_children sector_group_dict) (create_sector resp sector_group_dict).

(** [reset_app_sql_sequences("sectors")] resets the key sequences, which the
    tables here do not carry: every key is given by the legacy row. *)
Definition migrate_sector (cur : cursor) : M unit :=
  print [Text dashes];;
  print [Text "Migrating Sector & SectorGroup..."];;
  (fun d => (set_Sector_objects [] d, Ok tt));;
  (fun d => (set_SectorGroup_objects [] d, Ok tt));;
  for_each (sector_hierarchy (listing_category cur))
    (create_sector_group (listing_category_translation cur));;
  groups ← (fun d => (d, Ok (length (SectorGroup_objects d))));
  print [Text ("Created " +:+ pretty groups +:+ " sector groups !")];;
  sectors ← (fun d => (d, Ok (length (Sector_objects d))));
  print [Text ("Created " +:+ pretty sectors +:+ " sectors !")].

(** *** SiaeImage *)

(** An entry of [siae_listing_list]: the dictionary of a listing, its
    ["images"] list kept apart from the scalar keys. The ["images"] key is
    set when the entry is built and never removed. *)
Record siae_listing := { fields : row; images : list row }.

Definition thin_listing (elem : row) : result siae_listing :=
  elem ← make_aware_dates (cleanup_date_field_names elem);
  elem ← rename_dict_key elem "id" "listing_id";
  elem_thin ← restrict elem ["listing_id"; "user_id"; "created_at"; "updated_at"];
  mret {| fields := elem_thin; images := [] |}.

Fixpoint thin_listings (resp : list row) : result (list siae_listing) :=
  match resp with
  | [] => Ok []
  | elem :: resp' =>
      elem_thin ← thin_listing elem;
      rest ← thin_listings resp';
      mret (elem_thin :: rest)
  end.

(** [next((index for (index, si) in enumerate(l) if si["listing_id"] == value), None)] *)
Fixpoint listing_index (siae_listing_list : list siae_listing) (value : pyval)
  : result (option nat) :=
  match siae_listing_list with
  | [] => Ok None
  | si :: l' =>
      listing_id ← getitem (fields si) "listing_id";
      if py_eq listing_id value then Ok (Some 0%nat)
      else index ← listing_index l' value; Ok (option_map S index)
  end.

(** [if siae_listing_index: update siae_listing_list[siae_listing_index]]:
    the test is on the index itself, so neither [None] nor [0] passes. *)
Definition update_at_index (siae_listing_index : option nat)
    (update : siae_listing -> siae_listing) (siae_listing_list : list siae_listing)
  : list siae_listing :=
  match siae_listing_index with
  | Some (S i) => alter update (S i) siae_listing_list
  | Some O | None => siae_listing_list
  end.

(** [d |= elem_thin] on the listing's dictionary. *)
Definition merge_translation (elem_thin : row) (si : siae_listing) : siae_listing :=
  {| fields := elem_thin ∪ fields si; images := images si |}.

Definition append_image (elem_thin : row) (si : siae_listing) : siae_listing :=
  {| fields := fields si; images := images si ++ [elem_thin] |}.

Definition enrich_with_translation (siae_listing_list : list siae_listing) (elem : row)
  : result (list siae_listing) :=
  elem ← rename_dict_key elem "title" "name";
  elem_thin ← restrict elem ["translatable_id"; "name"; "description"];
  translatable_id ← getitem elem_thin "translatable_id";
  siae_listing_index ← listing_index siae_listing_list translatable_id;
  mret (update_at_index siae_listing_index (merge_translation elem_thin) siae_listing_list).

Definition enrich_with_image (siae_listing_list : list siae_listing) (elem : row)
  : result (list siae_listing) :=
  elem ← rename_dict_key elem "name" "image_name";
  elem_thin ← restrict elem ["listing_id"; "image_name"; "position"];
  listing_id ← getitem elem_thin "listing_id";
  siae_listing_index ← listing_index siae_listing_list listing_id;
  mret (update_at_index siae_listing_index (append_image elem_thin) siae_listing_list).

(** A loop that threads the list it rebuilds. *)
Fixpoint enrich (step : list siae_listing -> row -> result (list siae_listing))
    (siae_listing_list : list siae_listing) (resp : list row)
  : result (list siae_listing) :=
  match resp with
  | [] => Ok siae_listing_list
  | elem :: resp' =>
      siae_listing_list ← step siae_listing_list elem;
      enrich step siae_listing_list resp'
  end.

(** The in-memory join of [listing], [listing_translation] and
    [listing_image]. *)
Definition join_listings (listings translations imgs : list row)
  : result (list siae_listing) :=
  siae_listing_list ← thin_listings listings;
  siae_listing_list ← enrich enrich_with_translation siae_listing_list translations;
  enrich enrich_with_image siae_listing_list imgs.

Record error_count := {
  listing_without_image : nat;
  user_not_found : nat;
  user_no_siae : nat;
  user_multiple_siae : nat;
}.

Definition incr_listing_without_image (c : error_count) : error_count :=
  {| listing_without_image := S (listing_without_image c);
     user_not_found := user_not_found c;
     user_no_siae := user_no_siae c;
     user_multiple_siae := user_multiple_siae c |}.

Definition incr_user_not_found (c : error_count) : error_count :=
  {| listing_without_image := listing_without_image c;
     user_not_found := S (user_not_found c);
     user_no_siae := user_no_siae c;
     user_multiple_siae := user_multiple_siae c |}.

Definition incr_user_no_siae (c : error_count) : error_count :=
  {| listing_without_image := listing_without_image c;
     user_not_found := user_not_found c;
     user_no_siae := S (user_no_siae c);
     user_multiple_siae := user_multiple_siae c |}.

Definition incr_user_multiple_siae (c : error_count) : error_count :=
  {| listing_without_image := listing_without_image c;
     user_not_found := user_not_found c;
     user_no_siae := user_no_siae c;
     user_multiple_siae := S (user_multiple_siae c) |}.

(** The body of the loop over the images of one listing. The dictionary
    [siae_listing.copy() | siae_image] still has the ["images"] key, so that
    popping it cannot fail; ["translatable_id"] and ["user_id"] are popped
    from the scalar keys. *)
Definition create_siae_image (siae_listing : siae_listing) (count : error_count)
    (siae_image : row) : M error_count :=
  siae_image_dict ← lift (rename_dict_key (siae_image ∪ fields siae_listing)
                            "listing_id" "c4_listing_id");
  siae_image_dict ← lift (rename_dict_key siae_image_dict "position" "order");
  user_id ← lift (getitem siae_image_dict "user_id");
  users ← (fun d => (d, Ok (User_filter_c4_id user_id d)));
  match users with
  | [] => mret (incr_user_not_found count)
  | first :: _ =>
      match user_siaes first with
      | _ :: _ :: _ => mret (incr_user_multiple_siae count)
      | [] => mret (incr_user_no_siae count)
      | [siae] =>
          let siae_image_dict := <["siae_id" := PInt siae]> siae_image_dict in
          siae_image_dict ← lift (pop_all siae_image_dict ["translatable_id"; "user_id"]);
          objects_create SiaeImage siae_image_dict;;
          mret count
      end
  end.

(** The dictionary [create_siae_image] passes to [SiaeImage.objects.create]
    for an image of a listing whose owner has the one enterprise [siae]. *)
Definition siae_image_record (siae_listing : siae_listing) (siae_image : row) (siae : Z)
  : result row :=
  siae_image_dict ← rename_dict_key (siae_image ∪ fields siae_listing)
                      "listing_id" "c4_listing_id";
  siae_image_dict ← rename_dict_key siae_image_dict "position" "order";
  pop_all (<["siae_id" := PInt siae]> siae_image_dict) ["translatable_id"; "user_id"].

(** An image as the join stores it: the three columns kept of a row of
    [listing_image]. *)
Definition thin_image (siae_image : row) : Prop :=
  exists elem : row, restrict elem ["listing_id"; "image_name"; "position"] = Ok siae_image.

(** A loop that threads the error counters. *)
Fixpoint for_each_count {A} (l : list A) (count : error_count)
    (body : error_count -> A -> M error_count) : M error_count :=
  match l with
  | [] => mret count
  | x :: l' => count ← body count x; for_each_count l' count body
  end.

(** The body of the loop over [siae_listing_list]. *)
Definition create_listing_images (count : error_count) (siae_listing : siae_listing)
  : M error_count :=
  match images siae_listing with
  | [] => mret (incr_listing_without_image count)
  | _ :: _ => for_each_count (images siae_listing) count (create_siae_image siae_listing)
  end.

Definition no_error : error_count :=
  {| listing_without_image := 0; user_not_found := 0;
     user_no_siae := 0; user_multiple_siae := 0 |}.

Definition create_siae_images (siae_listing_list : list siae_listing) : M error_count :=
  for_each_count siae_listing_list no_error create_listing_images.

(** [if len(siae_listing["images"]) == 0] *)
Definition without_image (si : siae_listing) : bool :=
  match images si with [] => true | _ :: _ => false end.

(** The counters after so many more errors of each kind. *)
Definition add_errors (without_image not_found no_siae multiple : nat) (c : error_count)
  : error_count :=
  {| listing_without_image := listing_without_image c + without_image;
     user_not_found := user_not_found c + not_found;
     user_no_siae := user_no_siae c + no_siae;
     user_multiple_siae := user_multiple_siae c + multiple |}.

Definition show_error_count (c : error_count) : string :=
  "{'listing_without_image': " +:+ pretty (listing_without_image c)
  +:+ ", 'user_not_found': " +:+ pretty (user_not_found c)
  +:+ ", 'user_no_siae': " +:+ pretty (user_no_siae c)
  +:+ ", 'user_multiple_siae': " +:+ pretty (user_multiple_siae c) +:+ "}".

Definition migrate_siae_image (cur : cursor) : M unit :=
  print [Text dashes];;
  print [Text "Migrating SiaeImage..."];;
  objects_delete SiaeImage;;
  print [Text ("Found " +:+ pretty (length (listing cur)) +:+ " Siae listings...")];;
  siae_listing_list ← lift (thin_listings (listing cur));
  siae_listing_list ←
    lift (enrich enrich_with_translation siae_listing_list (listing_translation cur));
  print [Text ("Found " +:+ pretty (length (listing_image cur)) +:+ " Siae images...")];;
  siae_listing_list ←
    lift (enrich enrich_with_image siae_listing_list (listing_image cur));
  count ← create_siae_images siae_listing_list;
  n ← objects_count SiaeImage;
  print [Text ("Created " +:+ pretty n +:+ " siae images !")];;
  print [Text "Errors"; Text (show_error_count count)].

(** *** The orchestrator *)

(** The connection to the legacy database, as far as [handle] acts on it. *)
Record connection := { rolled_back : bool; closed : bool }.

Definition rollback (connMy : connection) : connection :=
  {| rolled_back := true; closed := closed connMy |}.

Definition close (connMy : connection) : connection :=
  {| rolled_back := rolled_back connMy; closed := true |}.

(** [handle]: [pymysql.connect] is called before the [try], so that its
    failure reaches the caller with no connection to close. Of the fourteen
    steps, all but [migrate_siae_image] are commented out. [rollback] and
    [close] are taken not to raise. *)
Definition handle (connect : result cursor) (d : db)
  : db * option connection * result unit :=
  match connect with
  | Raise e => (d, None, Raise e)
  | Ok cur =>
      let connMy := {| rolled_back := false; closed := false |} in
      let '(d, connMy) :=
        match migrate_siae_image cur d with
        | (d, Ok _) => (d, connMy)
        | (d, Raise e) => ((print [Exn e] d).1, rollback connMy)
        end in
      (d, Some (close connMy), Ok tt)
  end.

(** *** Where a destination record comes from

    What it is for a record to have been created by a run over the legacy
    database [cur]: it is the record the migrator builds for a legacy row. *)




(** The sector tables only grow from [d] to [d']. *)
Definition sectors_grow (d d' : db) : Prop :=
  (forall g, g ∈ SectorGroup_objects d -> g ∈ SectorGroup_objects d')
  /\ (forall s, s ∈ Sector_objects d -> s ∈ Sector_objects d').





End Command.

End Migrate.
Export Migrate.

(** ** Geocoding *)

Module Geocoding.

(** A decoded JSON document; [JNull] is Python's [None]. *)
#[warnings="-register-all"]
Inductive json : Type :=
| JNull
| JBool (b : bool)
| JNum (q : Q)
| JStr (s : string)
| JArr (l : list json)
| JObj (l : list (string * json)).

(** [bool(v)] *)
Definition jtruthy (v : json) : bool :=
  match v with
  | JNull => false
  | JBool b => b
  | JNum q => negb (Qeq_bool q 0)
  | JStr s => negb (String.eqb s "")
  | JArr l => match l with [] => false | _ => true end
  | JObj l => match l with [] => false | _ => true end
  end.

Fixpoint jassoc (l : list (string * json)) (key : string) : option json :=
  match l with
  | [] => None
  | (k, v) :: l' => if String.eqb k key then Some v else jassoc l' key
  end.

(** [v[key]] with a string key. *)
Definition subscript (v : json) (key : string) : result json :=
  match v with
  | JObj l =>
      match jassoc l key with
      | Some x => Ok x
      | None => Raise (KeyError (PStr key))
      end
  | JArr _ => Raise (TypeError "list indices must be integers or slices, not str")
  | JStr _ => Raise (TypeError "string indices must be integers")
  | _ => Raise (TypeError "object is not subscriptable")
  end.

(** [v[i]] with an integer index, [i] being 0 or 1 here. *)
Definition index (v : json) (i : nat) : result json :=
  match v with
  | JArr l =>
      match l !! i with
      | Some x => Ok x
      | None => Raise IndexError
      end
  | JStr s =>
      match String.get i s with
      | Some c => Ok (JStr (String c EmptyString))
      | None => Raise IndexError
      end
  | JObj _ => Raise (KeyError (PInt (Z.of_nat i)))
  | _ => Raise (TypeError "object is not subscriptable")
  end.

(** [v.get(key)] and [v.get(key, None)]: a method of dictionaries only. *)
Definition get (v : json) (key : string) : result json :=
  match v with
  | JObj l => Ok (default JNull (jassoc l key))
  | _ => Raise (AttributeError "get")
  end.

(** The query of a request: [{"q": address, "limit": limit}], with
    ["postcode"] when a post code restricts the search. *)
Record query := { q : string; limit : Z; postcode : option string }.

(** What [requests.get(url)] does: it raises (the network failed) or returns
    a response, whose [json()] is a document or raises [JSONDecodeError]. *)
Inductive response : Type :=
| NetworkFailure (e : exn)
| Body (document : option json).

(** What the helper does besides returning: the requests sent and the
    messages logged. *)
Inductive event : Type :=
| Get (args : query)
| Info (message : string).

(** The dictionary [process_geocoding_data] returns. *)
Record geocoding_data := {
  score : json;
  address_line_1 : json;
  number : json;
  lane : json;
  address : json;
  post_code : json;
  insee_code : json;
  city : json;
  longitude : json;
  latitude : json;
  coords : string;
}.

Section Ban.

(** The address service, whether the [requests] package has an attribute
    named [RequestError] (the handler of [call_ban_geocoding_api] names it),
    and [GEOSGeometry] on the text [POINT(longitude latitude)]: none is part
    of the helper's file. *)
Variable requests_get : query -> response.
Variable requests_has_RequestError : bool.
Variable GEOSGeometry_point : json -> json -> result string.

(** [if post_code:] *)
Definition given (post_code : option string) : bool :=
  match post_code with
  | Some s => negb (String.eqb s "")
  | None => false
  end.

(** The recursive call passes no post code, so that it does not recurse
    again: two levels are enough ([call_ban_geocoding_api] below). *)
Fixpoint call_ban_geocoding_api_rec (depth : nat) (address : string)
    (post_code : option string) (limit : Z) : list event * result json :=
  match depth with
  | O => ([], Raise (OtherError "RecursionError"))
  | S depth' =>
      let args :=
        {| q := address; limit := limit;
           postcode := if given post_code then post_code else None |} in
      match requests_get args with
      | NetworkFailure e =>
          if requests_has_RequestError
          then ([Get args; Info "Error while fetching"], Ok JNull)
          else ([Get args], Raise (AttributeError "RequestError"))
      | Body None =>
          ([Get args; Info "Error decoding json"], Ok JNull)
      | Body (Some document) =>
          match features ← subscript document "features"; index features 0 with
          | Ok feature => ([Get args], Ok feature)
          | Raise IndexError =>
              if given post_code then
                let (events, r) := call_ban_geocoding_api_rec depth' address None 1 in
                (Get args :: events, r)
              else ([Get args; Info "Geocoding error, no result found"], Ok JNull)
          | Raise (KeyError _) => ([Get args; Info "Error key missing"], Ok JNull)
          | Raise e => ([Get args], Raise e)
          end
      end
  end.

Definition call_ban_geocoding_api (address : string) (post_code : option string)
    (limit : Z) : list event * result json :=
  call_ban_geocoding_api_rec 2 address post_code limit.

Definition process_geocoding_data (data : json) : result (option geocoding_data) :=
  if negb (jtruthy data) then Ok None
  else
    properties ← get data "properties";
    if negb (jtruthy properties) then Ok None
    else
      geometry ← subscript data "geometry";
      coordinates ← subscript geometry "coordinates";
      longitude ← index coordinates 0;
      geometry ← subscript data "geometry";
      coordinates ← subscript geometry "coordinates";
      latitude ← index coordinates 1;
      properties ← subscript data "properties";
      score ← subscript properties "score";
      name ← subscript properties "name";
      number ← get properties "housenumber";
      lane ← get properties "street";
      postcode ← subscript properties "postcode";
      citycode ← subscript properties "citycode";
      city ← subscript properties "city";
      coords ← GEOSGeometry_point longitude latitude;
      Ok (Some {| score := score; address_line_1 := name; number := number;
                  lane := lane; address := name; post_code := postcode;
                  insee_code := citycode; city := city;
                  longitude := longitude; latitude := latitude;
                  coords := coords |}).

Definition get_geocoding_data (address : string) (post_code : option string)
    (limit : Z) : list event * result (option geocoding_data) :=
  let (events, r) := call_ban_geocoding_api address post_code limit in
  (events, geocoding_data ← r; process_geocoding_data geocoding_data).

End Ban.

End Geocoding.

(** ** The import of the departments

    [lemarche/perimeters/management/commands/import_departements.py]: the
    command reads the objects of [departements.json], checks their codes
    against the constants of the application and gets or creates a
    [Perimeter] for each, then for eight overseas collectivities. *)

Module Departements.

(** An object of the file: its values are strings, or [null]. *)
Abbreviation item := (gmap string (option string)).

(** A [Perimeter], as far as the command sets it. *)
Record perimeter := {
  kind : string;
  name : option string;
  insee_code : option string;
  region_code : option string;
}.

#[export] Instance perimeter_eq_dec : EqDecision perimeter.
Proof. solve_decision. Defined.

(** The [Perimeter] table, what was written to [self.stdout], and the
    number of handlers of the module's logger: the logger belongs to the
    process, and each call of [set_logger] adds a handler to it. *)
Record store := {
  Perimeter_objects : list perimeter;
  stdout : list string;
  logger_handlers : nat;
}.

Definition P (A : Type) : Type := store -> store * result A.

#[export] Instance P_ret : MRet P := fun A a st => (st, Ok a).
#[export] Instance P_bind : MBind P := fun A B k m st =>
  match m st with
  | (st', Ok a) => k a st'
  | (st', Raise e) => (st', Raise e)
  end.

Definition lift {A} (r : result A) : P A := fun st => (st, r).

(** [self.stdout.write(line)] *)
Definition write (line : string) : P unit := fun st =>
  ({| Perimeter_objects := Perimeter_objects st; stdout := stdout st ++ [line];
      logger_handlers := logger_handlers st |}, Ok tt).

(** [for x in l: body x] *)
Fixpoint for_each {A} (l : list A) (body : A -> P unit) : P unit :=
  match l with
  | [] => mret tt
  | x :: l' => _ ← body x; for_each l' body
  end.

(** [item[key]] *)
Definition subscript (item : item) (key : string) : result (option string) :=
  match item !! key with
  | Some v => Ok v
  | None => Raise (KeyError (PStr key))
  end.

(** [item.get(key)] *)
Definition get (item : item) (key : string) : option string :=
  default None (item !! key).

(** [str(v)] *)
Definition str (v : option string) : string :=
  match v with
  | Some s => s
  | None => "None"
  end.

(** The number of records equal to [p] on the four fields. *)
Definition matching (p : perimeter) (table : list perimeter) : nat :=
  length (List.filter (fun p' => bool_decide (p' = p)) table).

(** Also add 'Collectivites d'outre-mer'. *)
Definition MISSING_DEPARTMENTS : list item :=
  [ {[ "nom" := Some "Saint-Pierre-et-Miquelon"; "code" := Some "975";
       "codeRegion" := Some "97" ]};
    {[ "nom" := Some "Saint-Barthélemy"; "code" := Some "977";
       "codeRegion" := Some "97" ]};
    {[ "nom" := Some "Saint-Martin"; "code" := Some "978"; "codeRegion" := Some "97" ]};
    {[ "nom" := Some "Terres australes et antarctiques françaises"; "code" := Some "984";
       "codeRegion" := Some "97" ]};
    {[ "nom" := Some "Wallis-et-Futuna"; "code" := Some "986"; "codeRegion" := Some "97" ]};
    {[ "nom" := Some "Polynésie française"; "code" := Some "987";
       "codeRegion" := Some "97" ]};
    {[ "nom" := Some "Nouvelle-Calédonie"; "code" := Some "988";
       "codeRegion" := Some "97" ]};
    {[ "nom" := Some "Île de Clipperton"; "code" := Some "989";
       "codeRegion" := Some "97" ]} ].

Section Command.

(** From the rest of the application, none of it part of the command's file:
    the keys of the dictionaries [DEPARTMENTS] and [REGIONS] of
    [lemarche.utils.constants], [Perimeter.KIND_DEPARTMENT], and the
    validation a creation of [Perimeter] runs against the table ([None]: the
    record is inserted; [Some e]: the creation raises [e]). *)
Variable DEPARTMENTS : list string.
Variable REGIONS : list string.
Variable KIND_DEPARTMENT : string.
Variable Perimeter_validate : list perimeter -> perimeter -> option exn.

(** [v in CONSTANT] *)
Definition is_in (keys : list string) (v : option string) : bool :=
  match v with
  | Some s => bool_decide (s ∈ keys)
  | None => false
  end.

(** [assert b] *)
Definition assert (b : bool) : P unit := fun st =>
  (st, if b then Ok tt else Raise (OtherError "AssertionError")).

(** [set_logger]: one more handler that writes to [self.stdout] is added to
    the logger; the level is [DEBUG] above verbosity 1, [INFO] otherwise, and
    the result tells whether [logger.debug] writes. Without a verbosity,
    [None > 1] is a [TypeError], raised once the handler is added. *)
Definition set_logger (verbosity : option nat) : P bool := fun st =>
  let st := {| Perimeter_objects := Perimeter_objects st; stdout := stdout st;
               logger_handlers := S (logger_handlers st) |} in
  match verbosity with
  | Some v => (st, Ok (1 <? v)%nat)
  | None =>
      (st, Raise (TypeError "'>' not supported between instances of 'NoneType' and 'int'"))
  end.

(** [self.logger.debug(msg)]: every handler of the logger writes the line. *)
Definition debug (verbose : bool) (msg : option string) : P unit := fun st =>
  if verbose then
    ({| Perimeter_objects := Perimeter_objects st;
        stdout := stdout st ++ repeat (str msg) (logger_handlers st);
        logger_handlers := logger_handlers st |}, Ok tt)
  else (st, Ok tt).

(** [Perimeter.objects.filter(kind=Perimeter.KIND_DEPARTMENT).count()] *)
Definition count_departments : P nat := fun st =>
  (st, Ok (length (List.filter (fun p => String.eqb (kind p) KIND_DEPARTMENT)
                     (Perimeter_objects st)))).

(** Modelled from Django's documentation of [get_or_create]: the one record
    that matches the four fields is returned; with none, the record is
    created, which the validation of the model may refuse; with several,
    [MultipleObjectsReturned] is raised. *)
Definition get_or_create (p : perimeter) : P unit := fun st =>
  match matching p (Perimeter_objects st) with
  | O =>
      match Perimeter_validate (Perimeter_objects st) p with
      | None =>
          ({| Perimeter_objects := Perimeter_objects st ++ [p]; stdout := stdout st;
              logger_handlers := logger_handlers st |},
           Ok tt)
      | Some e => (st, Raise e)
      end
  | S O => (st, Ok tt)
  | S (S _) => (st, Raise (OtherError "MultipleObjectsReturned"))
  end.

(** The body of the loop over the objects of the file. *)
Definition import_item (dry_run verbose : bool) (item : item) : P unit :=
  name ← lift (subscript item "nom");
  insee_code ← lift (subscript item "code");
  let region_code := get item "codeRegion" in
  assert (is_in DEPARTMENTS insee_code);;
  assert (is_in REGIONS region_code);;
  debug verbose (Some dashes);;
  debug verbose name;;
  debug verbose insee_code;;
  if negb dry_run then
    get_or_create {| kind := KIND_DEPARTMENT; name := name; insee_code := insee_code;
                     region_code := region_code |}
  else mret tt.

(** The body of the loop over [MISSING_DEPARTMENTS]. *)
Definition import_missing (dry_run : bool) (department : item) : P unit :=
  name ← lift (subscript department "nom");
  insee_code ← lift (subscript department "code");
  region_code ← lift (subscript department "codeRegion");
  if negb dry_run then
    get_or_create {| kind := KIND_DEPARTMENT; name := name; insee_code := insee_code;
                     region_code := region_code |}
  else mret tt.

(** [handle]: [json_data] is what [json.load] returns on the file, or the
    exception [open] or [json.load] raises. *)
Definition handle (dry_run : bool) (verbosity : option nat)
    (json_data : result (list item)) : P unit :=
  write dashes;;
  write "Importing Perimeters > departements...";;
  n ← count_departments;
  write ("Before: " +:+ pretty n +:+ " " +:+ KIND_DEPARTMENT +:+ "s");;
  verbose ← set_logger verbosity;
  json_data ← lift json_data;
  for_each json_data (import_item dry_run verbose);;
  for_each MISSING_DEPARTMENTS (import_missing dry_run);;
  write "Done.";;
  n ← count_departments;
  write ("After: " +:+ pretty n +:+ " " +:+ KIND_DEPARTMENT +:+ "s").

(** The record the command gets or creates for an object. *)
Definition perimeter_of (item : item) : perimeter :=
  {| kind := KIND_DEPARTMENT; name := get item "nom"; insee_code := get item "code";
     region_code := get item "codeRegion" |}.

(** A statement that leaves the table as it is. *)
Definition same_table {A} (m : P A) : Prop :=
  forall st, Perimeter_objects (m st).1 = Perimeter_objects st.

(** What a [get_or_create] of [p] that returns does to the table: [p] was
    there once and nothing changes, or it was not and is appended. *)
Definition got_or_created (p : perimeter) (table table' : list perimeter) : Prop :=
  (matching p table = 1%nat /\ table' = table)
  \/ (matching p table = 0%nat /\ table' = table ++ [p]).

(** The same, for a sequence of records in turn. *)
Fixpoint all_got_or_created (ps : list perimeter) (table table' : list perimeter) : Prop :=
  match ps with
  | [] => table' = table
  | p :: ps' =>
      exists table1, got_or_created p table table1 /\ all_got_or_created ps' table1 table'
  end.

(** The checks of an object of the file. *)
Definition checked (item : item) : Prop :=
  is_Some (item !! "nom") /\ is_Some (item !! "code")
  /\ is_in DEPARTMENTS (get item "code") = true
  /\ is_in REGIONS (get item "codeRegion") = true.

(** Both loops: a turn that returns got or created the record of its
    object, and returns again, changing nothing, wherever that record is
    present once. *)
Definition imports (body : item -> P unit) : Prop :=
  forall item st st', body item st = (st', Ok tt) ->
    got_or_created (perimeter_of item) (Perimeter_objects st) (Perimeter_objects st').

Definition repeats (body body' : item -> P unit) : Prop :=
  forall item st st', body item st = (st', Ok tt) ->
    forall st2, matching (perimeter_of item) (Perimeter_objects st2) = 1%nat ->
      exists st3, body' item st2 = (st3, Ok tt)
                  /\ Perimeter_objects st3 = Perimeter_objects st2.

End Command.

End Departements.

(** ** A concrete installation

    Values for what the command imports, used to run the migrators on
    concrete legacy rows: the enumeration values are those of the
    application, every model refuses a record whose [name] is [None] (a NOT
    NULL column; [image_name] for [SiaeImage]), a user needs an [email], and
    [make_aware] accepts naive datetimes only. *)

Module Sample.

Definition not_null (column : string) (table : list row) (elem : row) : option exn :=
  match elem !! column with
  | Some PNone => Some (IntegrityError ("null value in column " +:+ column))
  | _ => None
  end.

Definition sample_make_aware (v : pyval) : result pyval :=
  match v with
  | PObj repr => Ok (PObj (repr +:+ "+00:00"))
  | _ => Raise (AttributeError "tzinfo")
  end.

Definition sample_slugify (v : pyval) : result pyval :=
  match v with
  | PStr s => Ok (PStr s)
  | _ => Ok (PStr "none")
  end.

Definition django : Django := {|
  DIRECTORY_BOOLEAN_FIELDS := ["is_active"; "is_qpv"; "is_delisted"];
  USER_BOOLEAN_FIELDS := ["is_active"; "is_staff"; "is_superuser"];
  DIRECTORY_DATE_FIELDS := ["created_at"; "updated_at"];
  NETWORK_DATE_FIELDS := ["created_at"; "updated_at"];
  SECTOR_DATE_FIELDS := ["created_at"; "updated_at"];
  USER_DATE_FIELDS := ["created_at"; "updated_at"; "last_login"];
  make_aware := sample_make_aware;
  slugify := sample_slugify;
  GEOSGeometry := fun longitude latitude => Ok (PObj "POINT");
  NATURE_HEAD_OFFICE := PStr "HEAD_OFFICE";
  NATURE_ANTENNA := PStr "ANTENNA";
  PRESTA_DISP := PStr "DISP";
  PRESTA_PREST := PStr "PREST";
  PRESTA_BUILD := PStr "BUILD";
  GEO_RANGE_COUNTRY := PStr "COUNTRY";
  GEO_RANGE_REGION := PStr "REGION";
  GEO_RANGE_DEPARTMENT := PStr "DEPARTMENT";
  GEO_RANGE_CUSTOM := PStr "CUSTOM";
  KIND_BUYER := PStr "BUYER";
  KIND_SIAE := PStr "SIAE";
  KIND_ADMIN := PStr "ADMIN";
  KIND_PARTNER := PStr "PARTNER";
  Siae_validate := not_null "name";
  Network_validate := not_null "name";
  SiaeOffer_validate := not_null "name";
  SiaeLabelOld_validate := not_null "name";
  SiaeClientReference_validate := not_null "name";
  SiaeImage_validate := not_null "image_name";
  User_validate := not_null "email";
|}.

(** A row with boolean columns as the legacy database returns them. *)
Definition flags : row :=
  {[ "is_active" := PStr "1"; "is_qpv" := PInt 0; "is_staff" := PNone;
     "is_delisted" := PBytes "1"; "name" := PInt 1 ]}.

Definition empty_db : db := {|
  Siae_objects := []; Network_objects := []; SiaeOffer_objects := [];
  SiaeLabelOld_objects := []; SiaeClientReference_objects := [];
  SiaeImage_objects := []; User_objects := []; SectorGroup_objects := [];
  Sector_objects := []; stdout := [] |}.


(** Two rows of the legacy [network] table: the first has no name. *)
Definition nameless_network : row :=
  {[ "id" := PInt 1; "name" := PNone; "accronym" := PNone; "siret" := PNone;
     "createdAt" := PObj "2020-01-01 10:00:00"; "updatedAt" := PNone ]}.

Definition coorace_network : row :=
  {[ "id" := PInt 2; "name" := PStr "coorace"; "accronym" := PNone; "siret" := PNone;
     "createdAt" := PObj "2020-01-02 10:00:00"; "updatedAt" := PNone ]}.

Definition networks_cursor : cursor := {|
  directory := []; network := [nameless_network; coorace_network];
  listing_category := []; listing_category_translation := [];
  directory_offer := []; directory_label := []; directory_client_image := [];
  listing := []; listing_translation := []; listing_image := []; user := [] |}.

(** The same table with a network that the destination accepts before and
    after the one it refuses. *)
Definition refused_second_cursor : cursor := {|
  directory := []; network := [coorace_network; nameless_network; coorace_network];
  listing_category := []; listing_category_translation := [];
  directory_offer := []; directory_label := []; directory_client_image := [];
  listing := []; listing_translation := []; listing_image := []; user := [] |}.

(** The record a helper returns, for rows that are known to be prepared
    without an exception. *)
Definition prepared (r : result row) : row :=
  match r with
  | Ok r => r
  | Raise _ => ∅
  end.

(** A row of the legacy [user] table. *)
Definition legacy_user (id : Z) (person_type email : pyval) : row :=
  list_to_map
    [ ("id", PInt id); ("email", email); ("first_name", PStr "Ada");
      ("last_name", PStr "Lovelace"); ("phone", PNone);
      ("enabled", PInt 1); ("phone_prefix", PStr "+33"); ("time_zone", PStr "Europe/Paris");
      ("website", PNone); ("siret", PNone); ("naf", PNone);
      ("phone_verified", PInt 0); ("email_verified", PInt 1);
      ("id_card_verified", PInt 0); ("offers_for_pro_sector", PInt 0);
      ("quote_promise", PInt 0);
      ("createdAt", PObj "2019-05-06 09:00:00"); ("updatedAt", PNone);
      ("username", email); ("username_canonical", email); ("email_canonical", email);
      ("slug", PStr "ada-lovelace"); ("salt", PStr "x"); ("password", PStr "y");
      ("confirmation_token", PNone); ("password_requested_at", PNone);
      ("roles", PStr "a:0:{}"); ("person_type", person_type); ("birthday", PNone);
      ("nationality", PNone); ("country_of_residence", PNone); ("profession", PNone);
      ("mother_tongue", PNone); ("iban", PNone); ("bic", PNone);
      ("bank_owner_name", PNone); ("bank_owner_address", PNone);
      ("annual_income", PNone); ("nb_bookings_offerer", PInt 0);
      ("nb_bookings_asker", PInt 0); ("fee_as_asker", PNone); ("fee_as_offerer", PNone);
      ("average_rating_as_asker", PNone); ("average_rating_as_offerer", PNone);
      ("answer_delay", PNone); ("nb_quotes_offerer", PInt 0);
      ("nb_quotes_asker", PInt 0); ("company_addr_string", PNone) ].

(** A row of the legacy [directory] table. *)
Definition legacy_siae (id : Z) (name : pyval) : row :=
  list_to_map
    [ ("id", PInt id); ("name", name); ("geo_range", PInt 30); ("pol_range", PInt 0);
      ("c4_id", PInt id); ("c1_source", PStr "dgefp"); ("is_active", PInt 1);
      ("nature", PStr "siege"); ("presta_type", PBytes "6");
      ("latitude", PStr "48.85"); ("longitude", PStr "2.35"); ("sector", PNone);
      ("createdAt", PObj "2019-05-06 09:00:00"); ("updatedAt", PNone) ].

(** Legacy categories: a group with one child, and a child whose parent is
    not a row of the table. *)
Definition categories : list listing_category_row :=
  [ {| category_id := 1; category_parent_id := None |};
    {| category_id := 2; category_parent_id := Some 1 |} ].

Definition orphan_categories : list listing_category_row :=
  [ {| category_id := 2; category_parent_id := Some 99 |} ].

(** A group with three children that the legacy translations all call
    "autre". *)
Definition autre_categories : list listing_category_row :=
  [ {| category_id := 5; category_parent_id := None |};
    {| category_id := 6; category_parent_id := Some 5 |};
    {| category_id := 7; category_parent_id := Some 5 |};
    {| category_id := 8; category_parent_id := Some 5 |} ].

Definition autre_translations : list category_translation_row :=
  [ {| translatable_id := 5; locale := "fr"; name := "Divers"; slug := "divers" |};
    {| translatable_id := 6; locale := "fr"; name := "Autre"; slug := "autre" |};
    {| translatable_id := 7; locale := "fr"; name := "Autre"; slug := "autre" |};
    {| translatable_id := 8; locale := "fr"; name := "Autre"; slug := "autre" |} ].

Definition autre_cursor : cursor := {|
  directory := []; network := [];
  listing_category := autre_categories;
  listing_category_translation := autre_translations;
  directory_offer := []; directory_label := []; directory_client_image := [];
  listing := []; listing_translation := []; listing_image := []; user := [] |}.

(** A destination with one user, who owns the enterprise 10, and a legacy
    database with two listings of that user: the second has a translation and
    two images. *)
Definition owner : user_rec :=
  {| user_fields := {[ "c4_id" := PInt 42; "email" := PStr "ada@example.org" ]};
     user_siaes := [10] |}.

Definition owner_db : db := set_User_objects [owner] empty_db.

Definition legacy_listing (id : Z) : row :=
  {[ "id" := PInt id; "user_id" := PInt 42; "status" := PInt 1;
     "createdAt" := PObj "2019-05-06 09:00:00";
     "updatedAt" := PObj "2019-05-07 09:00:00" ]}.

Definition legacy_translation (id : Z) : row :=
  {[ "id" := PInt (id + 100); "translatable_id" := PInt id; "title" := PStr "Atelier";
     "description" := PStr "Photos"; "locale" := PStr "fr" ]}.

Definition legacy_image (id listing_id position : Z) : row :=
  {[ "id" := PInt id; "listing_id" := PInt listing_id;
     "name" := PStr "photo.jpg"; "position" := PInt position ]}.

(** A row of [listing_image] after its [name] was renamed. *)
Definition renamed_image (id listing_id position : Z) : row :=
  {[ "id" := PInt id; "listing_id" := PInt listing_id;
     "image_name" := PStr "photo.jpg"; "position" := PInt position ]}.

Definition thin (elem : row) : row :=
  prepared (restrict elem ["listing_id"; "image_name"; "position"]).

(** The entry of the second listing after the join. *)
Definition joined_listing : siae_listing :=
  {| fields :=
       {[ "listing_id" := PInt 2; "user_id" := PInt 42;
          "created_at" := PObj "2019-05-06 09:00:00+00:00";
          "updated_at" := PObj "2019-05-07 09:00:00+00:00";
          "translatable_id" := PInt 2; "name" := PStr "Atelier";
          "description" := PStr "Photos" ]};
     images :=
       [ thin (renamed_image 1 2 1); thin (renamed_image 2 2 2) ] |}.

Definition listings_cursor : cursor := {|
  directory := []; network := []; listing_category := [];
  listing_category_translation := []; directory_offer := [];
  directory_label := []; directory_client_image := [];
  listing := [legacy_listing 1; legacy_listing 2];
  listing_translation := [legacy_translation 1; legacy_translation 2];
  listing_image := [legacy_image 1 2 1; legacy_image 2 2 2];
  user := [] |}.

(** The same legacy database with the listing of the images first. *)
Definition first_listing_cursor : cursor := {|
  directory := []; network := []; listing_category := [];
  listing_category_translation := []; directory_offer := [];
  directory_label := []; directory_client_image := [];
  listing := [legacy_listing 2; legacy_listing 1];
  listing_translation := [legacy_translation 1; legacy_translation 2];
  listing_image := [legacy_image 1 2 1; legacy_image 2 2 2];
  user := [] |}.

(** Answers of the address service: a feature with its properties but no
    geometry, a document whose ["features"] is null, an empty feature list,
    and a well-formed answer. *)
Definition feature_without_geometry : Geocoding.json :=
  Geocoding.JObj
    [ ("features",
       Geocoding.JArr
         [ Geocoding.JObj
             [ ("properties",
                Geocoding.JObj [ ("score", Geocoding.JNum (9 # 10));
                                 ("name", Geocoding.JStr "10 rue de la Paix") ]) ] ]) ].

Definition null_features : Geocoding.json :=
  Geocoding.JObj [ ("features", Geocoding.JNull) ].

Definition no_feature : Geocoding.json :=
  Geocoding.JObj [ ("features", Geocoding.JArr []) ].

Definition paris : Geocoding.json :=
  Geocoding.JObj
    [ ("features",
       Geocoding.JArr
         [ Geocoding.JObj
             [ ("geometry",
                Geocoding.JObj
                  [ ("type", Geocoding.JStr "Point");
                    ("coordinates",
                     Geocoding.JArr [ Geocoding.JNum (235 # 100);
                                      Geocoding.JNum (4885 # 100) ]) ]);
               ("properties",
                Geocoding.JObj
                  [ ("score", Geocoding.JNum (9 # 10));
                    ("name", Geocoding.JStr "10 rue de la Paix");
                    ("postcode", Geocoding.JStr "75002");
                    ("citycode", Geocoding.JStr "75102");
                    ("city", Geocoding.JStr "Paris") ]) ] ]) ].

(** A service that finds nothing under a post code and Paris without. *)
Definition strict_on_post_code (args : Geocoding.query) : Geocoding.response :=
  match Geocoding.postcode args with
  | Some _ => Geocoding.Body (Some no_feature)
  | None => Geocoding.Body (Some paris)
  end.

Definition wkt_point (longitude latitude : Geocoding.json) : result string :=
  Ok "POINT".

(** A destination user who holds an API key. *)
Definition api_user : user_rec :=
  {| user_fields := {[ "email" := PStr "partner@example.org"; "api_key" := PStr "secret" ]};
     user_siaes := [] |}.

Definition api_db : db := set_User_objects [api_user] empty_db.

(** A row whose dates were renamed: one is set, the other is NULL. *)
Definition dated : row :=
  {[ "id" := PInt 2; "name" := PStr "coorace";
     "created_at" := PObj "2020-01-02 10:00:00"; "updated_at" := PNone ]}.

(** A row of the legacy [directory_client_image] table. *)
Definition legacy_client_image : row :=
  {[ "id" := PInt 12; "directory_id" := PInt 7; "name" := PStr "logo.png";
     "description" := PStr "Mairie de Paris"; "position" := PInt 1 ]}.

(** A group with two children called "autre": the migration of the sectors
    completes, the second child under the suffixed slug. *)
Definition sectors_cursor : cursor := {|
  directory := []; network := [];
  listing_category :=
    [ {| category_id := 5; category_parent_id := None |};
      {| category_id := 6; category_parent_id := Some 5 |};
      {| category_id := 7; category_parent_id := Some 5 |} ];
  listing_category_translation := autre_translations;
  directory_offer := []; directory_label := []; directory_client_image := [];
  listing := []; listing_translation := []; listing_image := []; user := [] |}.

(** The value a computation returned, [a] if it raised. *)
Definition returned {A} (a : A) (r : result A) : A :=
  match r with Ok x => x | Raise _ => a end.

(** A legacy database whose one listing was never updated. *)
Definition never_updated_cursor : cursor := {|
  directory := []; network := []; listing_category := [];
  listing_category_translation := []; directory_offer := [];
  directory_label := []; directory_client_image := [];
  listing := [ <["updatedAt" := PNone]> (legacy_listing 1) ];
  listing_translation := []; listing_image := []; user := [] |}.

(** Two departments of the file, the constants that know them, a
    [Perimeter] model that accepts every record, and an empty table. *)
Definition ain : Departements.item :=
  {[ "nom" := Some "Ain"; "code" := Some "01"; "codeRegion" := Some "84" ]}.

Definition paris_department : Departements.item :=
  {[ "nom" := Some "Paris"; "code" := Some "75"; "codeRegion" := Some "11" ]}.

Definition import_departements (dry_run : bool) (verbosity : option nat)
  : Departements.P unit :=
  Departements.handle ["01"; "75"] ["11"; "84"; "97"] "DEPARTMENT" (fun _ _ => None)
    dry_run verbosity (Ok [ain; paris_department]).

Definition empty_store : Departements.store :=
  {| Departements.Perimeter_objects := []; Departements.stdout := [];
     Departements.logger_handlers := 0 |}.


(** Two users, the first with no [person_type] column. *)
Definition without_person_type_cursor : cursor := {|
  directory := []; network := []; listing_category := [];
  listing_category_translation := []; directory_offer := [];
  directory_label := []; directory_client_image := []; listing := [];
  listing_translation := []; listing_image := [];
  user := [ delete "person_type" (legacy_user 3 PNone (PStr "bob@example.org"));
            legacy_user 4 (PInt 4) (PStr "ada@example.org") ] |}.

(** Two users, the first with neither a kind nor roles. *)
Definition without_roles_cursor : cursor := {|
  directory := []; network := []; listing_category := [];
  listing_category_translation := []; directory_offer := [];
  directory_label := []; directory_client_image := []; listing := [];
  listing_translation := []; listing_image := [];
  user := [ <["roles" := PNone]> (legacy_user 3 PNone (PStr "bob@example.org"));
            legacy_user 4 (PInt 4) (PStr "ada@example.org") ] |}.

(** Two enterprises, the first without a name, and two users, the first
    without an email. *)
Definition siaes_cursor : cursor := {|
  directory := [legacy_siae 1 PNone; legacy_siae 2 (PStr "atelier")];
  network := []; listing_category := [];
  listing_category_translation := []; directory_offer := [];
  directory_label := []; directory_client_image := []; listing := [];
  listing_translation := []; listing_image := []; user := [] |}.

Definition users_cursor : cursor := {|
  directory := []; network := []; listing_category := [];
  listing_category_translation := []; directory_offer := [];
  directory_label := []; directory_client_image := []; listing := [];
  listing_translation := []; listing_image := [];
  user := [legacy_user 3 (PInt 4) PNone; legacy_user 4 (PInt 4) (PStr "ada@example.org")] |}.

End Sample.

(** * Properties *)

(** ** Enumeration mappers *)

Section MapperFacts.
Context `{Django}.

Lemma map_geo_range_unknown (v : pyval) :
  known_code geo_range_mapping v = false -> map_geo_range v = Ok PNone.
Proof.
  unfold known_code, map_geo_range, dict_get, geo_range_mapping, py_in.
  cbn [map fst existsb assoc]. intros Hk.
  repeat (apply orb_false_elim in Hk; destruct Hk as [? Hk]).
  destruct (hashable v); [|reflexivity].
  repeat match goal with Hx : py_eq _ v = false |- _ => rewrite Hx; clear Hx end.
  reflexivity.
Qed.

Lemma map_user_kind_unknown (v : pyval) :
  known_code user_kind_mapping v = false -> map_user_kind v = Ok PNone.
Proof.
  unfold known_code, map_user_kind, dict_get, user_kind_mapping, py_in.
  cbn [map fst existsb assoc]. intros Hk.
  repeat (apply orb_false_elim in Hk; destruct Hk as [? Hk]).
  destruct (truthy v); [|reflexivity].
  destruct (hashable v); [|reflexivity].
  repeat match goal with Hx : py_eq _ v = false |- _ => rewrite Hx; clear Hx end.
  reflexivity.
Qed.

Lemma map_siae_nature_unknown (v : pyval) :
  known_code nature_mapping v = false ->
  map_siae_nature v =
    if truthy v then
      if hashable v then Raise (KeyError v) else Raise (TypeError "unhashable type")
    else Ok PNone.
Proof.
  unfold known_code, map_siae_nature, dict_get, nature_mapping, py_in.
  cbn [map fst existsb assoc]. intros Hk.
  repeat (apply orb_false_elim in Hk; destruct Hk as [? Hk]).
  destruct (truthy v); [|reflexivity].
  destruct (hashable v); [|reflexivity].
  repeat match goal with Hx : py_eq _ v = false |- _ => rewrite Hx; clear Hx end.
  reflexivity.
Qed.

(** [map_user_kind] has a handler around its lookup: it returns. *)
Lemma map_user_kind_total (v : pyval) : exists kind, map_user_kind v = Ok kind.
Proof.
  unfold map_user_kind. destruct (truthy v); [|eauto].
  destruct (dict_get user_kind_mapping v); eauto.
Qed.

(** The codes 1 and 2 are commented out of the table. *)
Lemma map_user_kind_unmapped (v : pyval) :
  v = PNone \/ v = PInt 1 \/ v = PInt 2 \/ known_code user_kind_mapping v = false ->
  map_user_kind v = Ok PNone.
Proof.
  intros [-> | [-> | [-> | Hk]]]; try reflexivity.
  now apply map_user_kind_unknown.
Qed.

(** After [integer_to_boolean] a value is [True], [False] or [None], and
    none of them is a key of the table that maps to a kind. *)
Lemma map_user_kind_boolean_of (v : pyval) : map_user_kind (boolean_of v) = Ok PNone.
Proof.
  unfold boolean_of.
  destruct (py_in v [PInt 1; PStr "1"]); [reflexivity|].
  destruct (py_in v [PInt 0; PStr "0"]); [reflexivity|].
  destruct (py_in v [PNone]); reflexivity.
Qed.

End MapperFacts.

(** C5, as the specification states it, fails: [map_siae_nature] looks the
    value up with no handler, and the unknown nature ["foo"] raises
    [KeyError]. *)
Lemma map_siae_nature_raises_on_unknown :
  ~ (forall (H : Django) (v : pyval),
       known_code nature_mapping v = false -> map_siae_nature v = Ok PNone).
Proof.
  intros Hspec. specialize (Hspec Sample.django (PStr "foo") eq_refl).
  discriminate Hspec.
Qed.

(** C5 (amended): for every input value outside the known legacy code set,
    [map_geo_range] and [map_user_kind] return [None] and do not raise;
    [map_siae_nature] returns [None] when the value is falsy and raises
    [KeyError] otherwise ([TypeError] for an unhashable value). *)
Theorem mappers_on_unknown_codes `{Django} (v : pyval) :
  (known_code geo_range_mapping v = false -> map_geo_range v = Ok PNone)
  /\ (known_code user_kind_mapping v = false -> map_user_kind v = Ok PNone)
  /\ (known_code nature_mapping v = false -> truthy v = false ->
      map_siae_nature v = Ok PNone)
  /\ (known_code nature_mapping v = false -> truthy v = true ->
      map_siae_nature v =
        if hashable v then Raise (KeyError v) else Raise (TypeError "unhashable type")).
Proof.
  repeat split.
  - apply map_geo_range_unknown.
  - apply map_user_kind_unknown.
  - intros Hk Ht. rewrite (map_siae_nature_unknown v Hk), Ht. reflexivity.
  - intros Hk Ht. rewrite (map_siae_nature_unknown v Hk), Ht. reflexivity.
Qed.

Section SampleMappers.
#[local] Existing Instance Sample.django.

Lemma mappers_on_unknown_codes_witness :
map_geo_range (PInt 7) = Ok PNone
/\ map_user_kind (PInt 7) = Ok PNone
/\ map_siae_nature (PStr "") = Ok PNone
/\ map_siae_nature (PStr "foo") = Raise (KeyError (PStr "foo")).
Proof.
destruct (mappers_on_unknown_codes (PInt 7)) as (Hgeo & Hkind & _ & _).
destruct (mappers_on_unknown_codes (PStr "")) as (_ & _ & Hfalsy & _).
destruct (mappers_on_unknown_codes (PStr "foo")) as (_ & _ & _ & Htruthy).
split; [apply Hgeo; reflexivity|].
split; [apply Hkind; reflexivity|].
split; [apply Hfalsy; reflexivity|].
apply Htruthy; reflexivity.
Defined.

End SampleMappers.

(** ** Boolean coercion *)

Section BooleanFacts.
Context `{Django}.

(** Over keys without repetition, each key present in the row is rewritten
    once, and the other keys are left as they are. *)
Lemma integer_to_boolean_keys_lookup (keys : list string) :
  NoDup keys ->
  forall (elem : row) (key : string),
    integer_to_boolean_keys elem keys !! key =
      if decide (key ∈ keys) then boolean_of <$> elem !! key else elem !! key.
Proof.
  unfold integer_to_boolean_keys.
  induction 1 as [|k keys Hnotin Hnodup IH]; intros elem key; simpl.
  - reflexivity.
  - rewrite IH. destruct (decide (key = k)) as [->|Hne].
    + destruct (decide (k ∈ keys)) as [Hin|_]; [contradiction|].
      destruct (decide (k ∈ k :: keys)) as [_|Hout];
        [|exfalso; apply Hout; apply list_elem_of_here].
      destruct (elem !! k) as [v|] eqn:Hv.
      * now rewrite lookup_insert_eq.
      * now rewrite Hv.
    + assert (Hsame : (match elem !! k with
                       | Some v => <[k := boolean_of v]> elem
                       | None => elem
                       end) !! key = elem !! key).
      { destruct (elem !! k); [|reflexivity]. now rewrite lookup_insert_ne. }
      rewrite Hsame.
      destruct (decide (key ∈ keys)) as [Hin|Hout],
               (decide (key ∈ k :: keys)) as [Hin'|Hout']; try reflexivity; exfalso.
      * apply Hout'. now apply list_elem_of_further.
      * apply elem_of_cons in Hin' as [Heq|Hin']; [now apply Hne | now apply Hout].
Qed.

Lemma integer_to_boolean_lookup (elem : row) (key : string) :
  integer_to_boolean elem !! key =
    if decide (key ∈ DIRECTORY_BOOLEAN_FIELDS ++ USER_BOOLEAN_FIELDS)
    then boolean_of <$> elem !! key else elem !! key.
Proof.
  unfold integer_to_boolean.
  rewrite integer_to_boolean_keys_lookup by (unfold boolean_keys; apply NoDup_elements).
  assert (Hkeys : key ∈ boolean_keys <->
                  key ∈ DIRECTORY_BOOLEAN_FIELDS ++ USER_BOOLEAN_FIELDS).
  { unfold boolean_keys. rewrite elem_of_elements. apply elem_of_list_to_set. }
  destruct (decide (key ∈ boolean_keys)) as [Hin|Hout],
           (decide (key ∈ DIRECTORY_BOOLEAN_FIELDS ++ USER_BOOLEAN_FIELDS)) as [Hin'|Hout'];
    try reflexivity; exfalso; tauto.
Qed.

(** C9: for every key of the row that is a boolean field name,
    [integer_to_boolean] replaces a value equal to 1 or "1" by [True], a
    value equal to 0 or "0" by [False], leaves [None], and replaces any other
    value by [False]. Equality is Python's [==]: the booleans [True] and
    [False] are equal to 1 and 0. *)
Theorem integer_to_boolean_values (elem : row) (key : string) (v : pyval) :
  key ∈ DIRECTORY_BOOLEAN_FIELDS ++ USER_BOOLEAN_FIELDS ->
  elem !! key = Some v ->
  (py_eq (PInt 1) v = true \/ py_eq (PStr "1") v = true ->
   integer_to_boolean elem !! key = Some (PBool true))
  /\ (py_eq (PInt 0) v = true \/ py_eq (PStr "0") v = true ->
      integer_to_boolean elem !! key = Some (PBool false))
  /\ (v = PNone -> integer_to_boolean elem !! key = Some PNone)
  /\ (py_eq (PInt 1) v = false -> py_eq (PStr "1") v = false ->
      py_eq (PInt 0) v = false -> py_eq (PStr "0") v = false -> v <> PNone ->
      integer_to_boolean elem !! key = Some (PBool false)).
Proof.
  intros Hkey Hv. rewrite integer_to_boolean_lookup, Hv.
  destruct (decide _) as [_|Hout]; [|contradiction].
  cbn [fmap option_fmap option_map]. unfold boolean_of, py_in. cbn [existsb].
  repeat split.
  - intros [H1 | H1]; rewrite H1; [reflexivity | now rewrite orb_true_r].
  - intros H0.
    assert (Hone : py_eq (PInt 1) v || (py_eq (PStr "1") v || false) = false).
    { destruct H0 as [H0 | H0]; destruct v as [| [|] | z | s | s | l | s];
        cbn [py_eq] in H0; try discriminate H0; try reflexivity.
      - apply Z.eqb_eq in H0. subst z. reflexivity.
      - apply String.eqb_eq in H0. subst s. reflexivity. }
    rewrite Hone. destruct H0 as [H0 | H0]; rewrite H0; [reflexivity | now rewrite orb_true_r].
  - intros ->. reflexivity.
  - intros H1 H1' H0 H0' Hnone. rewrite H1, H1', H0, H0'. simpl.
    destruct v; try reflexivity. contradiction.
Qed.

End BooleanFacts.

Section SampleBoolean.
#[local] Existing Instance Sample.django.

Lemma integer_to_boolean_values_witness :
  integer_to_boolean Sample.flags !! "is_active" = Some (PBool true)
  /\ integer_to_boolean Sample.flags !! "is_qpv" = Some (PBool false)
  /\ integer_to_boolean Sample.flags !! "is_staff" = Some PNone
  /\ integer_to_boolean Sample.flags !! "is_delisted" = Some (PBool false).
Proof.
  assert (Hin : forall key, In key ["is_active"; "is_qpv"; "is_delisted"; "is_staff"] ->
                  key ∈ DIRECTORY_BOOLEAN_FIELDS ++ USER_BOOLEAN_FIELDS).
  { intros key Hkey. apply list_elem_of_In. simpl in *. tauto. }
  split; [|split; [|split]].
  - refine (proj1 (integer_to_boolean_values Sample.flags "is_active" (PStr "1") _ _) _).
    + apply Hin. simpl. tauto.
    + reflexivity.
    + right. reflexivity.
  - refine (proj1 (proj2 (integer_to_boolean_values Sample.flags "is_qpv" (PInt 0) _ _)) _).
    + apply Hin. simpl. tauto.
    + reflexivity.
    + left. reflexivity.
  - refine (proj1 (proj2 (proj2
              (integer_to_boolean_values Sample.flags "is_staff" PNone _ _))) _).
    + apply Hin. simpl. tauto.
    + reflexivity.
    + reflexivity.
  - refine (proj2 (proj2 (proj2
              (integer_to_boolean_values Sample.flags "is_delisted" (PBytes "1") _ _)))
              _ _ _ _ _); try reflexivity.
    + apply Hin. simpl. tauto.
    + discriminate.
Defined.

End SampleBoolean.

(** ** The command's monad *)

Lemma bind_lift_ok {A B} (a : A) (k : A -> M B) (d : db) :
  (x ← lift (Ok a); k x) d = k a d.
Proof. reflexivity. Qed.

Lemma bind_lift_raise {A B} (e : exn) (k : A -> M B) (d : db) :
  (x ← lift (Raise e); k x) d = (d, Raise e).
Proof. reflexivity. Qed.

Lemma for_each_cons {A} (x : A) (l : list A) (body : A -> M unit) (d : db) :
  for_each (x :: l) body d =
    match body x d with
    | (d', Ok _) => for_each l body d'
    | (d', Raise e) => (d', Raise e)
    end.
Proof. reflexivity. Qed.

(** A loop whose body always returns, returns. *)
Lemma for_each_returns {A} (l : list A) (body : A -> M unit) :
  (forall x d, x ∈ l -> (body x d).2 = Ok tt) ->
  forall d, (for_each l body d).2 = Ok tt.
Proof.
  induction l as [|x l IH]; intros Hbody d.
  - reflexivity.
  - rewrite for_each_cons.
    pose proof (Hbody x d (list_elem_of_here x l)) as Hx.
    destruct (body x d) as [d' [[]|e]]; simpl in Hx; [|discriminate].
    apply IH. intros y d'' Hy. apply Hbody. now apply list_elem_of_further.
Qed.

(** A loop keeps what each turn of its body keeps, whether it ends or
    raises. *)
Lemma for_each_invariant {A} (I : db -> Prop) (l : list A) (body : A -> M unit) :
  (forall x d, x ∈ l -> I d -> I (body x d).1) ->
  forall d, I d -> I (for_each l body d).1.
Proof.
  induction l as [|x l IH]; intros Hbody d Hd.
  - exact Hd.
  - rewrite for_each_cons.
    pose proof (Hbody x d (list_elem_of_here x l) Hd) as Hx.
    destruct (body x d) as [d' [[]|e]]; simpl in Hx; [|exact Hx].
    apply IH; [|exact Hx]. intros y d'' Hy. apply Hbody. now apply list_elem_of_further.
Qed.

Lemma bind_returns {A B} (m : M A) (k : A -> M B) (d d' : db) (a : A) :
  m d = (d', Ok a) -> (m ≫= k) d = k a d'.
Proof. intros Hm. unfold mbind, M_bind. now rewrite Hm. Qed.

Lemma bind_raises {A B} (m : M A) (k : A -> M B) (d d' : db) (e : exn) :
  m d = (d', Raise e) -> (m ≫= k) d = (d', Raise e).
Proof. intros Hm. unfold mbind, M_bind. now rewrite Hm. Qed.

Lemma bind_keeps {A B} (I : db -> Prop) (m : M A) (k : A -> M B) (d : db) :
  I (m d).1 -> (forall a d', I d' -> I (k a d').1) -> I ((m ≫= k) d).1.
Proof.
  intros Hm Hk. unfold mbind, M_bind.
  destruct (m d) as [d' [a|e]]; [apply Hk|]; exact Hm.
Qed.

Lemma prepared_eq (r : result row) : is_ok r = true -> r = Ok (Sample.prepared r).
Proof. destruct r; [reflexivity | discriminate]. Qed.

(** A loop that returns has run its body to the end on every element, and
    what the body only ever extends still holds what each turn left. *)
Lemma for_each_ok_each {A} (R : db -> db -> Prop) (l : list A) (body : A -> M unit) :
  (forall d, R d d) ->
  (forall d1 d2 d3, R d1 d2 -> R d2 d3 -> R d1 d3) ->
  (forall x d, R d (body x d).1) ->
  forall d d', for_each l body d = (d', Ok tt) ->
    R d d' /\ forall x, x ∈ l -> exists d1 d2, body x d1 = (d2, Ok tt) /\ R d2 d'.
Proof.
  intros Hrefl Htrans Hbody. induction l as [|x l IH]; intros d d' Hrun.
  - cbn in Hrun. injection Hrun as <-. split; [apply Hrefl|].
    intros x Hx. now apply elem_of_nil in Hx.
  - rewrite for_each_cons in Hrun. pose proof (Hbody x d) as Hx.
    destruct (body x d) as [d1 [[]|e]] eqn:Hbx; [|discriminate]. cbn in Hx.
    destruct (IH d1 d' Hrun) as [Hrest Heach]. split; [now apply Htrans with d1|].
    intros y Hy. apply elem_of_cons in Hy as [->|Hy]; [|now apply Heach].
    exists d, d1. split; [exact Hbx | exact Hrest].
Qed.

(** ** Rows through the helpers *)

Lemma bind_Ok {A B} (m : result A) (k : A -> result B) (b : B) :
  (x ← m; k x) = Ok b -> exists a, m = Ok a /\ k a = Ok b.
Proof. destruct m as [a|e]; [eauto | discriminate]. Qed.

Ltac bind_inv H :=
  let a := fresh "elem" in
  let Ha := fresh "Hstep" in
  apply bind_Ok in H as (a & Ha & H).

Lemma rename_dict_key_lookup (elem r : row) (before after key : string) :
  rename_dict_key elem before after = Ok r ->
  key <> before -> key <> after -> r !! key = elem !! key.
Proof.
  unfold rename_dict_key. destruct (elem !! before); [|discriminate].
  intros [= <-] Hb Ha. rewrite lookup_delete_ne by congruence.
  now rewrite lookup_insert_ne by congruence.
Qed.

Lemma rename_all_lookup (renames : list (string * string)) (key : string) :
  Forall (fun ba => key <> ba.1 /\ key <> ba.2) renames ->
  forall elem r : row, rename_all elem renames = Ok r -> r !! key = elem !! key.
Proof.
  induction 1 as [|[before after] renames [Hb Ha] _ IH]; intros elem r Hr.
  - now injection Hr as <-.
  - cbn [rename_all] in Hr. bind_inv Hr.
    rewrite (IH _ _ Hr). eapply rename_dict_key_lookup; eauto.
Qed.

Lemma cleanup_date_field_names_lookup (elem : row) (key : string) :
  key <> "createdAt" -> key <> "updatedAt" ->
  key <> "created_at" -> key <> "updated_at" ->
  cleanup_date_field_names elem !! key = elem !! key.
Proof.
  intros H1 H2 H3 H4. unfold cleanup_date_field_names.
  set (elem1 := match elem !! "createdAt" with Some _ => _ | None => _ end).
  assert (Helem1 : elem1 !! key = elem !! key).
  { subst elem1. destruct (elem !! "createdAt") as [v|]; [|reflexivity].
    rewrite lookup_delete_ne by congruence.
    destruct (truthy v); [|reflexivity]. now rewrite lookup_insert_ne by congruence. }
  destruct (elem1 !! "updatedAt") as [v|]; [|exact Helem1].
  rewrite lookup_delete_ne by congruence.
  destruct (truthy v); [|exact Helem1]. now rewrite lookup_insert_ne by congruence.
Qed.

Lemma pop_all_lookup (keys : list string) (key : string) :
  key ∉ keys -> forall elem r : row, pop_all elem keys = Ok r -> r !! key = elem !! key.
Proof.
  induction keys as [|k keys IH]; intros Hkey elem r Hr.
  - now injection Hr as <-.
  - cbn [pop_all] in Hr. unfold pop in Hr.
    destruct (elem !! k); [|discriminate].
    apply not_elem_of_cons in Hkey as [Hne Hkey].
    rewrite (IH Hkey _ _ Hr). now apply lookup_delete_ne.
Qed.

(** A key that was popped was there. *)
Lemma pop_all_present (keys : list string) (key : string) :
  key ∈ keys -> forall elem r : row, pop_all elem keys = Ok r -> is_Some (elem !! key).
Proof.
  induction keys as [|k keys IH]; intros Hkey elem r Hr.
  - now apply elem_of_nil in Hkey.
  - cbn [pop_all] in Hr. unfold pop in Hr.
    destruct (elem !! k) as [v|] eqn:Hk; [|discriminate].
    apply elem_of_cons in Hkey as [->|Hkey]; [eauto|].
    destruct (IH Hkey _ _ Hr) as [w Hw].
    apply lookup_delete_Some in Hw as [_ Hw]. eauto.
Qed.

Section RowFacts.
Context `{Django}.

Lemma make_aware_keys_lookup (keys : list string) (key : string) :
  key ∉ keys ->
  forall elem r : row, make_aware_keys elem keys = Ok r -> r !! key = elem !! key.
Proof.
  induction keys as [|k keys IH]; intros Hkey elem r Hr.
  - now injection Hr as <-.
  - apply not_elem_of_cons in Hkey as [Hne Hkey]. cbn [make_aware_keys] in Hr.
    destruct (elem !! k) as [v|]; [|now apply IH].
    destruct (truthy v); [|now apply IH].
    bind_inv Hr. rewrite (IH Hkey _ _ Hr). now apply lookup_insert_ne.
Qed.

Lemma set_staff_lookup (elem r : row) (key : string) :
  set_staff elem = Ok r -> key <> "is_staff" -> key <> "is_superuser" ->
  r !! key = elem !! key.
Proof.
  unfold set_staff. intros Hr Hs Hu.
  destruct (elem !! "roles") as [roles|]; [|now injection Hr as <-].
  bind_inv Hr. bind_inv Hr. injection Hr as <-.
  destruct elem1.
  - rewrite lookup_insert_ne by congruence.
    destruct elem0; [now rewrite lookup_insert_ne by congruence | reflexivity].
  - destruct elem0; [now rewrite lookup_insert_ne by congruence | reflexivity].
Qed.

Lemma set_kind_inv (elem r : row) :
  set_kind elem = Ok r ->
  match elem !! "person_type" with
  | Some person_type =>
      exists kind, map_user_kind person_type = Ok kind /\ r = <["kind" := kind]> elem
  | None => r = elem
  end.
Proof.
  unfold set_kind. destruct (elem !! "person_type") as [pt|].
  - intros Hr. bind_inv Hr. injection Hr as <-. eauto.
  - now intros [= <-].
Qed.

(** A user record that reaches the test on [kind] has a [kind], the one
    [map_user_kind] gives for the ["person_type"] read after the coercions:
    ["person_type"] was popped, so it was there when [kind] was set. *)
Lemma user_record_inv (elem r : row) :
  user_record elem = Ok r ->
  exists e1 e2 person_type kind,
    rename_all elem user_renames = Ok e1
    /\ make_aware_dates (cleanup_date_field_names e1) = Ok e2
    /\ integer_to_boolean e2 !! "person_type" = Some person_type
    /\ map_user_kind person_type = Ok kind
    /\ r !! "kind" = Some kind.
Proof.
  unfold user_record. intros Hr.
  apply bind_Ok in Hr as (e1 & H1 & Hr). apply bind_Ok in Hr as (e2 & H2 & Hr).
  apply bind_Ok in Hr as (e3 & H3 & Hr). apply bind_Ok in Hr as (e4 & H4 & Hr).
  assert (Hkeys : "person_type" ∈ USER_EXTRA_KEYS /\ "kind" ∉ USER_EXTRA_KEYS).
  { rewrite !list_elem_of_In. simpl. intuition discriminate. }
  destruct Hkeys as [Hin Hout].
  destruct (pop_all_present _ _ Hin _ _ Hr) as [v Hv].
  rewrite (set_staff_lookup _ _ "person_type" H4) in Hv by discriminate.
  rewrite (pop_all_lookup _ _ Hout _ _ Hr).
  rewrite (set_staff_lookup _ _ "kind" H4) by discriminate.
  apply set_kind_inv in H3.
  destruct (integer_to_boolean e2 !! "person_type") as [pt|] eqn:Hpt.
  - destruct H3 as (kind & Hkind & ->).
    exists e1, e2, pt, kind. rewrite lookup_insert_eq. auto.
  - subst e3. rewrite Hpt in Hv. discriminate.
Qed.

Lemma user_record_has_kind (elem r : row) :
  user_record elem = Ok r -> exists kind, getitem r "kind" = Ok kind.
Proof.
  intros Hr. destruct (user_record_inv _ _ Hr) as (_ & _ & _ & kind & _ & _ & _ & _ & Hk).
  exists kind. unfold getitem. now rewrite Hk.
Qed.

(** The ["person_type"] that [map_user_kind] reads is the legacy one, or
    its boolean coercion when the column is listed as a boolean field. *)
Lemma user_record_kind (elem r : row) (person_type : pyval) :
  "person_type" ∉ date_keys ->
  elem !! "person_type" = Some person_type ->
  user_record elem = Ok r ->
  exists kind, r !! "kind" = Some kind
    /\ (map_user_kind person_type = Ok kind \/ kind = PNone).
Proof.
  intros Hdate Hpt Hr.
  destruct (user_record_inv _ _ Hr) as (e1 & e2 & pt & kind & H1 & H2 & H3 & H4 & H5).
  exists kind. split; [exact H5|].
  assert (He2 : e2 !! "person_type" = Some person_type).
  { unfold make_aware_dates in H2.
    rewrite (make_aware_keys_lookup _ _ Hdate _ _ H2).
    rewrite cleanup_date_field_names_lookup by discriminate.
    assert (Hren : Forall (fun ba : string * string =>
                             "person_type" <> ba.1 /\ "person_type" <> ba.2) user_renames).
    { unfold user_renames. repeat constructor; discriminate. }
    now rewrite (rename_all_lookup _ _ Hren _ _ H1). }
  rewrite integer_to_boolean_lookup, He2 in H3.
  destruct (decide _); injection H3 as <-.
  - right. rewrite map_user_kind_boolean_of in H4. now injection H4 as <-.
  - now left.
Qed.

(** A row that is prepared has the ["person_type"] column: it is popped. *)
Lemma user_record_person_type (elem r : row) :
  "person_type" ∉ date_keys ->
  user_record elem = Ok r -> is_Some (elem !! "person_type").
Proof.
  intros Hdate Hr.
  destruct (user_record_inv _ _ Hr) as (e1 & e2 & pt & kind & H1 & H2 & H3 & _ & _).
  assert (He2 : e2 !! "person_type" = elem !! "person_type").
  { unfold make_aware_dates in H2.
    rewrite (make_aware_keys_lookup _ _ Hdate _ _ H2).
    rewrite cleanup_date_field_names_lookup by discriminate.
    assert (Hren : Forall (fun ba : string * string =>
                             "person_type" <> ba.1 /\ "person_type" <> ba.2) user_renames).
    { unfold user_renames. repeat constructor; discriminate. }
    now rewrite (rename_all_lookup _ _ Hren _ _ H1). }
  rewrite integer_to_boolean_lookup, He2 in H3.
  destruct (elem !! "person_type") as [v|]; [eauto|].
  destruct (decide _); discriminate.
Qed.

End RowFacts.

(** ** Users without a kind *)

(** C10, as the specification states it, fails: a row whose [person_type] is
    absent is not always skipped silently. With a first legacy user whose row
    has no [person_type] column, popping the legacy keys raises [KeyError];
    with a first legacy user whose [person_type] and [roles] are both NULL,
    [startswith] raises [AttributeError]. Either way the migrator stops, and
    the second user, who is created when alone, is never migrated. *)
Lemma unprepared_user_row_stops_the_migration :
  let H := Sample.django in
  let ada := Sample.legacy_user 4 (PInt 4) (PStr "ada@example.org") in
  let missing := migrate_user Sample.without_person_type_cursor Sample.empty_db in
  let run := migrate_user Sample.without_roles_cursor Sample.empty_db in
  (fun elem : row => (elem !! "person_type", elem !! "roles"))
    <$> user Sample.without_person_type_cursor
    = [ (None, Some (PStr "a:0:{}")); (Some (PInt 4), Some (PStr "a:0:{}")) ]
  /\ missing.2 = Raise (KeyError (PStr "person_type"))
  /\ User_objects missing.1 = []
  /\ (fun elem : row => (elem !! "person_type", elem !! "roles"))
       <$> user Sample.without_roles_cursor
     = [ (Some PNone, Some PNone); (Some (PInt 4), Some (PStr "a:0:{}")) ]
  /\ run.2 = Raise (AttributeError "startswith")
  /\ User_objects run.1 = []
  /\ (for_each [ada] migrate_user_row Sample.empty_db).2 = Ok tt
  /\ length (User_objects (for_each [ada] migrate_user_row Sample.empty_db).1) = 1%nat.
Proof. vm_compute. repeat split. Qed.

(** C10 (amended): for a legacy row that [migrate_user] can prepare (it has
    the columns of the legacy table and its [roles] is a string),
    [migrate_user] creates a [User] only when [map_user_kind] gives a kind
    other than [None] for the row's [person_type]; such a row whose
    [person_type] is [None], unrecognised, or one of the unmapped codes 1 and
    2 is skipped with nothing created, printed or raised. A row that cannot
    be prepared is not skipped: the exception leaves the loop, and the rows
    after it are not migrated. ([person_type] is not a date field of the
    models.) *)
Theorem migrate_user_row_needs_kind `{Django} (elem : row) (d : db) :
  "person_type" ∉ date_keys ->
  (forall r, user_record elem = Ok r ->
     exists person_type,
       elem !! "person_type" = Some person_type
       /\ (User_objects (migrate_user_row elem d).1 <> User_objects d ->
           exists kind, map_user_kind person_type = Ok kind /\ kind <> PNone)
       /\ (person_type = PNone \/ person_type = PInt 1 \/ person_type = PInt 2
           \/ known_code user_kind_mapping person_type = false ->
           migrate_user_row elem d = (d, Ok tt)))
  /\ (forall e, user_record elem = Raise e ->
        forall rest, for_each (elem :: rest) migrate_user_row d = (d, Raise e)).
Proof.
  intros Hdate. split.
  - intros r Hr. destruct (user_record_person_type _ _ Hdate Hr) as [person_type Hpt].
    exists person_type. split; [exact Hpt|].
    unfold migrate_user_row. rewrite Hr, bind_lift_ok.
    destruct (user_record_kind _ _ _ Hdate Hpt Hr) as (kind & Hk & Hkind).
    unfold getitem. rewrite Hk, bind_lift_ok.
    split.
    + intros Hchanged. destruct (truthy kind) eqn:Ht; [|now contradiction Hchanged].
      destruct Hkind as [Hkind | ->]; [|discriminate Ht].
      exists kind. split; [exact Hkind|]. intros ->. discriminate Ht.
    + intros Hunmapped. apply map_user_kind_unmapped in Hunmapped.
      assert (kind = PNone) as ->.
      { destruct Hkind as [Hkind|]; [|assumption]. congruence. }
      reflexivity.
  - intros e He rest. rewrite for_each_cons. unfold migrate_user_row.
    now rewrite He, bind_lift_raise.
Qed.

Section SampleUsers.
#[local] Existing Instance Sample.django.

Lemma migrate_user_row_needs_kind_witness :
  migrate_user_row (Sample.legacy_user 7 (PInt 1) (PStr "ada@example.org")) Sample.empty_db
  = (Sample.empty_db, Ok tt).
Proof.
  destruct (proj1 (migrate_user_row_needs_kind
              (Sample.legacy_user 7 (PInt 1) (PStr "ada@example.org")) Sample.empty_db
              ltac:(unfold date_keys;
                    rewrite elem_of_elements, elem_of_list_to_set, list_elem_of_In;
                    simpl; intuition discriminate))
              (Sample.prepared
                 (user_record (Sample.legacy_user 7 (PInt 1) (PStr "ada@example.org"))))
              ltac:(apply prepared_eq; vm_compute; reflexivity))
    as (person_type & Hpt & _ & Hskipped).
  apply Hskipped. vm_compute in Hpt. injection Hpt as <-. right. left. reflexivity.
Defined.

End SampleUsers.

(** ** Failures while creating a record *)


Lemma objects_set_objects (m : model) (l : list row) (d : db) :
  objects m (set_objects m l d) = l.
Proof. destruct m; reflexivity. Qed.

(** C3, as the specification states it, fails: [migrate_network] creates
    its records with no handler. With a first legacy network that the
    destination refuses (it has no name) the migrator raises, nothing is
    printed about the failure, and the second network, which the destination
    accepts when it comes alone, is never created. *)
Lemma migrate_network_aborts_on_creation_failure :
  let H := Sample.django in
  let run := migrate_network Sample.networks_cursor Sample.empty_db in
  run.2 = Raise (IntegrityError "null value in column name")
  /\ Network_objects run.1 = []
  /\ stdout run.1 = [[Text dashes]; [Text "Migrating Network..."]]
  /\ is_ok (network_record Sample.nameless_network) = true
  /\ (for_each [Sample.coorace_network] migrate_network_row Sample.empty_db).2 = Ok tt
  /\ length (Network_objects
               (for_each [Sample.coorace_network] migrate_network_row Sample.empty_db).1)
     = 1%nat.
Proof. vm_compute. repeat split. Qed.

(** *** Loops that create with no handler *)

Lemma set_objects_same (m : model) (d : db) : set_objects m (objects m d) d = d.
Proof. destruct m, d; reflexivity. Qed.

Lemma set_objects_twice (m : model) (l l' : list row) (d : db) :
  set_objects m l (set_objects m l' d) = set_objects m l d.
Proof. destruct m; reflexivity. Qed.

(** The loop of a migrator that prepares a record and creates it: as long as
    the destination accepts the records, they are appended to the table. *)
Lemma create_loop_runs `{Django} (m : model) (record : row -> result row)
    (rows records : list row) :
  Forall2 (fun elem r => record elem = Ok r) rows records ->
  forall d, accepts m (objects m d) records ->
    for_each rows (fun elem => elem ← lift (record elem); objects_create m elem) d
    = (set_objects m (objects m d ++ records) d, Ok tt).
Proof.
  induction 1 as [|elem r rows records Hr _ IH]; intros d Haccepts.
  - cbn. now rewrite app_nil_r, set_objects_same.
  - destruct Haccepts as [Hvalid Haccepts]. rewrite for_each_cons. cbn beta.
    rewrite Hr, bind_lift_ok. unfold objects_create. rewrite Hvalid.
    rewrite IH by (now rewrite objects_set_objects).
    now rewrite objects_set_objects, set_objects_twice, <- app_assoc.
Qed.

(** The first record the destination refuses ends the loop with the
    exception: the records before it stay, the rows after it are not read. *)
Lemma create_loop_aborts `{Django} (m : model) (record : row -> result row)
    (created records : list row) (elem : row) (rest : list row) (r : row) (e : exn) :
  Forall2 (fun elem r => record elem = Ok r) created records ->
  record elem = Ok r ->
  forall d, accepts m (objects m d) records ->
    validate m (objects m d ++ records) r = Some e ->
    for_each (created ++ elem :: rest)
      (fun elem => elem ← lift (record elem); objects_create m elem) d
    = (set_objects m (objects m d ++ records) d, Raise e).
Proof.
  intros Hcreated Helem.
  induction Hcreated as [|elem' r' created records Hr _ IH]; intros d Haccepts Hrefused.
  - cbn [app]. rewrite for_each_cons. cbn beta. rewrite Helem, bind_lift_ok.
    unfold objects_create. rewrite app_nil_r in *. now rewrite Hrefused, set_objects_same.
  - destruct Haccepts as [Hvalid Haccepts]. cbn [app]. rewrite for_each_cons. cbn beta.
    rewrite Hr, bind_lift_ok. unfold objects_create. rewrite Hvalid.
    rewrite IH.
    + now rewrite objects_set_objects, set_objects_twice, <- app_assoc.
    + now rewrite objects_set_objects.
    + rewrite objects_set_objects, <- app_assoc. exact Hrefused.
Qed.

(** C3 (amended): in [migrate_siae] and in [migrate_user], a failure while
    creating the destination record of a row is caught and printed, and the
    migrator goes on with the remaining rows; as long as the rows themselves
    can be prepared, no creation failure makes these two loops raise. In
    [migrate_network], [migrate_siae_offer], [migrate_siae_label] and
    [migrate_siae_client_reference_logo] the creation has no handler: when
    the destination refuses the record of a row, the migrator raises that
    exception, the records of the rows before it stay created and the rows
    after it are not migrated. *)
Theorem creation_failure_is_caught `{Django} :
  (forall (elem : row) (rest : list row) (r : row) (e : exn) (d : db),
      siae_record elem = Ok r ->
      Siae_validate (Siae_objects d) r = Some e ->
      for_each (elem :: rest) migrate_siae_row d =
        for_each rest migrate_siae_row (set_stdout (stdout d ++ [[Exn e]]) d))
  /\ (forall (elem : row) (rest : list row) (r : row) (kind : pyval) (e : exn) (d : db),
      user_record elem = Ok r ->
      r !! "kind" = Some kind -> truthy kind = true ->
      User_validate (map user_fields (User_objects d)) r = Some e ->
      for_each (elem :: rest) migrate_user_row d =
        for_each rest migrate_user_row (set_stdout (stdout d ++ [[Text "a"; Exn e]]) d))
  /\ (forall (rows : list row) (d : db),
      Forall (fun elem => is_ok (siae_record elem) = true) rows ->
      (for_each rows migrate_siae_row d).2 = Ok tt)
  /\ (forall (rows : list row) (d : db),
      Forall (fun elem => is_ok (user_record elem) = true) rows ->
      (for_each rows migrate_user_row d).2 = Ok tt)
  /\ (forall (cur : cursor) (d : db) (created : list row) (elem : row) (rest : list row)
             (records : list row) (r : row) (e : exn),
      network cur = created ++ elem :: rest ->
      Forall2 (fun elem r => network_record elem = Ok r) created records ->
      accepts Network [] records ->
      network_record elem = Ok r ->
      Network_validate records r = Some e ->
      (migrate_network cur d).2 = Raise e
      /\ Network_objects (migrate_network cur d).1 = records)
  /\ (forall (cur : cursor) (d : db) (created : list row) (elem : row) (rest : list row)
             (records : list row) (r : row) (e : exn),
      directory_offer cur = created ++ elem :: rest ->
      Forall2 (fun elem r => offer_record elem = Ok r) created records ->
      accepts SiaeOffer [] records ->
      offer_record elem = Ok r ->
      SiaeOffer_validate records r = Some e ->
      (migrate_siae_offer cur d).2 = Raise e
      /\ SiaeOffer_objects (migrate_siae_offer cur d).1 = records)
  /\ (forall (cur : cursor) (d : db) (created : list row) (elem : row) (rest : list row)
             (records : list row) (r : row) (e : exn),
      directory_label cur = created ++ elem :: rest ->
      Forall2 (fun elem r => offer_record elem = Ok r) created records ->
      accepts SiaeLabelOld [] records ->
      offer_record elem = Ok r ->
      SiaeLabelOld_validate records r = Some e ->
      (migrate_siae_label cur d).2 = Raise e
      /\ SiaeLabelOld_objects (migrate_siae_label cur d).1 = records)
  /\ (forall (cur : cursor) (d : db) (created : list row) (elem : row) (rest : list row)
             (records : list row) (r : row) (e : exn),
      directory_client_image cur = created ++ elem :: rest ->
      Forall2 (fun elem r => client_reference_record elem = Ok r) created records ->
      accepts SiaeClientReference [] records ->
      client_reference_record elem = Ok r ->
      SiaeClientReference_validate records r = Some e ->
      (migrate_siae_client_reference_logo cur d).2 = Raise e
      /\ SiaeClientReference_objects (migrate_siae_client_reference_logo cur d).1
         = records).
Proof.
  split; [|split; [|split; [|split; [|split; [|split; [|split]]]]]].
  - intros elem rest r e d Hr He. rewrite for_each_cons.
    unfold migrate_siae_row. rewrite Hr, bind_lift_ok.
    unfold try_except, objects_create. cbn [validate objects]. now rewrite He.
  - intros elem rest r kind e d Hr Hk Ht He. rewrite for_each_cons.
    unfold migrate_user_row. rewrite Hr, bind_lift_ok.
    unfold getitem. rewrite Hk, bind_lift_ok, Ht.
    unfold try_except, User_create. now rewrite He.
  - intros rows d Hrows. apply for_each_returns. intros elem d' Helem.
    rewrite Forall_forall in Hrows. specialize (Hrows _ Helem).
    unfold migrate_siae_row. destruct (siae_record elem) as [r|]; [|discriminate].
    rewrite bind_lift_ok. unfold try_except, objects_create.
    now destruct (validate Siae (objects Siae d') r).
  - intros rows d Hrows. apply for_each_returns. intros elem d' Helem.
    rewrite Forall_forall in Hrows. specialize (Hrows _ Helem).
    unfold migrate_user_row. destruct (user_record elem) as [r|] eqn:Hr; [|discriminate].
    rewrite bind_lift_ok. destruct (user_record_has_kind _ _ Hr) as [kind ->].
    rewrite bind_lift_ok. destruct (truthy kind); [|reflexivity].
    unfold try_except, User_create.
    now destruct (User_validate (map user_fields (User_objects d')) r).
  - intros cur d created elem rest records r e Hrows Hcreated Haccepts Hr He.
    unfold migrate_network, migrate_network_row. rewrite Hrows.
    do 3 (erewrite bind_returns; [|reflexivity]).
    match goal with
    | |- context [(for_each _ _ ≫= _) ?d0] =>
        rewrite (bind_raises _ _ _ _ _
                   (create_loop_aborts Network network_record created records elem rest r e
                      Hcreated Hr d0 Haccepts He))
    end.
    split; reflexivity.
  - intros cur d created elem rest records r e Hrows Hcreated Haccepts Hr He.
    unfold migrate_siae_offer. rewrite Hrows.
    do 3 (erewrite bind_returns; [|reflexivity]).
    match goal with
    | |- context [(for_each _ _ ≫= _) ?d0] =>
        rewrite (bind_raises _ _ _ _ _
                   (create_loop_aborts SiaeOffer offer_record created records elem rest r e
                      Hcreated Hr d0 Haccepts He))
    end.
    split; reflexivity.
  - intros cur d created elem rest records r e Hrows Hcreated Haccepts Hr He.
    unfold migrate_siae_label. rewrite Hrows.
    do 3 (erewrite bind_returns; [|reflexivity]).
    match goal with
    | |- context [(for_each _ _ ≫= _) ?d0] =>
        rewrite (bind_raises _ _ _ _ _
                   (create_loop_aborts SiaeLabelOld offer_record created records elem rest r e
                      Hcreated Hr d0 Haccepts He))
    end.
    split; reflexivity.
  - intros cur d created elem rest records r e Hrows Hcreated Haccepts Hr He.
    unfold migrate_siae_client_reference_logo. rewrite Hrows.
    do 3 (erewrite bind_returns; [|reflexivity]).
    match goal with
    | |- context [(for_each _ _ ≫= _) ?d0] =>
        rewrite (bind_raises _ _ _ _ _
                   (create_loop_aborts SiaeClientReference client_reference_record created records elem rest r e
                      Hcreated Hr d0 Haccepts He))
    end.
    split; reflexivity.
Qed.

Section SampleFailures.
#[local] Existing Instance Sample.django.

Lemma creation_failure_is_caught_witness :
  let nameless := Sample.legacy_siae 1 PNone in
  let valid := Sample.legacy_siae 2 (PStr "atelier") in
  let anonymous := Sample.legacy_user 3 (PInt 4) PNone in
  let ada := Sample.legacy_user 4 (PInt 4) (PStr "ada@example.org") in
  for_each [nameless; valid] migrate_siae_row Sample.empty_db =
    for_each [valid] migrate_siae_row
      (set_stdout [[Exn (IntegrityError "null value in column name")]] Sample.empty_db)
  /\ for_each [anonymous; ada] migrate_user_row Sample.empty_db =
       for_each [ada] migrate_user_row
         (set_stdout [[Text "a"; Exn (IntegrityError "null value in column email")]]
            Sample.empty_db)
  /\ (for_each [nameless; valid] migrate_siae_row Sample.empty_db).2 = Ok tt
  /\ (for_each [anonymous; ada] migrate_user_row Sample.empty_db).2 = Ok tt
  /\ (migrate_network Sample.refused_second_cursor Sample.empty_db).2
     = Raise (IntegrityError "null value in column name")
  /\ Network_objects (migrate_network Sample.refused_second_cursor Sample.empty_db).1
     = [Sample.prepared (network_record Sample.coorace_network)].
Proof.
  intros nameless valid anonymous ada.
  destruct creation_failure_is_caught
    as (Hsiae & Huser & Hsiaes & Husers & Hnetwork & _).
  split; [|split; [|split; [|split]]].
  - refine (Hsiae nameless [valid] (Sample.prepared (siae_record nameless))
              (IntegrityError "null value in column name") Sample.empty_db _ _).
    + apply prepared_eq. vm_compute. reflexivity.
    + vm_compute. reflexivity.
  - refine (Huser anonymous [ada] (Sample.prepared (user_record anonymous)) (PStr "SIAE")
              (IntegrityError "null value in column email") Sample.empty_db _ _ _ _).
    + apply prepared_eq. vm_compute. reflexivity.
    + vm_compute. reflexivity.
    + reflexivity.
    + vm_compute. reflexivity.
  - apply Hsiaes. repeat (constructor; [vm_compute; reflexivity|]). constructor.
  - apply Husers. repeat (constructor; [vm_compute; reflexivity|]). constructor.
  - refine (Hnetwork Sample.refused_second_cursor Sample.empty_db
              [Sample.coorace_network] Sample.nameless_network [Sample.coorace_network]
              [Sample.prepared (network_record Sample.coorace_network)]
              (Sample.prepared (network_record Sample.nameless_network))
              (IntegrityError "null value in column name") eq_refl _ _ _ _).
    + constructor; [|constructor]. apply prepared_eq. vm_compute. reflexivity.
    + split; [vm_compute; reflexivity | exact I].
    + apply prepared_eq. vm_compute. reflexivity.
    + vm_compute. reflexivity.
Defined.

End SampleFailures.

(** ** The sector hierarchy *)

Lemma find_index_None {A} (p : A -> bool) (l : list A) :
  find_index p l = None -> forall x, x ∈ l -> p x = false.
Proof.
  induction l as [|y l IH]; intros Hfind x Hx.
  - now apply elem_of_nil in Hx.
  - cbn [find_index] in Hfind. destruct (p y) eqn:Hy; [discriminate|].
    destruct (find_index p l); [discriminate|].
    apply elem_of_cons in Hx as [->|Hx]; [exact Hy | now apply IH].
Qed.

Lemma find_index_Some {A} (p : A -> bool) (l : list A) (i : nat) :
  find_index p l = Some i -> exists x, l !! i = Some x /\ p x = true.
Proof.
  revert i. induction l as [|y l IH]; intros i Hfind; [discriminate|].
  cbn [find_index] in Hfind. destruct (p y) eqn:Hy.
  - injection Hfind as <-. eauto.
  - destruct (find_index p l) as [j|]; [|discriminate].
    injection Hfind as <-. apply (IH j eq_refl).
Qed.

(** What [alter] leaves in a list, and what it puts there. *)
Lemma elem_of_alter_inv {A} (f : A -> A) (i : nat) (l : list A) (y : A) :
  y ∈ alter f i l -> y ∈ l \/ exists x, l !! i = Some x /\ y = f x.
Proof.
  intros Hy. apply list_elem_of_lookup in Hy as [j Hj].
  destruct (decide (i = j)) as [->|Hne].
  - rewrite list_lookup_alter_eq in Hj. destruct (l !! j) as [x|]; [|discriminate].
    injection Hj as <-. eauto.
  - rewrite list_lookup_alter_ne in Hj by assumption.
    left. now apply list_elem_of_lookup_2 in Hj.
Qed.

Lemma elem_of_alter_keep {A} (f : A -> A) (i : nat) (l : list A) (x : A) :
  x ∈ l -> x ∈ alter f i l \/ (l !! i = Some x /\ f x ∈ alter f i l).
Proof.
  intros Hx. apply list_elem_of_lookup in Hx as [j Hj].
  destruct (decide (i = j)) as [->|Hne].
  - right. split; [exact Hj|]. apply (list_elem_of_lookup_2 _ j).
    now rewrite list_lookup_alter_eq, Hj.
  - left. apply (list_elem_of_lookup_2 _ j). now rewrite list_lookup_alter_ne.
Qed.

Lemma fmap_sg_id_alter (child : Z) (i : nat) (l : list sector_group_dict) :
  sg_id <$> alter (append_child child) i l = sg_id <$> l.
Proof.
  revert i. induction l as [|g l IH]; intros [|i]; try reflexivity.
  cbn. f_equal. apply IH.
Qed.

Lemma hierarchy_of_group_row (seen : list listing_category_row)
    (l : list sector_group_dict) (elem : listing_category_row) :
  no_parent elem = true ->
  hierarchy_of seen l ->
  hierarchy_of (seen ++ [elem])
    (match find_index (fun s => Z.eqb (sg_id s) (category_id elem)) l with
     | None => l ++ [{| sg_id := category_id elem; sg_children := [] |}]
     | Some _ => l
     end).
Proof.
  intros Hgroup (Hnodup & Hattached & Hchildren).
  assert (Hold : forall e parent_id,
             e ∈ seen ++ [elem] -> category_parent_id e = Some parent_id ->
             parent_id <> 0 -> e ∈ seen).
  { intros e parent_id He Hp Hne. apply elem_of_app in He as [He|He]; [exact He|].
    apply list_elem_of_singleton in He as ->. unfold no_parent in Hgroup.
    rewrite Hp in Hgroup. apply Z.eqb_eq in Hgroup. contradiction. }
  destruct (find_index _ l) as [i|] eqn:Hfind.
  - split; [exact Hnodup|]. split.
    + intros e parent_id He Hp Hne. eapply Hattached; eauto.
    + intros g child Hg Hc. destruct (Hchildren g child Hg Hc) as (e & He & Hrest).
      exists e. split; [apply elem_of_app; now left | exact Hrest].
  - split; [|split].
    + rewrite fmap_app. apply NoDup_app. split; [exact Hnodup|]. split.
      * intros x Hx Hx'. apply list_elem_of_singleton in Hx'. subst x.
        apply list_elem_of_fmap in Hx as (g & Hid & Hg).
        pose proof (find_index_None _ _ Hfind g Hg) as Hfalse. cbn in Hfalse, Hid.
        rewrite <- Hid, Z.eqb_refl in Hfalse. discriminate.
      * apply NoDup_singleton.
    + intros e parent_id He Hp Hne.
      destruct (Hattached e parent_id (Hold _ _ He Hp Hne) Hp Hne) as (g & Hg & Hrest).
      exists g. split; [apply elem_of_app; now left | exact Hrest].
    + intros g child Hg Hc. apply elem_of_app in Hg as [Hg|Hg].
      * destruct (Hchildren g child Hg Hc) as (e & He & Hrest).
        exists e. split; [apply elem_of_app; now left | exact Hrest].
      * apply list_elem_of_singleton in Hg. subst g. now apply elem_of_nil in Hc.
Qed.

Lemma hierarchy_of_child_row (seen : list listing_category_row)
    (l : list sector_group_dict) (elem : listing_category_row) (parent_id : Z) :
  category_parent_id elem = Some parent_id -> parent_id <> 0 ->
  hierarchy_of seen l ->
  hierarchy_of (seen ++ [elem])
    (match find_index (fun s => Z.eqb (sg_id s) parent_id) l with
     | None =>
         alter (append_child (category_id elem))
           (length (l ++ [{| sg_id := parent_id; sg_children := [] |}]) - 1)%nat
           (l ++ [{| sg_id := parent_id; sg_children := [] |}])
     | Some sector_group_index => alter (append_child (category_id elem)) sector_group_index l
     end).
Proof.
  intros Hparent Hne (Hnodup & Hattached & Hchildren).
  destruct (find_index _ l) as [i|] eqn:Hfind.
  - apply find_index_Some in Hfind as (g0 & Hg0 & Hid0). apply Z.eqb_eq in Hid0.
    split; [|split].
    + now rewrite fmap_sg_id_alter.
    + intros e p He Hp Hp0. apply elem_of_app in He as [He|He].
      * destruct (Hattached e p He Hp Hp0) as (g & Hg & Hid & Hc).
        destruct (elem_of_alter_keep (append_child (category_id elem)) i l g Hg)
          as [Hkeep|[_ Hkeep]].
        -- exists g. auto.
        -- exists (append_child (category_id elem) g). split; [exact Hkeep|].
           split; [exact Hid|]. cbn. apply elem_of_app. now left.
      * apply list_elem_of_singleton in He. subst e.
        assert (p = parent_id) as -> by congruence.
        exists (append_child (category_id elem) g0). split; [|split].
        -- apply (list_elem_of_lookup_2 _ i). now rewrite list_lookup_alter_eq, Hg0.
        -- exact Hid0.
        -- cbn. apply elem_of_app. right. apply list_elem_of_here.
    + intros g child Hg Hc. apply elem_of_alter_inv in Hg as [Hg|(g1 & Hg1 & ->)].
      * destruct (Hchildren g child Hg Hc) as (e & He & Hrest).
        exists e. split; [apply elem_of_app; now left | exact Hrest].
      * cbn in Hc. apply elem_of_app in Hc as [Hc|Hc].
        -- apply list_elem_of_lookup_2 in Hg1.
           destruct (Hchildren g1 child Hg1 Hc) as (e & He & Hrest).
           exists e. split; [apply elem_of_app; now left | exact Hrest].
        -- apply list_elem_of_singleton in Hc. subst child.
           assert (g1 = g0) as -> by congruence.
           exists elem. split; [apply elem_of_app; right; apply list_elem_of_here|].
           cbn. rewrite Hid0. auto.
  - assert (Halter :
      alter (append_child (category_id elem))
        (length (l ++ [{| sg_id := parent_id; sg_children := [] |}]) - 1)%nat
        (l ++ [{| sg_id := parent_id; sg_children := [] |}])
      = l ++ [{| sg_id := parent_id; sg_children := [category_id elem] |}]).
    { rewrite length_app. cbn [length].
      replace (length l + 1 - 1)%nat with (length l + 0)%nat by lia.
      now rewrite alter_app_r. }
    rewrite Halter. split; [|split].
    + rewrite fmap_app. apply NoDup_app. split; [exact Hnodup|]. split.
      * intros x Hx Hx'. apply list_elem_of_singleton in Hx'. subst x.
        apply list_elem_of_fmap in Hx as (g & Hid & Hg).
        pose proof (find_index_None _ _ Hfind g Hg) as Hfalse. cbn in Hfalse, Hid.
        rewrite <- Hid, Z.eqb_refl in Hfalse. discriminate.
      * apply NoDup_singleton.
    + intros e p He Hp Hp0. apply elem_of_app in He as [He|He].
      * destruct (Hattached e p He Hp Hp0) as (g & Hg & Hrest).
        exists g. split; [apply elem_of_app; now left | exact Hrest].
      * apply list_elem_of_singleton in He. subst e.
        assert (p = parent_id) as -> by congruence.
        exists {| sg_id := parent_id; sg_children := [category_id elem] |}.
        split; [apply elem_of_app; right; apply list_elem_of_here|].
        split; [reflexivity|]. apply list_elem_of_here.
    + intros g child Hg Hc. apply elem_of_app in Hg as [Hg|Hg].
      * destruct (Hchildren g child Hg Hc) as (e & He & Hrest).
        exists e. split; [apply elem_of_app; now left | exact Hrest].
      * apply list_elem_of_singleton in Hg. subst g. cbn in Hc.
        apply list_elem_of_singleton in Hc. subst child.
        exists elem. split; [apply elem_of_app; right; apply list_elem_of_here|].
        cbn. auto.
Qed.

Lemma hierarchy_of_step (seen : list listing_category_row)
    (l : list sector_group_dict) (elem : listing_category_row) :
  hierarchy_of seen l -> hierarchy_of (seen ++ [elem]) (hierarchy_step l elem).
Proof.
  intros Hinv. unfold hierarchy_step.
  destruct (category_parent_id elem) as [parent_id|] eqn:Hparent.
  - destruct (Z.eqb parent_id 0) eqn:Hzero.
    + apply hierarchy_of_group_row; [|exact Hinv]. unfold no_parent. now rewrite Hparent.
    + apply hierarchy_of_child_row; [exact Hparent| |exact Hinv]. now apply Z.eqb_neq.
  - apply hierarchy_of_group_row; [|exact Hinv]. unfold no_parent. now rewrite Hparent.
Qed.

Lemma hierarchy_of_sector_hierarchy (resp : list listing_category_row) :
  hierarchy_of resp (sector_hierarchy resp).
Proof.
  unfold sector_hierarchy. induction resp as [|elem resp IH] using rev_ind.
  - split; [constructor|]. split.
    + intros e p He. now apply elem_of_nil in He.
    + intros g c Hg. now apply elem_of_nil in Hg.
  - rewrite foldl_app. cbn [foldl]. now apply hierarchy_of_step.
Qed.

(** C7, as the specification states it, fails: a child whose [parent_id]
    is the [id] of no row of [listing_category] is attached to a placeholder
    group created for it. *)
Lemma sector_hierarchy_placeholder_group :
  sector_hierarchy Sample.orphan_categories = [{| sg_id := 99; sg_children := [2] |}]
  /\ ~ (forall g child,
          g ∈ sector_hierarchy Sample.orphan_categories -> child ∈ sg_children g ->
          exists parent, parent ∈ Sample.orphan_categories /\ category_id parent = sg_id g).
Proof.
  split; [reflexivity|]. intros Hspec.
  destruct (Hspec {| sg_id := 99; sg_children := [2] |} 2) as (parent & Hin & Hid).
  - apply list_elem_of_here.
  - apply list_elem_of_here.
  - apply list_elem_of_singleton in Hin. subst parent. discriminate Hid.
Qed.

(** C7 (amended): in the hierarchy built by [migrate_sector], every child
    row (a row whose [parent_id] is neither NULL nor 0) is attached to the
    one group entry whose id is the row's [parent_id], and a group entry has
    no other children; the builder does not look the parent up (it creates a
    placeholder entry), so that the group id is the id of a source row of some
    kind exactly when the legacy table has such a row for every child. *)
Theorem sector_hierarchy_child_group (resp : list listing_category_row) :
  NoDup (sg_id <$> sector_hierarchy resp)
  /\ (forall elem parent_id,
        elem ∈ resp -> category_parent_id elem = Some parent_id -> parent_id <> 0 ->
        exists g, g ∈ sector_hierarchy resp /\ sg_id g = parent_id
                  /\ category_id elem ∈ sg_children g)
  /\ (forall g child,
        g ∈ sector_hierarchy resp -> child ∈ sg_children g ->
        exists elem, elem ∈ resp /\ category_id elem = child
                     /\ category_parent_id elem = Some (sg_id g) /\ sg_id g <> 0)
  /\ (forall kind : listing_category_row -> Prop,
        (forall elem parent_id,
            elem ∈ resp -> category_parent_id elem = Some parent_id -> parent_id <> 0 ->
            exists parent, parent ∈ resp /\ category_id parent = parent_id /\ kind parent) ->
        forall g child,
          g ∈ sector_hierarchy resp -> child ∈ sg_children g ->
          exists parent, parent ∈ resp /\ category_id parent = sg_id g /\ kind parent).
Proof.
  destruct (hierarchy_of_sector_hierarchy resp) as (Hnodup & Hattached & Hchildren).
  split; [exact Hnodup|]. split; [exact Hattached|]. split; [exact Hchildren|].
  intros kind Hsource g child Hg Hc.
  destruct (Hchildren g child Hg Hc) as (elem & He & _ & Hp & Hne).
  exact (Hsource elem (sg_id g) He Hp Hne).
Qed.

Lemma sector_hierarchy_child_group_witness :
  exists parent, parent ∈ Sample.categories /\ category_id parent = 1
                 /\ no_parent parent = true.
Proof.
  refine (proj2 (proj2 (proj2 (sector_hierarchy_child_group Sample.categories)))
            (fun parent => no_parent parent = true) _
            {| sg_id := 1; sg_children := [2] |} 2 _ _).
  - intros elem parent_id Helem Hparent Hne.
    exists {| category_id := 1; category_parent_id := None |}.
    split; [apply list_elem_of_here|]. split; [|reflexivity].
    apply elem_of_cons in Helem as [->|Helem]; [discriminate Hparent|].
    apply list_elem_of_singleton in Helem. subst elem. now injection Hparent as <-.
  - apply list_elem_of_here.
  - apply list_elem_of_here.
Defined.

(** ** Sector slugs *)

Section SectorFacts.
Context `{Django}.

Lemma Sector_create_taken (pk : Z) (name slug : string) (group : Z) (d : db) :
  pk ∈ (sector_pk <$> Sector_objects d) \/ slug ∈ (sector_slug <$> Sector_objects d) ->
  Sector_create pk name slug group d =
    (d, Raise (IntegrityError "duplicate key value violates unique constraint")).
Proof.
  intros Htaken. unfold Sector_create.
  assert (Hex : existsb (fun s => Z.eqb (sector_pk s) pk || String.eqb (sector_slug s) slug)
                  (Sector_objects d) = true).
  { apply existsb_exists.
    destruct Htaken as [Hin|Hin]; apply list_elem_of_fmap in Hin as (s & -> & Hs);
      exists s; (split; [now apply list_elem_of_In|]).
    - now rewrite Z.eqb_refl.
    - now rewrite String.eqb_refl, orb_true_r. }
  now rewrite Hex.
Qed.

Lemma Sector_create_free (pk : Z) (name slug : string) (group : Z) (d : db) :
  pk ∉ (sector_pk <$> Sector_objects d) -> slug ∉ (sector_slug <$> Sector_objects d) ->
  Sector_create pk name slug group d =
    (set_Sector_objects
       (Sector_objects d ++ [{| sector_pk := pk; sector_name := name;
                                sector_slug := slug; sector_group := group |}]) d,
     Ok tt).
Proof.
  intros Hpk Hslug. unfold Sector_create.
  destruct (existsb _ (Sector_objects d)) eqn:Hex; [exfalso|reflexivity].
  apply existsb_exists in Hex as (s & Hs & Heq). apply list_elem_of_In in Hs.
  apply orb_true_iff in Heq as [Heq|Heq].
  - apply Z.eqb_eq in Heq. apply Hpk. apply list_elem_of_fmap. eauto.
  - apply String.eqb_eq in Heq. apply Hslug. apply list_elem_of_fmap. eauto.
Qed.

(** An insertion into [Sector] keeps the slugs distinct, whether it
    succeeds or raises. *)
Lemma Sector_create_distinct (pk : Z) (name slug : string) (group : Z) (d : db) :
  NoDup (sector_slug <$> Sector_objects d) ->
  NoDup (sector_slug <$> Sector_objects (Sector_create pk name slug group d).1).
Proof.
  intros Hnodup.
  destruct (decide (pk ∈ (sector_pk <$> Sector_objects d)
                    \/ slug ∈ (sector_slug <$> Sector_objects d))) as [Htaken|Hfree].
  - now rewrite Sector_create_taken.
  - rewrite Sector_create_free by tauto. cbn. rewrite fmap_app.
    apply NoDup_app. split; [exact Hnodup|]. split; [|apply NoDup_singleton].
    intros x Hx Hx'. apply list_elem_of_singleton in Hx'. subst x. tauto.
Qed.

Lemma create_sector_distinct (resp : list category_translation_row)
    (sg : sector_group_dict) (sector_id : Z) (d : db) :
  NoDup (sector_slug <$> Sector_objects d) ->
  NoDup (sector_slug <$> Sector_objects (create_sector resp sg sector_id d).1).
Proof.
  intros Hnodup. unfold create_sector.
  destruct (french resp sector_id) as [t|e]; [|exact Hnodup].
  rewrite bind_lift_ok. unfold try_except_IntegrityError.
  pose proof (Sector_create_distinct sector_id (name t) (slug t) (sg_id sg) d Hnodup) as H1.
  destruct (Sector_create sector_id (name t) (slug t) (sg_id sg) d) as [d' [[]|e]];
    [exact H1|].
  destruct e; try exact H1. now apply Sector_create_distinct.
Qed.

Lemma create_sector_group_distinct (resp : list category_translation_row)
    (sg : sector_group_dict) (d : db) :
  NoDup (sector_slug <$> Sector_objects d) ->
  NoDup (sector_slug <$> Sector_objects (create_sector_group resp sg d).1).
Proof.
  intros Hnodup. unfold create_sector_group.
  destruct (french resp (sg_id sg)) as [t|e]; [|exact Hnodup].
  rewrite bind_lift_ok.
  apply (bind_keeps (fun d => NoDup (sector_slug <$> Sector_objects d))).
  - unfold SectorGroup_create. now destruct (existsb _ _).
  - intros _ d' Hd'.
    apply (for_each_invariant (fun d => NoDup (sector_slug <$> Sector_objects d)));
      [|exact Hd'].
    intros sector_id d'' _. apply create_sector_distinct.
Qed.

Lemma migrate_sector_distinct (cur : cursor) (d : db) :
  NoDup (sector_slug <$> Sector_objects (migrate_sector cur d).1).
Proof.
  unfold migrate_sector.
  do 4 (erewrite bind_returns; [|reflexivity]).
  apply (bind_keeps (fun d => NoDup (sector_slug <$> Sector_objects d))).
  - apply (for_each_invariant (fun d => NoDup (sector_slug <$> Sector_objects d)));
      [|constructor].
    intros sg d' _. apply create_sector_group_distinct.
  - intros _ d' Hd'. exact Hd'.
Qed.

End SectorFacts.

(** C6, as the specification states it, fails: the suffixed slug need not
    be unique. The third child of group 5 that is called "autre" collides on
    "autre" and then on "autre-5", which the second child took: the second
    [create] raises, the migrator stops, and the third child has no sector. *)
Lemma suffixed_slug_collides_again :
  let run := migrate_sector Sample.autre_cursor Sample.empty_db in
  run.2 = Raise (IntegrityError "duplicate key value violates unique constraint")
  /\ sector_pk <$> Sector_objects run.1 = [6; 7]
  /\ sector_slug <$> Sector_objects run.1 = ["autre"; "autre-5"]
  /\ slug_fix "autre" 5 ∈ (sector_slug <$> Sector_objects run.1).
Proof.
  vm_compute. repeat split. apply list_elem_of_further, list_elem_of_here.
Qed.

(** C6 (amended): in [migrate_sector], a child Sector whose slug collides
    with the slug of a Sector created before it is created with the slug
    suffixed with the parent group's id, provided the suffixed slug is itself
    free; and after the migration, however it ends, the Sector slugs are
    pairwise distinct. *)
Theorem sector_slug_suffixed_on_collision :
  (forall (resp : list category_translation_row) (sg : sector_group_dict)
          (sector_id : Z) (elem_data : category_translation_row) (d : db),
      french resp sector_id = Ok elem_data ->
      sector_id ∉ (sector_pk <$> Sector_objects d) ->
      slug elem_data ∈ (sector_slug <$> Sector_objects d) ->
      slug_fix (slug elem_data) (sg_id sg) ∉ (sector_slug <$> Sector_objects d) ->
      create_sector resp sg sector_id d =
        (set_Sector_objects
           (Sector_objects d
              ++ [{| sector_pk := sector_id; sector_name := name elem_data;
                     sector_slug := slug_fix (slug elem_data) (sg_id sg);
                     sector_group := sg_id sg |}]) d,
         Ok tt))
  /\ (forall (cur : cursor) (d : db),
      NoDup (sector_slug <$> Sector_objects (migrate_sector cur d).1)).
Proof.
  split.
  - intros resp sg sector_id elem_data d Hfr Hpk Hslug Hfix.
    unfold create_sector. rewrite Hfr, bind_lift_ok. unfold try_except_IntegrityError.
    rewrite Sector_create_taken by now right.
    now apply Sector_create_free.
  - apply migrate_sector_distinct.
Qed.

Lemma sector_slug_suffixed_on_collision_witness :
  let autre :=
    {| sector_pk := 6; sector_name := "Autre"; sector_slug := "autre"; sector_group := 5 |} in
  let d := set_Sector_objects [autre] Sample.empty_db in
  create_sector Sample.autre_translations {| sg_id := 5; sg_children := [6; 7; 8] |} 7 d =
    (set_Sector_objects
       [autre; {| sector_pk := 7; sector_name := "Autre"; sector_slug := "autre-5";
                  sector_group := 5 |}] d,
     Ok tt).
Proof.
  intros autre d.
  refine (proj1 sector_slug_suffixed_on_collision Sample.autre_translations
            {| sg_id := 5; sg_children := [6; 7; 8] |} 7
            {| translatable_id := 7; locale := "fr"; name := "Autre"; slug := "autre" |}
            d _ _ _ _).
  - reflexivity.
  - cbn. intros Hin. apply list_elem_of_singleton in Hin. discriminate Hin.
  - cbn. apply list_elem_of_here.
  - cbn. intros Hin. apply list_elem_of_singleton in Hin. discriminate Hin.
Defined.

(** ** Image-owner resolution *)

Lemma restrict_lookup (keys : list string) (key : string) :
  forall elem r : row,
    restrict elem keys = Ok r ->
    r !! key = if decide (key ∈ keys) then elem !! key else None.
Proof.
  induction keys as [|k keys IH]; intros elem r Hr.
  - injection Hr as <-. destruct (decide _) as [Hin|_]; [now apply elem_of_nil in Hin|].
    apply lookup_empty.
  - cbn [restrict] in Hr. unfold getitem in Hr.
    destruct (elem !! k) as [v|] eqn:Hk; [|discriminate].
    change (rbind (restrict elem keys) (fun r => Ok (<[k := v]> r)) = Ok r) in Hr.
    destruct (restrict elem keys) as [r'|] eqn:Hr'; [|discriminate].
    injection Hr as <-. specialize (IH _ _ Hr').
    destruct (decide (key = k)) as [->|Hne].
    + rewrite lookup_insert_eq.
      destruct (decide (k ∈ k :: keys)) as [_|Hout]; [now rewrite Hk|].
      exfalso. apply Hout. apply list_elem_of_here.
    + rewrite lookup_insert_ne by congruence. rewrite IH.
      destruct (decide (key ∈ keys)) as [Hin|Hout],
               (decide (key ∈ k :: keys)) as [Hin'|Hout']; try reflexivity; exfalso.
      * apply Hout'. now apply list_elem_of_further.
      * apply elem_of_cons in Hin' as [Heq|Hin']; [now apply Hne | now apply Hout].
Qed.

Lemma restrict_present (keys : list string) (key : string) (elem r : row) :
  restrict elem keys = Ok r -> key ∈ keys -> is_Some (r !! key).
Proof.
  revert r. induction keys as [|k keys IH]; intros r Hr Hkey.
  - now apply elem_of_nil in Hkey.
  - cbn [restrict] in Hr. unfold getitem in Hr.
    destruct (elem !! k) as [v|] eqn:Hk; [|discriminate].
    change (rbind (restrict elem keys) (fun r => Ok (<[k := v]> r)) = Ok r) in Hr.
    destruct (restrict elem keys) as [r'|] eqn:Hr'; [|discriminate].
    injection Hr as <-. destruct (decide (key = k)) as [->|Hne].
    + rewrite lookup_insert_eq. eauto.
    + rewrite lookup_insert_ne by congruence. apply (IH r' eq_refl).
      apply elem_of_cons in Hkey as [Heq|Hkey]; [contradiction | exact Hkey].
Qed.

Lemma thin_image_lookup (siae_image : row) :
  thin_image siae_image ->
  is_Some (siae_image !! "listing_id") /\ is_Some (siae_image !! "position")
  /\ siae_image !! "user_id" = None /\ siae_image !! "translatable_id" = None.
Proof.
  intros [elem Hr].
  assert (Hin : "listing_id" ∈ ["listing_id"; "image_name"; "position"]
                /\ "position" ∈ ["listing_id"; "image_name"; "position"]).
  { rewrite !list_elem_of_In. simpl. tauto. }
  split; [apply (restrict_present _ _ _ _ Hr), Hin|].
  split; [apply (restrict_present _ _ _ _ Hr), Hin|].
  split; rewrite (restrict_lookup _ _ _ _ Hr); destruct (decide _) as [Hbad|_];
    try reflexivity; apply list_elem_of_In in Hbad; simpl in Hbad; intuition discriminate.
Qed.

(** The two renames of [create_siae_image] succeed on a joined image, and
    leave the listing's ["user_id"] and ["translatable_id"] as they are. *)
Lemma siae_image_dict_renamed (si : siae_listing) (siae_image : row) :
  thin_image siae_image ->
  exists d1 d2 : row,
    rename_dict_key (siae_image ∪ fields si) "listing_id" "c4_listing_id" = Ok d1
    /\ rename_dict_key d1 "position" "order" = Ok d2
    /\ d2 !! "user_id" = fields si !! "user_id"
    /\ d2 !! "translatable_id" = fields si !! "translatable_id".
Proof.
  intros Himg. destruct (thin_image_lookup _ Himg) as ([l Hl] & [p Hp] & Hu & Ht).
  assert (Hunion : forall key, siae_image !! key = None ->
                     (siae_image ∪ fields si) !! key = fields si !! key).
  { intros key Hnone. rewrite lookup_union, Hnone. now destruct (fields si !! key). }
  unfold rename_dict_key at 1.
  assert (Hl' : (siae_image ∪ fields si) !! "listing_id" = Some l).
  { now apply lookup_union_Some_l. }
  rewrite Hl'. eexists. unfold rename_dict_key.
  assert (Hp' : delete "listing_id" (<["c4_listing_id" := l]> (siae_image ∪ fields si))
                  !! "position" = Some p).
  { rewrite lookup_delete_ne by discriminate. rewrite lookup_insert_ne by discriminate.
    now apply lookup_union_Some_l. }
  rewrite Hp'. eexists. split; [reflexivity|]. split; [reflexivity|].
  split; repeat first [rewrite lookup_delete_ne by discriminate
                      | rewrite lookup_insert_ne by discriminate]; now apply Hunion.
Qed.

Lemma User_filter_c4_id_set_objects (value : pyval) (m : model) (l : list row) (d : db) :
  User_filter_c4_id value (set_objects m l d) = User_filter_c4_id value d.
Proof. destruct m; reflexivity. Qed.

Lemma add_errors_zero (c : error_count) : add_errors 0 0 0 0 c = c.
Proof. destruct c. unfold add_errors. cbn. f_equal; lia. Qed.

Section ImageFacts.
Context `{Django}.

(** [create_siae_image] on a joined image: the owner decides. *)
Lemma create_siae_image_cases (si : siae_listing) (count : error_count)
    (siae_image : row) (user_id : pyval) (d : db) :
  thin_image siae_image ->
  fields si !! "user_id" = Some user_id ->
  create_siae_image si count siae_image d =
    match User_filter_c4_id user_id d with
    | [] => (d, Ok (incr_user_not_found count))
    | first :: _ =>
        match user_siaes first with
        | [] => (d, Ok (incr_user_no_siae count))
        | [siae] =>
            match siae_image_record si siae_image siae with
            | Ok r =>
                match SiaeImage_validate (SiaeImage_objects d) r with
                | None => (set_SiaeImage_objects (SiaeImage_objects d ++ [r]) d, Ok count)
                | Some e => (d, Raise e)
                end
            | Raise e => (d, Raise e)
            end
        | _ :: _ :: _ => (d, Ok (incr_user_multiple_siae count))
        end
    end.
Proof.
  intros Himg Huser.
  destruct (siae_image_dict_renamed si _ Himg) as (d1 & d2 & H1 & H2 & Hu & _).
  assert (Hrec : forall siae,
             siae_image_record si siae_image siae =
               pop_all (<["siae_id" := PInt siae]> d2) ["translatable_id"; "user_id"]).
  { intros siae. unfold siae_image_record. rewrite H1.
    cbn [mbind result_bind rbind]. now rewrite H2. }
  unfold create_siae_image.
  rewrite H1, bind_lift_ok, H2, bind_lift_ok. unfold getitem.
  rewrite Hu, Huser, bind_lift_ok.
  erewrite bind_returns by reflexivity.
  destruct (User_filter_c4_id user_id d) as [|first rest]; [reflexivity|].
  destruct (user_siaes first) as [|siae [|siae' siaes]]; try reflexivity.
  rewrite Hrec.
  destruct (pop_all (<["siae_id" := PInt siae]> d2) ["translatable_id"; "user_id"])
    as [r|e]; [|reflexivity].
  rewrite bind_lift_ok. unfold objects_create. cbn [validate objects set_objects].
  unfold mbind, M_bind.
  now destruct (SiaeImage_validate (SiaeImage_objects d) r).
Qed.

(** With a merged translation, the record of a joined image is built. *)
Lemma siae_image_record_ok (si : siae_listing) (siae_image : row) (siae : Z) :
  thin_image siae_image ->
  is_Some (fields si !! "user_id") -> is_Some (fields si !! "translatable_id") ->
  exists r, siae_image_record si siae_image siae = Ok r.
Proof.
  intros Himg [u Hu] [t Ht].
  destruct (siae_image_dict_renamed si _ Himg) as (d1 & d2 & H1 & H2 & Hu' & Ht').
  unfold siae_image_record. rewrite H1. cbn [mbind result_bind rbind]. rewrite H2.
  cbn [mbind result_bind rbind pop_all]. unfold pop.
  rewrite lookup_insert_ne by discriminate. rewrite Ht', Ht.
  rewrite lookup_delete_ne by discriminate. rewrite lookup_insert_ne by discriminate.
  rewrite Hu', Hu. eauto.
Qed.

(** A loop whose body leaves the database alone and counts one error. *)
Lemma for_each_count_errors {A} (l : list A) (body : error_count -> A -> M error_count)
    (incr : error_count -> error_count) (d : db) :
  (forall c x, x ∈ l -> body c x d = (d, Ok (incr c))) ->
  forall count,
    for_each_count l count body d = (d, Ok (Nat.iter (length l) incr count)).
Proof.
  induction l as [|x l IH]; intros Hbody count.
  - reflexivity.
  - cbn [for_each_count length].
    erewrite bind_returns by (apply Hbody; apply list_elem_of_here).
    rewrite IH by (intros c y Hy; apply Hbody; now apply list_elem_of_further).
    now rewrite Nat.iter_succ_r.
Qed.

End ImageFacts.

Lemma iter_incr_user_not_found (n : nat) (c : error_count) :
  Nat.iter n incr_user_not_found c = add_errors 0 n 0 0 c.
Proof.
  induction n as [|n IH]; [now rewrite add_errors_zero|].
  rewrite Nat.iter_succ, IH. destruct c. unfold add_errors, incr_user_not_found.
  cbn. f_equal; lia.
Qed.

Lemma iter_incr_user_no_siae (n : nat) (c : error_count) :
  Nat.iter n incr_user_no_siae c = add_errors 0 0 n 0 c.
Proof.
  induction n as [|n IH]; [now rewrite add_errors_zero|].
  rewrite Nat.iter_succ, IH. destruct c. unfold add_errors, incr_user_no_siae.
  cbn. f_equal; lia.
Qed.

Lemma iter_incr_user_multiple_siae (n : nat) (c : error_count) :
  Nat.iter n incr_user_multiple_siae c = add_errors 0 0 0 n c.
Proof.
  induction n as [|n IH]; [now rewrite add_errors_zero|].
  rewrite Nat.iter_succ, IH. destruct c. unfold add_errors, incr_user_multiple_siae.
  cbn. f_equal; lia.
Qed.

Section ImageResolution.
Context `{Django}.

(** The loop over the images of a listing whose owner has one enterprise,
    when the destination accepts the records. *)
Lemma create_images_of_owner (si : siae_listing) (user_id : pyval)
    (first : user_rec) (rest : list user_rec) (siae : Z) :
  fields si !! "user_id" = Some user_id ->
  is_Some (fields si !! "translatable_id") ->
  user_siaes first = [siae] ->
  forall (imgs : list row) (count : error_count) (d : db),
    Forall thin_image imgs ->
    User_filter_c4_id user_id d = first :: rest ->
    exists records,
      Forall2 (fun img r => siae_image_record si img siae = Ok r) imgs records
      /\ (accepts SiaeImage (SiaeImage_objects d) records ->
          for_each_count imgs count (create_siae_image si) d =
            (set_SiaeImage_objects (SiaeImage_objects d ++ records) d, Ok count)).
Proof.
  intros Huser Htr Hsiae.
  induction imgs as [|img imgs IH]; intros count d Himgs Howner.
  - exists []. split; [constructor|]. intros _. cbn. rewrite app_nil_r. now destruct d.
  - apply Forall_cons in Himgs as [Himg Himgs].
    destruct (siae_image_record_ok si img siae Himg) as [r Hr]; [eauto|exact Htr|].
    destruct (IH count (set_SiaeImage_objects (SiaeImage_objects d ++ [r]) d) Himgs)
      as (records & Hrecords & Hloop).
    { exact Howner. }
    exists (r :: records). split; [now constructor|].
    intros [Haccept Hrest]. cbn [validate] in Haccept. cbn [for_each_count].
    erewrite bind_returns.
    2:{ rewrite (create_siae_image_cases si count img user_id d Himg Huser).
        rewrite Howner, Hsiae, Hr, Haccept. reflexivity. }
    rewrite (Hloop Hrest). cbn. now rewrite <- app_assoc.
Qed.

End ImageResolution.

(** C1, as the specification states it, fails: the records are created per
    image, not per listing. The second legacy listing has two images and its
    user owns exactly one enterprise: two [SiaeImage] records are created for
    it. *)
Lemma two_images_for_one_listing :
  let H := Sample.django in
  let run := migrate_siae_image Sample.listings_cursor Sample.owner_db in
  run.2 = Ok tt
  /\ user_siaes <$> User_filter_c4_id (PInt 42) Sample.owner_db = [[10]]
  /\ length (SiaeImage_objects run.1) = 2%nat
  /\ (fun r : row => r !! "c4_listing_id") <$> SiaeImage_objects run.1
     = [Some (PInt 2); Some (PInt 2)].
Proof. vm_compute. repeat split. Qed.

(** C1 (amended): for every joined listing record with a non-empty image
    list, the owner is resolved once per image. If no user has the listing's
    [user_id], or the first such user owns no enterprise, or owns several,
    no [SiaeImage] record is created for the listing and the corresponding
    counter ([user_not_found], [user_no_siae], [user_multiple_siae]) grows by
    the number of images. If that user owns exactly one enterprise and the
    listing carries its translation, every image of the listing has its
    record, and if the destination accepts these records, created one after
    the other, exactly one [SiaeImage] record is created for each image of
    the listing, and no counter moves. *)
Theorem image_owner_resolution `{Django} (si : siae_listing) (count : error_count)
    (user_id : pyval) (d : db) :
  images si <> [] ->
  Forall thin_image (images si) ->
  fields si !! "user_id" = Some user_id ->
  (User_filter_c4_id user_id d = [] ->
   create_listing_images count si d =
     (d, Ok (add_errors 0 (length (images si)) 0 0 count)))
  /\ (forall first rest,
        User_filter_c4_id user_id d = first :: rest ->
        (user_siaes first = [] ->
         create_listing_images count si d =
           (d, Ok (add_errors 0 0 (length (images si)) 0 count)))
        /\ ((1 < length (user_siaes first))%nat ->
            create_listing_images count si d =
              (d, Ok (add_errors 0 0 0 (length (images si)) count)))
        /\ (forall siae,
              user_siaes first = [siae] ->
              is_Some (fields si !! "translatable_id") ->
              exists records,
                Forall2 (fun img r => siae_image_record si img siae = Ok r)
                  (images si) records
                /\ (accepts SiaeImage (SiaeImage_objects d) records ->
                    create_listing_images count si d =
                      (set_SiaeImage_objects (SiaeImage_objects d ++ records) d,
                       Ok count)))).
Proof.
  intros Hnonempty Himgs Huser.
  assert (Hloop : create_listing_images count si d =
                    for_each_count (images si) count (create_siae_image si) d).
  { unfold create_listing_images. destruct (images si); [contradiction|reflexivity]. }
  rewrite Hloop. rewrite Forall_forall in Himgs.
  split; [|intros first rest Howner; split; [|split]].
  - intros Howner. rewrite <- iter_incr_user_not_found.
    apply for_each_count_errors. intros c img Himg.
    rewrite (create_siae_image_cases si c img user_id d (Himgs _ Himg) Huser).
    now rewrite Howner.
  - intros Hsiaes. rewrite <- iter_incr_user_no_siae.
    apply for_each_count_errors. intros c img Himg.
    rewrite (create_siae_image_cases si c img user_id d (Himgs _ Himg) Huser).
    now rewrite Howner, Hsiaes.
  - intros Hsiaes. rewrite <- iter_incr_user_multiple_siae.
    apply for_each_count_errors. intros c img Himg.
    rewrite (create_siae_image_cases si c img user_id d (Himgs _ Himg) Huser).
    rewrite Howner. destruct (user_siaes first) as [|s1 [|s2 siaes]]; cbn in Hsiaes; [lia|lia|].
    reflexivity.
  - intros siae Hsiae Htr.
    apply (create_images_of_owner si user_id first rest siae Huser Htr Hsiae);
      [|exact Howner].
    now apply Forall_forall.
Qed.

Lemma thin_eq (elem : row) :
  is_ok (restrict elem ["listing_id"; "image_name"; "position"]) = true ->
  thin_image (Sample.thin elem).
Proof. intros Hok. exists elem. now apply prepared_eq. Qed.

Section SampleImages.
#[local] Existing Instance Sample.django.

Lemma image_owner_resolution_witness :
  exists records,
    Forall2 (fun img r => siae_image_record Sample.joined_listing img 10 = Ok r)
      (images Sample.joined_listing) records
    /\ create_listing_images no_error Sample.joined_listing Sample.owner_db =
         (set_SiaeImage_objects (SiaeImage_objects Sample.owner_db ++ records)
            Sample.owner_db, Ok no_error).
Proof.
  destruct (proj2 (proj2 (proj2 (image_owner_resolution Sample.joined_listing no_error
              (PInt 42) Sample.owner_db
              ltac:(discriminate)
              ltac:(repeat constructor; apply thin_eq; vm_compute; reflexivity)
              eq_refl) Sample.owner [] eq_refl)) 10 eq_refl
              ltac:(eexists; reflexivity))
    as (records & Hrecords & Hrun).
  exists records. split; [exact Hrecords|]. apply Hrun.
  unfold Sample.joined_listing in Hrecords. cbn [images] in Hrecords.
  apply Forall2_cons_inv_l in Hrecords as (r1 & records1 & H1 & Hrecords & ->).
  apply Forall2_cons_inv_l in Hrecords as (r2 & records2 & H2 & Hrecords & ->).
  apply Forall2_nil_inv_l in Hrecords as ->.
  match type of H1 with
  | ?record = _ =>
      assert (E1 : is_ok record = true) by (vm_compute; reflexivity);
      rewrite (prepared_eq record E1) in H1
  end.
  match type of H2 with
  | ?record = _ =>
      assert (E2 : is_ok record = true) by (vm_compute; reflexivity);
      rewrite (prepared_eq record E2) in H2
  end.
  injection H1 as <-. injection H2 as <-.
  cbn [accepts]. repeat split; vm_compute; reflexivity.
Defined.

End SampleImages.

(** ** The join over the listing tables *)

(** C2: the join misses the listing at index 0. The test on the index found,
    [if siae_listing_index:], fails for [None] and for 0 alike, so that the
    first listing read never receives its translation nor its images. With the
    legacy listing 2 read first, its translation and its two images are
    dropped; read second, it receives them (and listing 1, then first, does
    not get its translation). *)
Lemma join_misses_first_listing :
  let H := Sample.django in
  let summary (cur : cursor) :=
    match join_listings (listing cur) (listing_translation cur) (listing_image cur) with
    | Ok l => (fun si => (fields si !! "listing_id", fields si !! "name",
                          length (images si))) <$> l
    | Raise _ => []
    end in
  summary Sample.first_listing_cursor =
    [ (Some (PInt 2), None, 0%nat); (Some (PInt 1), Some (PStr "Atelier"), 0%nat) ]
  /\ summary Sample.listings_cursor =
    [ (Some (PInt 1), None, 0%nat); (Some (PInt 2), Some (PStr "Atelier"), 2%nat) ].
Proof. vm_compute. split; reflexivity. Qed.

(** ** Geocoding *)

Section GeocodingFacts.
Import Geocoding.
Variable requests_get : query -> response.
Variable requests_has_RequestError : bool.
Variable GEOSGeometry_point : json -> json -> result string.

(** The recursion stops at the second level: a deeper bound changes
    nothing, and the bound is never reached. *)
Lemma call_ban_geocoding_api_depth (depth : nat) (address : string)
    (post_code : option string) (limit : Z) :
  call_ban_geocoding_api_rec requests_get requests_has_RequestError
    (S (S depth)) address post_code limit
  = call_ban_geocoding_api requests_get requests_has_RequestError address post_code limit.
Proof.
  unfold call_ban_geocoding_api.
  cbn [call_ban_geocoding_api_rec].
  destruct (requests_get _) as [e|[document|]]; reflexivity.
Qed.

(** At most two requests are sent, and a second request carries no post
    code. *)
Lemma call_ban_geocoding_api_requests (address : string)
    (post_code : option string) (limit : Z) :
  let sent :=
    omap (fun ev => match ev with Get args => Some args | Info _ => None end)
      (call_ban_geocoding_api requests_get requests_has_RequestError
         address post_code limit).1 in
  sent = [ {| q := address; limit := limit;
              postcode := if given post_code then post_code else None |} ]
  \/ (given post_code = true
      /\ sent = [ {| q := address; limit := limit; postcode := post_code |};
                  {| q := address; limit := 1; postcode := None |} ]).
Proof.
  unfold call_ban_geocoding_api. cbn [call_ban_geocoding_api_rec].
  destruct (requests_get _) as [e|[document|]].
  - destruct requests_has_RequestError; left; reflexivity.
  - destruct (features ← subscript document "features"; index features 0) as [v|e];
      [left; reflexivity|].
    destruct e; try (left; reflexivity).
    destruct (given post_code) eqn:Hgiven; [|left; reflexivity].
    right. split; [reflexivity|]. cbn [given].
    destruct (requests_get _) as [e|[document'|]].
    + destruct requests_has_RequestError; reflexivity.
    + destruct (features ← subscript document' "features"; index features 0) as [v|e];
        [reflexivity|].
      destruct e; reflexivity.
    + reflexivity.
  - left. reflexivity.
Qed.

End GeocodingFacts.

(** C8: errors do reach the caller of [get_geocoding_data].
    - The handler of a network failure names [requests.RequestError]; when the
      [requests] package has no such attribute (its base exception is
      [RequestException]), looking the handler up raises [AttributeError].
    - A document whose ["features"] is null raises [TypeError], which no
      handler of [call_ban_geocoding_api] catches.
    - A feature with properties and no geometry raises [KeyError] in
      [process_geocoding_data], which has no handler at all.
    An empty feature list, on the other hand, is retried once without the post
    code, as specified. *)
Theorem geocoding_errors_reach_the_caller
    (address : string) (post_code : option string) (limit : Z) (e : exn) :
  (Geocoding.get_geocoding_data (fun _ => Geocoding.NetworkFailure e) false
     Sample.wkt_point address post_code limit).2
  = Raise (AttributeError "RequestError")
  /\ (Geocoding.get_geocoding_data (fun _ => Geocoding.Body (Some Sample.null_features))
        true Sample.wkt_point address post_code limit).2
     = Raise (TypeError "object is not subscriptable")
  /\ (Geocoding.get_geocoding_data
        (fun _ => Geocoding.Body (Some Sample.feature_without_geometry))
        true Sample.wkt_point address post_code limit).2
     = Raise (KeyError (PStr "geometry"))
  /\ (Geocoding.get_geocoding_data Sample.strict_on_post_code true Sample.wkt_point
        "10 rue de la Paix" (Some "75992") 1).1
     = [ Geocoding.Get {| Geocoding.q := "10 rue de la Paix"; Geocoding.limit := 1;
                          Geocoding.postcode := Some "75992" |};
         Geocoding.Get {| Geocoding.q := "10 rue de la Paix"; Geocoding.limit := 1;
                          Geocoding.postcode := None |} ].
Proof.
  repeat split.
Qed.

(** ** Full replacement *)


Section Replacement.
Context `{Django}.










End Replacement.

Section ReplacementOfSectors.
Context `{Django}.






End ReplacementOfSectors.

Section ReplacementOfImagesAndUsers.
Context `{Django}.





End ReplacementOfImagesAndUsers.


(** ** The join, one row at a time *)

Section JoinFacts.
Context `{Django}.

(** The index that the lookup of the join returns is the index of the first
    listing with that id. *)
Lemma listing_index_found (l : list siae_listing) (value : pyval) (i : nat) :
  listing_index l value = Ok (Some i) ->
  exists si listing_id,
    l !! i = Some si /\ fields si !! "listing_id" = Some listing_id
    /\ py_eq listing_id value = true.
Proof.
  revert i. induction l as [|si l IH]; intros i Hfound; [discriminate|].
  cbn [listing_index] in Hfound. unfold getitem in Hfound.
  destruct (fields si !! "listing_id") as [x|] eqn:Hx; [|discriminate].
  cbn [mbind result_bind rbind] in Hfound.
  destruct (py_eq x value) eqn:Heq.
  - injection Hfound as <-. exists si, x. auto.
  - destruct (listing_index l value) as [[j|]|e]; try discriminate.
    injection Hfound as <-. destruct (IH j eq_refl) as (si' & x' & Hl & Hrest).
    exists si', x'. auto.
Qed.

(** A row of [listing_image] is appended to the images of the listing found
    at an index other than 0, and dropped when that index is 0 or when no
    listing has its [listing_id]. *)
Lemma enrich_with_image_at_index (l : list siae_listing) (elem renamed elem_thin : row)
    (listing_id : pyval) (siae_listing_index : option nat) :
  rename_dict_key elem "name" "image_name" = Ok renamed ->
  restrict renamed ["listing_id"; "image_name"; "position"] = Ok elem_thin ->
  elem_thin !! "listing_id" = Some listing_id ->
  listing_index l listing_id = Ok siae_listing_index ->
  enrich_with_image l elem =
    Ok (match siae_listing_index with
        | Some (S i) => alter (append_image elem_thin) (S i) l
        | Some O | None => l
        end).
Proof.
  intros Hrename Hthin Hid Hindex. unfold enrich_with_image.
  rewrite Hrename. cbn [mbind result_bind rbind]. rewrite Hthin.
  cbn [mbind result_bind rbind]. unfold getitem. rewrite Hid.
  cbn [mbind result_bind rbind]. rewrite Hindex. reflexivity.
Qed.

Lemma enrich_with_translation_at_index (l : list siae_listing)
    (elem renamed elem_thin : row) (translatable_id : pyval)
    (siae_listing_index : option nat) :
  rename_dict_key elem "title" "name" = Ok renamed ->
  restrict renamed ["translatable_id"; "name"; "description"] = Ok elem_thin ->
  elem_thin !! "translatable_id" = Some translatable_id ->
  listing_index l translatable_id = Ok siae_listing_index ->
  enrich_with_translation l elem =
    Ok (match siae_listing_index with
        | Some (S i) => alter (merge_translation elem_thin) (S i) l
        | Some O | None => l
        end).
Proof.
  intros Hrename Hthin Hid Hindex. unfold enrich_with_translation.
  rewrite Hrename. cbn [mbind result_bind rbind]. rewrite Hthin.
  cbn [mbind result_bind rbind]. unfold getitem. rewrite Hid.
  cbn [mbind result_bind rbind]. rewrite Hindex. reflexivity.
Qed.

End JoinFacts.

(** * Further properties of the helpers *)

(** ** Date keys *)

Lemma cleanup_date_field_names_cases (elem : row) :
  cleanup_date_field_names elem !! "createdAt" = None
  /\ cleanup_date_field_names elem !! "updatedAt" = None
  /\ cleanup_date_field_names elem !! "created_at" =
       match elem !! "createdAt" with
       | Some v => if truthy v then Some v else elem !! "created_at"
       | None => elem !! "created_at"
       end
  /\ cleanup_date_field_names elem !! "updated_at" =
       match elem !! "updatedAt" with
       | Some v => if truthy v then Some v else elem !! "updated_at"
       | None => elem !! "updated_at"
       end
  /\ (forall key, key <> "createdAt" -> key <> "updatedAt" ->
                  key <> "created_at" -> key <> "updated_at" ->
                  cleanup_date_field_names elem !! key = elem !! key).
Proof.
  split; [|split; [|split; [|split]]];
    [| | | |apply cleanup_date_field_names_lookup];
    unfold cleanup_date_field_names;
    set (elem1 := match elem !! "createdAt" with Some _ => _ | None => _ end).
  - assert (H1 : elem1 !! "createdAt" = None).
    { subst elem1. destruct (elem !! "createdAt") as [v|] eqn:Hv; [|exact Hv].
      apply lookup_delete_eq. }
    destruct (elem1 !! "updatedAt") as [w|]; [|exact H1].
    rewrite lookup_delete_ne by discriminate.
    destruct (truthy w); [now rewrite lookup_insert_ne by discriminate | exact H1].
  - destruct (elem1 !! "updatedAt") as [w|] eqn:Hw; [apply lookup_delete_eq | exact Hw].
  - assert (H1 : elem1 !! "created_at" =
                   match elem !! "createdAt" with
                   | Some v => if truthy v then Some v else elem !! "created_at"
                   | None => elem !! "created_at"
                   end).
    { subst elem1. destruct (elem !! "createdAt") as [v|]; [|reflexivity].
      rewrite lookup_delete_ne by discriminate.
      destruct (truthy v); [apply lookup_insert_eq | reflexivity]. }
    destruct (elem1 !! "updatedAt") as [w|]; [|exact H1].
    rewrite lookup_delete_ne by discriminate.
    destruct (truthy w); [now rewrite lookup_insert_ne by discriminate | exact H1].
  - assert (H1 : elem1 !! "updatedAt" = elem !! "updatedAt"
                 /\ elem1 !! "updated_at" = elem !! "updated_at").
    { subst elem1. destruct (elem !! "createdAt") as [v|]; [|auto].
      rewrite !lookup_delete_ne by discriminate.
      destruct (truthy v); [now rewrite !lookup_insert_ne by discriminate | auto]. }
    destruct H1 as [Hu Hu']. rewrite Hu.
    destruct (elem !! "updatedAt") as [w|]; [|exact Hu'].
    rewrite lookup_delete_ne by discriminate.
    destruct (truthy w); [apply lookup_insert_eq | exact Hu'].
Qed.

(** [cleanup_date_field_names] always removes the legacy keys ["createdAt"]
    and ["updatedAt"]; a value that is set moves to ["created_at"] or
    ["updated_at"], a NULL or otherwise falsy one is dropped, so that the
    destination key keeps what it held (for a legacy row: nothing, and the
    field default applies); no other key changes. *)
Theorem cleanup_date_field_names_keys (elem : row) :
  cleanup_date_field_names elem !! "createdAt" = None
  /\ cleanup_date_field_names elem !! "updatedAt" = None
  /\ cleanup_date_field_names elem !! "created_at" =
       match elem !! "createdAt" with
       | Some v => if truthy v then Some v else elem !! "created_at"
       | None => elem !! "created_at"
       end
  /\ cleanup_date_field_names elem !! "updated_at" =
       match elem !! "updatedAt" with
       | Some v => if truthy v then Some v else elem !! "updated_at"
       | None => elem !! "updated_at"
       end
  /\ (forall key, key <> "createdAt" -> key <> "updatedAt" ->
                  key <> "created_at" -> key <> "updated_at" ->
                  cleanup_date_field_names elem !! key = elem !! key).
Proof. exact (cleanup_date_field_names_cases elem). Qed.

Section DateFacts.
Context `{Django}.

Lemma make_aware_keys_values (keys : list string) :
  NoDup keys ->
  forall (elem r : row),
    make_aware_keys elem keys = Ok r ->
    forall key,
      match elem !! key with
      | Some v =>
          if decide (key ∈ keys) then
            if truthy v then exists v', make_aware v = Ok v' /\ r !! key = Some v'
            else r !! key = Some v
          else r !! key = Some v
      | None => r !! key = None
      end.
Proof.
  induction 1 as [|k keys Hnotin Hnodup IH]; intros elem r Hr key.
  - injection Hr as <-. destruct (elem !! key) as [v|] eqn:Hv; [|reflexivity].
    destruct (decide (key ∈ [])) as [Hin|_]; [now apply elem_of_nil in Hin | reflexivity].
  - cbn [make_aware_keys] in Hr.
    assert (Hother : forall elem' : row,
               make_aware_keys elem' keys = Ok r ->
               elem' !! key = elem !! key -> key <> k ->
               match elem !! key with
               | Some v =>
                   if decide (key ∈ k :: keys) then
                     if truthy v then exists v', make_aware v = Ok v' /\ r !! key = Some v'
                     else r !! key = Some v
                   else r !! key = Some v
               | None => r !! key = None
               end).
    { intros elem' Hr' Hsame Hne. specialize (IH elem' r Hr' key). rewrite Hsame in IH.
      destruct (elem !! key) as [v|]; [|exact IH].
      destruct (decide (key ∈ keys)) as [Hin|Hout],
               (decide (key ∈ k :: keys)) as [Hin'|Hout']; try exact IH; exfalso.
      - apply Hout'. now apply list_elem_of_further.
      - apply elem_of_cons in Hin' as [Heq|Hin']; [now apply Hne | now apply Hout]. }
    destruct (decide (key = k)) as [->|Hne].
    + destruct (elem !! k) as [v|] eqn:Hv.
      * destruct (decide (k ∈ k :: keys)) as [_|Hout];
          [|exfalso; apply Hout; apply list_elem_of_here].
        destruct (truthy v).
        -- apply bind_Ok in Hr as (v' & Hv' & Hr). exists v'. split; [exact Hv'|].
           rewrite (make_aware_keys_lookup keys k Hnotin _ _ Hr). apply lookup_insert_eq.
        -- now rewrite (make_aware_keys_lookup keys k Hnotin _ _ Hr).
      * now rewrite (make_aware_keys_lookup keys k Hnotin _ _ Hr).
    + destruct (elem !! k) as [v|] eqn:Hv; [|now apply (Hother elem)].
      destruct (truthy v); [|now apply (Hother elem)].
      apply bind_Ok in Hr as (v' & Hv' & Hr).
      apply (Hother (<[k := v']> elem)); [exact Hr| |exact Hne].
      now rewrite lookup_insert_ne by congruence.
Qed.

Lemma make_aware_dates_cases (elem r : row) (key : string) :
  make_aware_dates elem = Ok r ->
  match elem !! key with
  | Some v =>
      if decide (key ∈ DIRECTORY_DATE_FIELDS ++ NETWORK_DATE_FIELDS
                       ++ SECTOR_DATE_FIELDS ++ USER_DATE_FIELDS) then
        if truthy v then exists v', make_aware v = Ok v' /\ r !! key = Some v'
        else r !! key = Some v
      else r !! key = Some v
  | None => r !! key = None
  end.
Proof.
  intros Hr. unfold make_aware_dates in Hr.
  assert (Hnodup : NoDup date_keys) by (unfold date_keys; apply NoDup_elements).
  pose proof (make_aware_keys_values date_keys Hnodup elem r Hr key) as Hkey.
  assert (Hkeys : key ∈ date_keys <->
                  key ∈ DIRECTORY_DATE_FIELDS ++ NETWORK_DATE_FIELDS
                        ++ SECTOR_DATE_FIELDS ++ USER_DATE_FIELDS).
  { unfold date_keys. rewrite elem_of_elements. apply elem_of_list_to_set. }
  destruct (elem !! key) as [v|]; [|exact Hkey].
  destruct (decide (key ∈ date_keys)) as [Hin|Hout],
           (decide (key ∈ DIRECTORY_DATE_FIELDS ++ NETWORK_DATE_FIELDS
                          ++ SECTOR_DATE_FIELDS ++ USER_DATE_FIELDS)) as [Hin'|Hout'];
    try exact Hkey; exfalso; tauto.
Qed.

(** [make_aware_dates] rewrites the values of the date fields that are set
    (each by [make_aware], once) and nothing else: a NULL date stays NULL, a
    key that is not a date field keeps its value, and no key is added or
    removed. *)
Theorem make_aware_dates_values (elem r : row) (key : string) :
  make_aware_dates elem = Ok r ->
  match elem !! key with
  | Some v =>
      if decide (key ∈ DIRECTORY_DATE_FIELDS ++ NETWORK_DATE_FIELDS
                       ++ SECTOR_DATE_FIELDS ++ USER_DATE_FIELDS) then
        if truthy v then exists v', make_aware v = Ok v' /\ r !! key = Some v'
        else r !! key = Some v
      else r !! key = Some v
  | None => r !! key = None
  end.
Proof. exact (make_aware_dates_cases elem r key). Qed.

End DateFacts.

Section SampleDates.
#[local] Existing Instance Sample.django.

Lemma make_aware_dates_values_witness :
  exists v', make_aware (PObj "2020-01-02 10:00:00") = Ok v'
             /\ Sample.prepared (make_aware_dates Sample.dated) !! "created_at" = Some v'.
Proof.
  refine (make_aware_dates_values Sample.dated (Sample.prepared (make_aware_dates Sample.dated))
            "created_at" _).
  apply prepared_eq. vm_compute. reflexivity.
Defined.

End SampleDates.

(** ** Boolean coercion, beyond the boolean fields *)

Lemma boolean_of_idempotent (v : pyval) : boolean_of (boolean_of v) = boolean_of v.
Proof.
  assert (Hcases : boolean_of v = PBool true \/ boolean_of v = PBool false
                   \/ boolean_of v = PNone).
  { unfold boolean_of.
    destruct (py_in v [PInt 1; PStr "1"]); [auto|].
    destruct (py_in v [PInt 0; PStr "0"]); [auto|].
    destruct (py_in v [PNone]); auto. }
  destruct Hcases as [-> | [-> | ->]]; reflexivity.
Qed.

Section BooleanFrame.
Context `{Django}.

Lemma integer_to_boolean_others (elem : row) (key : string) :
  (key ∉ DIRECTORY_BOOLEAN_FIELDS ++ USER_BOOLEAN_FIELDS ->
   integer_to_boolean elem !! key = elem !! key)
  /\ (is_Some (integer_to_boolean elem !! key) <-> is_Some (elem !! key)).
Proof.
  rewrite integer_to_boolean_lookup.
  destruct (decide (key ∈ DIRECTORY_BOOLEAN_FIELDS ++ USER_BOOLEAN_FIELDS)) as [Hin|Hout].
  - split; [contradiction|]. apply fmap_is_Some.
  - split; [reflexivity|tauto].
Qed.

(** [integer_to_boolean] touches the boolean fields only: every other key
    keeps its value, and no key is added or removed. *)
Theorem integer_to_boolean_frame (elem : row) (key : string) :
  (key ∉ DIRECTORY_BOOLEAN_FIELDS ++ USER_BOOLEAN_FIELDS ->
   integer_to_boolean elem !! key = elem !! key)
  /\ (is_Some (integer_to_boolean elem !! key) <-> is_Some (elem !! key)).
Proof. exact (integer_to_boolean_others elem key). Qed.

(** Coercing twice is coercing once: a row that went through
    [integer_to_boolean] is left as it is by a second pass. *)
Theorem integer_to_boolean_idempotent (elem : row) :
  integer_to_boolean (integer_to_boolean elem) = integer_to_boolean elem.
Proof.
  apply map_eq. intros key. rewrite !integer_to_boolean_lookup.
  destruct (decide (key ∈ DIRECTORY_BOOLEAN_FIELDS ++ USER_BOOLEAN_FIELDS)); [|reflexivity].
  destruct (elem !! key) as [v|]; [|reflexivity].
  cbn. now rewrite boolean_of_idempotent.
Qed.

End BooleanFrame.

Section SampleBooleanFrame.
#[local] Existing Instance Sample.django.

Lemma integer_to_boolean_frame_witness :
  integer_to_boolean Sample.flags !! "name" = Some (PInt 1).
Proof.
  refine (proj1 (integer_to_boolean_frame Sample.flags "name") _).
  rewrite list_elem_of_In. simpl. intuition discriminate.
Defined.

End SampleBooleanFrame.

(** ** Service-provision types *)

Section PrestaFacts.
Context `{Django}.

(** The legacy [presta_type] is a sum of flags written in decimal: 2 for
    [PRESTA_DISP], 4 for [PRESTA_PREST], 8 for [PRESTA_BUILD]. For every even
    code from 0 to 14 the mapper returns the tags of the bits that are set, in
    that order. *)
Theorem map_siae_presta_type_flags (code : Z) :
  0 <= code <= 14 -> Z.even code = true ->
  map_siae_presta_type (PBytes (pretty code)) =
    Ok (PList ((if Z.testbit code 1 then [PRESTA_DISP] else [])
               ++ (if Z.testbit code 2 then [PRESTA_PREST] else [])
               ++ (if Z.testbit code 3 then [PRESTA_BUILD] else []))).
Proof.
  intros Hrange Heven.
  assert (Hcases : code = 0 \/ code = 2 \/ code = 4 \/ code = 6 \/ code = 8
                   \/ code = 10 \/ code = 12 \/ code = 14).
  { assert (Hcode : code = 0 \/ code = 1 \/ code = 2 \/ code = 3 \/ code = 4 \/ code = 5
                    \/ code = 6 \/ code = 7 \/ code = 8 \/ code = 9 \/ code = 10
                    \/ code = 11 \/ code = 12 \/ code = 13 \/ code = 14) by lia.
    repeat (destruct Hcode as [->|Hcode]; [first [discriminate Heven | tauto]|]).
    subst code. tauto. }
  repeat (destruct Hcases as [->|Hcases]; [reflexivity|]).
  subst code. reflexivity.
Qed.

(** The mapper raises in [decode], which sits before its handler: on bytes
    that are not UTF-8 ([UnicodeDecodeError]) and on a legacy value that is
    text rather than [bytes] ([AttributeError]). On bytes that are UTF-8 it
    does not raise, and a code outside its table gives [None], as does the
    empty value. [map_geo_range] and [map_user_kind] return whatever they are
    given, unhashable values included. *)
Theorem presta_type_raises_in_decode (v : pyval) (s : string) :
  (utf8 s = true -> exists r, map_siae_presta_type (PBytes s) = Ok r)
  /\ (utf8 s = true -> assoc presta_type_mapping (PStr s) = None ->
      map_siae_presta_type (PBytes s) = Ok PNone)
  /\ (utf8 s = false ->
      map_siae_presta_type (PBytes s) = Raise (OtherError "UnicodeDecodeError"))
  /\ map_siae_presta_type (PBytes "") = Ok PNone
  /\ (s <> "" -> map_siae_presta_type (PStr s) = Raise (AttributeError "decode"))
  /\ (exists r, map_geo_range v = Ok r)
  /\ (exists r, map_user_kind v = Ok r).
Proof.
  split; [|split; [|split; [|split; [|split; [|split]]]]].
  - intros Hutf8. unfold map_siae_presta_type. destruct (truthy (PBytes s)); [|eauto].
    cbn [decode]. rewrite Hutf8. cbn [mbind result_bind rbind].
    destruct (dict_get presta_type_mapping (PStr s)); eauto.
  - intros Hutf8 Hunknown. unfold map_siae_presta_type.
    destruct (truthy (PBytes s)); [|eauto].
    cbn [decode]. rewrite Hutf8. cbn [mbind result_bind rbind].
    unfold dict_get. cbn [hashable]. now rewrite Hunknown.
  - intros Hutf8. unfold map_siae_presta_type.
    destruct s as [|c s]; [discriminate Hutf8|].
    cbn [truthy String.eqb negb decode]. now rewrite Hutf8.
  - reflexivity.
  - intros Hs. unfold map_siae_presta_type. cbn [truthy].
    destruct (String.eqb s "") eqn:Heq; [|reflexivity].
    apply String.eqb_eq in Heq. contradiction.
  - unfold map_geo_range. destruct (dict_get geo_range_mapping v); eauto.
  - apply map_user_kind_total.
Qed.

End PrestaFacts.

Section SamplePresta.
#[local] Existing Instance Sample.django.

Lemma map_siae_presta_type_flags_witness :
  map_siae_presta_type (PBytes "10") = Ok (PList [PStr "DISP"; PStr "BUILD"]).
Proof.
  refine (map_siae_presta_type_flags 10 _ _); [lia | reflexivity].
Defined.

Lemma presta_type_raises_in_decode_witness :
  map_siae_presta_type (PBytes "16") = Ok PNone
  /\ map_siae_presta_type (PBytes (String (Ascii.ascii_of_N 255) "0"))
     = Raise (OtherError "UnicodeDecodeError")
  /\ map_siae_presta_type (PStr "6") = Raise (AttributeError "decode").
Proof.
  destruct (presta_type_raises_in_decode PNone "16") as (_ & Hunknown & _).
  destruct (presta_type_raises_in_decode PNone (String (Ascii.ascii_of_N 255) "0"))
    as (_ & _ & Hbytes & _).
  destruct (presta_type_raises_in_decode PNone "6") as (_ & _ & _ & _ & Htext & _).
  split; [apply Hunknown; reflexivity|].
  split; [apply Hbytes; reflexivity | apply Htext; discriminate].
Defined.

End SamplePresta.

(** ** The records built from the legacy rows *)

Lemma rename_dict_key_moved (elem r : row) (before after : string) :
  rename_dict_key elem before after = Ok r ->
  before <> after ->
  r !! after = elem !! before /\ r !! before = None /\ is_Some (elem !! before).
Proof.
  unfold rename_dict_key. destruct (elem !! before) as [v|] eqn:Hv; [|discriminate].
  intros [= <-] Hne. split; [|split; [apply lookup_delete_eq | eauto]].
  rewrite lookup_delete_ne by congruence. apply lookup_insert_eq.
Qed.

Lemma map_field_lookup (elem r : row) (field key : string) (f : pyval -> result pyval) :
  map_field elem field f = Ok r -> key <> field -> r !! key = elem !! key.
Proof.
  unfold map_field. destruct (elem !! field) as [v|]; [|now intros [= <-]].
  intros Hr Hne. apply bind_Ok in Hr as (v' & _ & Hr). injection Hr as <-.
  now rewrite lookup_insert_ne by congruence.
Qed.

Lemma map_field_absent (elem r : row) (field key : string) (f : pyval -> result pyval) :
  map_field elem field f = Ok r -> elem !! key = None -> r !! key = None.
Proof.
  intros Hr Hnone. destruct (decide (key = field)) as [->|Hne].
  - unfold map_field in Hr. rewrite Hnone in Hr. now injection Hr as <-.
  - now rewrite (map_field_lookup _ _ _ _ _ Hr Hne).
Qed.

Lemma map_field_mapped (elem r : row) (field : string) (f : pyval -> result pyval)
    (v : pyval) :
  map_field elem field f = Ok r -> elem !! field = Some v ->
  exists v', f v = Ok v' /\ r !! field = Some v'.
Proof.
  unfold map_field. intros Hr Hv. rewrite Hv in Hr.
  apply bind_Ok in Hr as (v' & Hv' & Hr). injection Hr as <-.
  exists v'. split; [exact Hv' | apply lookup_insert_eq].
Qed.

(** A key that was popped is gone. *)
Lemma pop_all_removed (keys : list string) (key : string) :
  key ∈ keys -> forall elem r : row, pop_all elem keys = Ok r -> r !! key = None.
Proof.
  induction keys as [|k keys IH]; intros Hkey elem r Hr.
  - now apply elem_of_nil in Hkey.
  - cbn [pop_all] in Hr. unfold pop in Hr.
    destruct (elem !! k) as [v|]; [|discriminate].
    destruct (decide (key ∈ keys)) as [Hin|Hout]; [now apply (IH Hin _ _ Hr)|].
    apply elem_of_cons in Hkey as [->|Hkey]; [|contradiction].
    rewrite (pop_all_lookup keys k Hout _ _ Hr). apply lookup_delete_eq.
Qed.

Section RecordFacts.
Context `{Django}.

Lemma set_coords_lookup (elem r : row) (key : string) :
  set_coords elem = Ok r -> key <> "coords" -> r !! key = elem !! key.
Proof.
  unfold set_coords. intros Hr Hne.
  destruct (elem !! "latitude") as [latitude|]; [|now injection Hr as <-].
  destruct (elem !! "longitude") as [longitude|]; [|now injection Hr as <-].
  destruct (truthy latitude && truthy longitude); [|now injection Hr as <-].
  apply bind_Ok in Hr as (coords & _ & Hr). injection Hr as <-.
  now rewrite lookup_insert_ne by congruence.
Qed.

Lemma make_aware_dates_lookup (elem r : row) (key : string) :
  make_aware_dates elem = Ok r ->
  key ∉ DIRECTORY_DATE_FIELDS ++ NETWORK_DATE_FIELDS ++ SECTOR_DATE_FIELDS ++ USER_DATE_FIELDS ->
  r !! key = elem !! key.
Proof.
  intros Hr Hkey. pose proof (make_aware_dates_cases elem r key Hr) as Hv.
  destruct (elem !! key) as [v|]; [|exact Hv].
  destruct (decide _) as [Hin|_]; [contradiction | exact Hv].
Qed.

(** The enterprise record: the legacy [geo_range] (a distance) ends under
    [geo_range_custom_distance], and [geo_range] holds the range that
    [map_geo_range] gives for the legacy [pol_range]; the legacy [c4_id] and
    [c1_source] end under [c4_id_old] and [source]; [latitude], [longitude]
    and [sector] are gone. (The keys named are neither date nor boolean fields
    of the models.) *)
Theorem siae_record_fields (elem r : row) :
  siae_record elem = Ok r ->
  plain "geo_range" -> plain "geo_range_custom_distance" ->
  plain "c4_id_old" -> plain "source" ->
  r !! "geo_range_custom_distance" = elem !! "geo_range"
  /\ (exists pol_range geo_range,
        elem !! "pol_range" = Some pol_range
        /\ map_geo_range pol_range = Ok geo_range
        /\ r !! "geo_range" = Some geo_range)
  /\ r !! "c4_id_old" = elem !! "c4_id"
  /\ r !! "source" = elem !! "c1_source"
  /\ r !! "pol_range" = None /\ r !! "c4_id" = None /\ r !! "c1_source" = None
  /\ r !! "latitude" = None /\ r !! "longitude" = None /\ r !! "sector" = None.
Proof.
  unfold siae_record. intros Hr [Hg1 Hg2] [Hd1 Hd2] [Hc1 Hc2] [Hs1 Hs2].
  apply bind_Ok in Hr as (e1 & H1 & Hr). apply bind_Ok in Hr as (e2 & H2 & Hr).
  apply bind_Ok in Hr as (e3 & H3 & Hr). apply bind_Ok in Hr as (e4 & H4 & Hr).
  apply bind_Ok in Hr as (e5 & H5 & Hr). apply bind_Ok in Hr as (e6 & H6 & Hr).
  apply bind_Ok in Hr as (e7 & H7 & Hr). apply bind_Ok in Hr as (e8 & H8 & Hr).
  apply bind_Ok in Hr as (e9 & H9 & Hr).
  assert (Hkept : forall key,
             key ∉ DIRECTORY_EXTRA_KEYS -> key <> "coords" -> key <> "geo_range" ->
             key <> "presta_type" -> key <> "nature" ->
             key ∉ DIRECTORY_BOOLEAN_FIELDS ++ USER_BOOLEAN_FIELDS ->
             key ∉ DIRECTORY_DATE_FIELDS ++ NETWORK_DATE_FIELDS
                   ++ SECTOR_DATE_FIELDS ++ USER_DATE_FIELDS ->
             key <> "createdAt" -> key <> "updatedAt" ->
             key <> "created_at" -> key <> "updated_at" ->
             r !! key = e4 !! key).
  { intros key Hextra Hcoords Hgeo Hpresta Hnature Hbool Hdate Ha Hb Hc Hd.
    rewrite (pop_all_lookup _ _ Hextra _ _ Hr).
    rewrite (set_coords_lookup _ _ _ H9 Hcoords).
    rewrite (map_field_lookup _ _ _ _ _ H8 Hgeo).
    rewrite (map_field_lookup _ _ _ _ _ H7 Hpresta).
    rewrite (map_field_lookup _ _ _ _ _ H6 Hnature).
    rewrite (proj1 (integer_to_boolean_others e5 key) Hbool).
    rewrite (make_aware_dates_lookup _ _ _ H5 Hdate).
    now apply cleanup_date_field_names_lookup. }
  assert (Habsent : forall key,
             key ∉ DIRECTORY_EXTRA_KEYS -> key <> "coords" ->
             key <> "created_at" -> key <> "updated_at" ->
             e4 !! key = None -> r !! key = None).
  { intros key Hextra Hcoords Hc Hd He4.
    rewrite (pop_all_lookup _ _ Hextra _ _ Hr).
    rewrite (set_coords_lookup _ _ _ H9 Hcoords).
    apply (map_field_absent _ _ _ _ _ H8), (map_field_absent _ _ _ _ _ H7),
      (map_field_absent _ _ _ _ _ H6).
    apply eq_None_not_Some. rewrite (proj2 (integer_to_boolean_others e5 key)).
    apply eq_None_not_Some.
    pose proof (make_aware_dates_cases _ _ key H5) as Hv.
    destruct (cleanup_date_field_names e4 !! key) as [v|] eqn:Hclean; [|exact Hv].
    exfalso. destruct (decide (key = "createdAt")) as [->|Ha].
    { rewrite (proj1 (cleanup_date_field_names_cases e4)) in Hclean. discriminate. }
    destruct (decide (key = "updatedAt")) as [->|Hb].
    { rewrite (proj1 (proj2 (cleanup_date_field_names_cases e4))) in Hclean. discriminate. }
    rewrite cleanup_date_field_names_lookup in Hclean by assumption. congruence. }
  assert (Hextra : forall key, In key ["geo_range_custom_distance"; "c4_id_old"; "source";
                                       "pol_range"; "c4_id"; "c1_source"] ->
                               key ∉ DIRECTORY_EXTRA_KEYS).
  { intros key Hkey Hin. apply list_elem_of_In in Hin. simpl in Hkey, Hin.
    intuition congruence. }
  destruct (rename_dict_key_moved _ _ _ _ H1 ltac:(discriminate)) as (Ha1 & Hb1 & _).
  destruct (rename_dict_key_moved _ _ _ _ H2 ltac:(discriminate)) as (Ha2 & Hb2 & [p Hp]).
  destruct (rename_dict_key_moved _ _ _ _ H3 ltac:(discriminate)) as (Ha3 & Hb3 & _).
  destruct (rename_dict_key_moved _ _ _ _ H4 ltac:(discriminate)) as (Ha4 & Hb4 & _).
  assert (Hpol : elem !! "pol_range" = Some p).
  { now rewrite <- (rename_dict_key_lookup _ _ _ _ "pol_range" H1) by discriminate. }
  split; [|split; [|split; [|split; [|split; [|split; [|split]]]]]].
  - rewrite Hkept; try discriminate; try assumption; [|apply Hextra; simpl; tauto].
    rewrite (rename_dict_key_lookup _ _ _ _ _ H4) by discriminate.
    rewrite (rename_dict_key_lookup _ _ _ _ _ H3) by discriminate.
    rewrite (rename_dict_key_lookup _ _ _ _ _ H2) by discriminate.
    exact Ha1.
  - assert (He7 : e7 !! "geo_range" = Some p).
    { rewrite (map_field_lookup _ _ _ _ _ H7) by discriminate.
      rewrite (map_field_lookup _ _ _ _ _ H6) by discriminate.
      rewrite (proj1 (integer_to_boolean_others e5 "geo_range") Hg2).
      rewrite (make_aware_dates_lookup _ _ _ H5 Hg1).
      rewrite cleanup_date_field_names_lookup by discriminate.
      rewrite (rename_dict_key_lookup _ _ _ _ _ H4) by discriminate.
      rewrite (rename_dict_key_lookup _ _ _ _ _ H3) by discriminate.
      now rewrite Ha2. }
    destruct (map_field_mapped _ _ _ _ _ H8 He7) as (m & Hm & Hgeo).
    exists p, m. split; [exact Hpol|]. split; [exact Hm|].
    assert (Hout : "geo_range" ∉ DIRECTORY_EXTRA_KEYS).
    { rewrite list_elem_of_In. simpl. intuition discriminate. }
    rewrite (pop_all_lookup _ _ Hout _ _ Hr).
    now rewrite (set_coords_lookup _ _ _ H9) by discriminate.
  - rewrite Hkept; try discriminate; try assumption; [|apply Hextra; simpl; tauto].
    rewrite (rename_dict_key_lookup _ _ _ _ _ H4) by discriminate.
    rewrite Ha3. rewrite (rename_dict_key_lookup _ _ _ _ _ H2) by discriminate.
    now rewrite (rename_dict_key_lookup _ _ _ _ _ H1) by discriminate.
  - rewrite Hkept; try discriminate; try assumption; [|apply Hextra; simpl; tauto].
    rewrite Ha4. rewrite (rename_dict_key_lookup _ _ _ _ _ H3) by discriminate.
    rewrite (rename_dict_key_lookup _ _ _ _ _ H2) by discriminate.
    now rewrite (rename_dict_key_lookup _ _ _ _ _ H1) by discriminate.
  - apply Habsent; try discriminate; [apply Hextra; simpl; tauto|].
    rewrite (rename_dict_key_lookup _ _ _ _ _ H4) by discriminate.
    now rewrite (rename_dict_key_lookup _ _ _ _ _ H3) by discriminate.
  - apply Habsent; try discriminate; [apply Hextra; simpl; tauto|].
    now rewrite (rename_dict_key_lookup _ _ _ _ _ H4) by discriminate.
  - apply Habsent; try discriminate; [apply Hextra; simpl; tauto | exact Hb4].
  - split; [|split]; apply (pop_all_removed DIRECTORY_EXTRA_KEYS) with (elem := e9);
      try exact Hr; rewrite list_elem_of_In; simpl; tauto.
Qed.

(** The client reference: the legacy [name] is the file of the logo and
    ends under [image_name], the legacy [description] becomes the [name],
    [position] the [order] and [directory_id] the [siae_id]; the legacy [id]
    is dropped. (None of the four legacy keys is a date field.) *)
Theorem client_reference_record_fields (elem r : row) :
  client_reference_record elem = Ok r ->
  Forall (fun key => key ∉ (DIRECTORY_DATE_FIELDS ++ NETWORK_DATE_FIELDS
                            ++ SECTOR_DATE_FIELDS ++ USER_DATE_FIELDS))
    ["name"; "description"; "position"; "directory_id"] ->
  r !! "image_name" = elem !! "name"
  /\ r !! "name" = elem !! "description"
  /\ r !! "order" = elem !! "position"
  /\ r !! "siae_id" = elem !! "directory_id"
  /\ r !! "id" = None /\ r !! "description" = None
  /\ r !! "position" = None /\ r !! "directory_id" = None.
Proof.
  unfold client_reference_record. intros Hr Hdates.
  apply bind_Ok in Hr as (e1 & H1 & Hr). apply bind_Ok in Hr as (e2 & H2 & Hr).
  apply bind_Ok in Hr as (e3 & H3 & Hr). apply bind_Ok in Hr as (e4 & H4 & Hr).
  apply bind_Ok in Hr as (e5 & H5 & Hr).
  rewrite Forall_forall in Hdates.
  assert (Hsource : forall key, In key ["name"; "description"; "position"; "directory_id"] ->
                                e1 !! key = elem !! key).
  { intros key Hkey.
    rewrite (make_aware_dates_lookup _ _ _ H1) by (apply Hdates; now apply list_elem_of_In).
    apply cleanup_date_field_names_lookup; simpl in Hkey; intuition congruence. }
  assert (Hid : forall key, key <> "id" -> r !! key = e5 !! key).
  { intros key Hne. refine (pop_all_lookup ["id"] key _ _ _ Hr).
    rewrite list_elem_of_In. simpl. intuition congruence. }
  destruct (rename_dict_key_moved _ _ _ _ H2 ltac:(discriminate)) as (Ha2 & Hb2 & _).
  destruct (rename_dict_key_moved _ _ _ _ H3 ltac:(discriminate)) as (Ha3 & Hb3 & _).
  destruct (rename_dict_key_moved _ _ _ _ H4 ltac:(discriminate)) as (Ha4 & Hb4 & _).
  destruct (rename_dict_key_moved _ _ _ _ H5 ltac:(discriminate)) as (Ha5 & Hb5 & _).
  repeat split.
  - rewrite Hid by discriminate.
    rewrite (rename_dict_key_lookup _ _ _ _ _ H5) by discriminate.
    rewrite (rename_dict_key_lookup _ _ _ _ _ H4) by discriminate.
    rewrite (rename_dict_key_lookup _ _ _ _ _ H3) by discriminate.
    rewrite Ha2. apply Hsource. simpl. tauto.
  - rewrite Hid by discriminate.
    rewrite (rename_dict_key_lookup _ _ _ _ _ H5) by discriminate.
    rewrite (rename_dict_key_lookup _ _ _ _ _ H4) by discriminate.
    rewrite Ha3. rewrite (rename_dict_key_lookup _ _ _ _ _ H2) by discriminate.
    apply Hsource. simpl. tauto.
  - rewrite Hid by discriminate.
    rewrite (rename_dict_key_lookup _ _ _ _ _ H5) by discriminate.
    rewrite Ha4. rewrite (rename_dict_key_lookup _ _ _ _ _ H3) by discriminate.
    rewrite (rename_dict_key_lookup _ _ _ _ _ H2) by discriminate.
    apply Hsource. simpl. tauto.
  - rewrite Hid by discriminate.
    rewrite Ha5. rewrite (rename_dict_key_lookup _ _ _ _ _ H4) by discriminate.
    rewrite (rename_dict_key_lookup _ _ _ _ _ H3) by discriminate.
    rewrite (rename_dict_key_lookup _ _ _ _ _ H2) by discriminate.
    apply Hsource. simpl. tauto.
  - apply (pop_all_removed ["id"] "id" (list_elem_of_here _ _) _ _ Hr).
  - rewrite Hid by discriminate.
    rewrite (rename_dict_key_lookup _ _ _ _ _ H5) by discriminate.
    now rewrite (rename_dict_key_lookup _ _ _ _ _ H4) by discriminate.
  - rewrite Hid by discriminate.
    now rewrite (rename_dict_key_lookup _ _ _ _ _ H5) by discriminate.
  - now rewrite Hid by discriminate.
Qed.

(** The prefixes that mark an administrator and a super administrator in
    the serialised legacy roles differ, so that one call never sets both
    flags. *)
Lemma staff_prefixes_exclusive (roles : string) :
  String.prefix "a:1:{i:0;s:10" roles = true ->
  String.prefix "a:1:{i:0;s:16" roles = false.
Proof.
  intros Hstaff.
  destruct (String.prefix "a:1:{i:0;s:16" roles) eqn:Hsuper; [|reflexivity].
  apply String.prefix_correct in Hstaff, Hsuper.
  cbn [String.length] in Hstaff, Hsuper. rewrite Hstaff in Hsuper. discriminate Hsuper.
Qed.

(** The user record: a row is prepared only if its legacy [roles] is a
    string ([startswith] raises on NULL, with no handler); the record then
    has none of the legacy-only keys, nor the renamed [id] and [enabled];
    [is_staff] is set for the roles of an administrator and [is_superuser]
    for those of a super administrator, never both. (["roles"] is not a date
    field of the models.) *)
Theorem user_record_fields (elem r : row) :
  user_record elem = Ok r ->
  "roles" ∉ (DIRECTORY_DATE_FIELDS ++ NETWORK_DATE_FIELDS
             ++ SECTOR_DATE_FIELDS ++ USER_DATE_FIELDS) ->
  (forall key, key ∈ USER_EXTRA_KEYS -> r !! key = None)
  /\ exists roles,
       elem !! "roles" = Some (PStr roles)
       /\ (String.prefix "a:1:{i:0;s:10" roles = true ->
           r !! "is_staff" = Some (PBool true)
           /\ String.prefix "a:1:{i:0;s:16" roles = false)
       /\ (String.prefix "a:1:{i:0;s:16" roles = true ->
           r !! "is_superuser" = Some (PBool true)).
Proof.
  unfold user_record. intros Hr Hdate.
  apply bind_Ok in Hr as (e1 & H1 & Hr). apply bind_Ok in Hr as (e2 & H2 & Hr).
  apply bind_Ok in Hr as (e3 & H3 & Hr). apply bind_Ok in Hr as (e4 & H4 & Hr).
  split; [intros key Hkey; now apply (pop_all_removed USER_EXTRA_KEYS key Hkey _ _ Hr)|].
  assert (Hin : "roles" ∈ USER_EXTRA_KEYS).
  { rewrite list_elem_of_In. simpl. tauto. }
  assert (Hout : ("is_staff" ∉ USER_EXTRA_KEYS) /\ ("is_superuser" ∉ USER_EXTRA_KEYS)).
  { rewrite !list_elem_of_In. simpl. intuition discriminate. }
  destruct (pop_all_present _ _ Hin _ _ Hr) as [v4 Hv4].
  assert (Hv3 : e3 !! "roles" = Some v4).
  { now rewrite <- (set_staff_lookup _ _ "roles" H4) by discriminate. }
  assert (Hroles : exists roles, v4 = PStr roles).
  { unfold set_staff in H4. rewrite Hv3 in H4.
    destruct v4; try discriminate H4. eauto. }
  destruct Hroles as [roles ->]. exists roles.
  assert (He2 : integer_to_boolean e2 !! "roles" = Some (PStr roles)).
  { apply set_kind_inv in H3.
    destruct (integer_to_boolean e2 !! "person_type").
    - destruct H3 as (kind & _ & ->).
      now rewrite lookup_insert_ne in Hv3 by discriminate.
    - now subst e3. }
  split; [|split].
  - assert (He2' : e2 !! "roles" = Some (PStr roles)).
    { rewrite integer_to_boolean_lookup in He2.
      destruct (decide _); [|exact He2].
      destruct (e2 !! "roles") as [v|]; [|discriminate He2].
      cbn in He2. injection He2 as He2. exfalso.
      unfold boolean_of in He2.
      destruct (py_in v [PInt 1; PStr "1"]); [discriminate|].
      destruct (py_in v [PInt 0; PStr "0"]); [discriminate|].
      destruct (py_in v [PNone]); discriminate. }
    rewrite (make_aware_dates_lookup _ _ _ H2 Hdate) in He2'.
    rewrite cleanup_date_field_names_lookup in He2' by discriminate.
    assert (Hren : Forall (fun ba : string * string =>
                             "roles" <> ba.1 /\ "roles" <> ba.2) user_renames).
    { unfold user_renames. repeat constructor; discriminate. }
    now rewrite (rename_all_lookup _ _ Hren _ _ H1) in He2'.
  - intros Hstaff. pose proof (staff_prefixes_exclusive roles Hstaff) as Hsuper.
    split; [|exact Hsuper].
    rewrite (pop_all_lookup _ _ (proj1 Hout) _ _ Hr).
    unfold set_staff in H4. rewrite Hv3 in H4. cbn in H4.
    rewrite Hstaff, Hsuper in H4. injection H4 as <-. apply lookup_insert_eq.
  - intros Hsuper.
    rewrite (pop_all_lookup _ _ (proj2 Hout) _ _ Hr).
    unfold set_staff in H4. rewrite Hv3 in H4. cbn in H4.
    rewrite Hsuper in H4.
    destruct (String.prefix "a:1:{i:0;s:10" roles); injection H4 as <-;
      apply lookup_insert_eq.
Qed.

End RecordFacts.

Section SampleRecords.
#[local] Existing Instance Sample.django.

Lemma sample_plain (key : string) :
  ~ In key ["created_at"; "updated_at"; "last_login"; "is_active"; "is_qpv";
            "is_delisted"; "is_staff"; "is_superuser"] ->
  plain key.
Proof.
  intros Hkey. split; rewrite list_elem_of_In; simpl in *; tauto.
Qed.

Lemma siae_record_fields_witness :
  let elem := Sample.legacy_siae 7 (PStr "atelier") in
  let r := Sample.prepared (siae_record elem) in
  r !! "geo_range_custom_distance" = Some (PInt 30)
  /\ exists pol_range geo_range,
       elem !! "pol_range" = Some pol_range
       /\ map_geo_range pol_range = Ok geo_range
       /\ r !! "geo_range" = Some geo_range.
Proof.
  intros elem r.
  destruct (siae_record_fields elem r) as (Hdistance & Hgeo & _).
  - apply prepared_eq. vm_compute. reflexivity.
  - apply sample_plain. simpl. intuition discriminate.
  - apply sample_plain. simpl. intuition discriminate.
  - apply sample_plain. simpl. intuition discriminate.
  - apply sample_plain. simpl. intuition discriminate.
  - split; [exact Hdistance | exact Hgeo].
Defined.

Lemma client_reference_record_fields_witness :
  let r := Sample.prepared (client_reference_record Sample.legacy_client_image) in
  r !! "image_name" = Some (PStr "logo.png") /\ r !! "name" = Some (PStr "Mairie de Paris").
Proof.
  intros r.
  destruct (client_reference_record_fields Sample.legacy_client_image r)
    as (Himage & Hname & _).
  - apply prepared_eq. vm_compute. reflexivity.
  - repeat constructor; rewrite list_elem_of_In; simpl; intuition discriminate.
  - split; [exact Himage | exact Hname].
Defined.

Lemma user_record_fields_witness :
  let r := Sample.prepared
             (user_record (Sample.legacy_user 7 (PInt 4) (PStr "ada@example.org"))) in
  r !! "password" = None /\ r !! "roles" = None.
Proof.
  intros r.
  destruct (user_record_fields (Sample.legacy_user 7 (PInt 4) (PStr "ada@example.org")) r)
    as (Hgone & _).
  - apply prepared_eq. vm_compute. reflexivity.
  - rewrite list_elem_of_In. simpl. intuition discriminate.
  - split; apply Hgone; rewrite list_elem_of_In; simpl; tauto.
Defined.

End SampleRecords.

(** ** The sector hierarchy, entry by entry *)

Lemma concat_children_alter (child : Z) (i : nat) (l : list sector_group_dict)
    (g : sector_group_dict) :
  l !! i = Some g ->
  concat (sg_children <$> alter (append_child child) i l)
  ≡ₚ concat (sg_children <$> l) ++ [child].
Proof.
  revert i. induction l as [|g0 l IH]; intros [|i] Hi; try discriminate.
  - cbn. rewrite <- !app_assoc. apply Permutation_app_head, Permutation_app_comm.
  - cbn. rewrite (IH i Hi). now rewrite app_assoc.
Qed.

(** One turn of the loop: the group ids grow by at most the id the row
    names (its own, or its parent's), which is among them afterwards, and the
    children grow by the row's id when it has a parent. *)
Lemma hierarchy_step_entries (l : list sector_group_dict) (elem : listing_category_row) :
  let key := if no_parent elem then category_id elem
             else default 0 (category_parent_id elem) in
  (sg_id <$> hierarchy_step l elem =
     (sg_id <$> l) ++ (if decide (key ∈ (sg_id <$> l)) then [] else [key]))
  /\ concat (sg_children <$> hierarchy_step l elem)
     ≡ₚ concat (sg_children <$> l) ++ (if no_parent elem then [] else [category_id elem]).
Proof.
  assert (Hfind : forall key,
             match find_index (fun s => Z.eqb (sg_id s) key) l with
             | Some i => key ∈ (sg_id <$> l) /\ exists g, l !! i = Some g
             | None => key ∉ (sg_id <$> l)
             end).
  { intros key. destruct (find_index _ l) as [i|] eqn:Hi.
    - apply find_index_Some in Hi as (g & Hg & Heq). apply Z.eqb_eq in Heq.
      split; [|eauto]. apply list_elem_of_fmap. exists g. split; [auto|].
      now apply list_elem_of_lookup_2 in Hg.
    - intros Hin. apply list_elem_of_fmap in Hin as (g & -> & Hg).
      pose proof (find_index_None _ _ Hi g Hg) as Hfalse. cbn in Hfalse.
      rewrite Z.eqb_refl in Hfalse. discriminate. }
  assert (Hgroup : no_parent elem = true ->
             let l' := match find_index (fun s => Z.eqb (sg_id s) (category_id elem)) l with
                       | None => l ++ [{| sg_id := category_id elem; sg_children := [] |}]
                       | Some _ => l
                       end in
             (sg_id <$> l' = (sg_id <$> l)
                ++ (if decide (category_id elem ∈ (sg_id <$> l)) then []
                    else [category_id elem]))
             /\ concat (sg_children <$> l') ≡ₚ concat (sg_children <$> l) ++ []).
  { intros _. specialize (Hfind (category_id elem)).
    destruct (find_index _ l) as [i|]; cbn zeta.
    - destruct Hfind as [Hin _].
      destruct (decide _) as [_|Hout]; [|contradiction]. now rewrite !app_nil_r.
    - destruct (decide _) as [Hin|_]; [contradiction|].
      rewrite !fmap_app, concat_app. cbn. now rewrite !app_nil_r. }
  unfold hierarchy_step, no_parent in *.
  destruct (category_parent_id elem) as [parent_id|]; [|now apply Hgroup].
  destruct (Z.eqb parent_id 0) eqn:Hzero; [now apply Hgroup|].
  change (default 0 (Some parent_id)) with parent_id.
  specialize (Hfind parent_id).
  destruct (find_index _ l) as [i|].
  - destruct Hfind as [Hin [g Hg]]. split.
    + rewrite fmap_sg_id_alter.
      destruct (decide (parent_id ∈ (sg_id <$> l))) as [_|Hout]; [|contradiction].
      now rewrite app_nil_r.
    + now apply concat_children_alter with (g := g).
  - rewrite length_app. cbn [length].
    replace (length l + 1 - 1)%nat with (length l + 0)%nat by lia.
    rewrite alter_app_r.
    destruct (decide (parent_id ∈ (sg_id <$> l))) as [Hin|_]; [contradiction|].
    rewrite !fmap_app, concat_app. cbn. now split.
Qed.

(** The hierarchy has one entry per group id met, in the order of first
    mention: every row without parent has its entry, and every entry is the
    id of a row without parent or the [parent_id] of a child row. Every child
    row is listed once: the children of all the groups together are the ids of
    the child rows, one for one. *)
Theorem sector_hierarchy_entries (resp : list listing_category_row) :
  (forall elem, elem ∈ resp -> no_parent elem = true ->
                category_id elem ∈ (sg_id <$> sector_hierarchy resp))
  /\ (forall id, id ∈ (sg_id <$> sector_hierarchy resp) ->
        exists elem, elem ∈ resp
          /\ ((no_parent elem = true /\ category_id elem = id)
              \/ (no_parent elem = false /\ category_parent_id elem = Some id)))
  /\ concat (sg_children <$> sector_hierarchy resp)
     ≡ₚ category_id <$> List.filter (fun elem => negb (no_parent elem)) resp.
Proof.
  unfold sector_hierarchy. induction resp as [|elem resp IH] using rev_ind.
  - split; [|split]; [| |reflexivity].
    + intros e He. now apply elem_of_nil in He.
    + intros id Hid. now apply elem_of_nil in Hid.
  - destruct IH as (Hgroups & Hids & Hchildren).
    rewrite foldl_app. cbn [foldl].
    destruct (hierarchy_step_entries (foldl hierarchy_step [] resp) elem) as [Hstep Hperm].
    cbn zeta in Hstep. split; [|split].
    + intros e He Hno. rewrite Hstep. apply elem_of_app.
      apply elem_of_app in He as [He|He]; [left; now apply Hgroups|].
      apply list_elem_of_singleton in He. subst e. rewrite Hno. clear Hstep.
      destruct (decide (category_id elem ∈ (sg_id <$> foldl hierarchy_step [] resp)))
        as [Hin|_]; [now left | right; apply list_elem_of_here].
    + intros id Hid. rewrite Hstep in Hid. apply elem_of_app in Hid as [Hid|Hid].
      * destruct (Hids id Hid) as (e & He & Hrest). exists e.
        split; [apply elem_of_app; now left | exact Hrest].
      * destruct (decide _) as [_|_]; [now apply elem_of_nil in Hid|].
        apply list_elem_of_singleton in Hid. exists elem.
        split; [apply elem_of_app; right; apply list_elem_of_here|].
        destruct (no_parent elem) eqn:Hno; [now left|]. right. split; [reflexivity|].
        unfold no_parent in Hno. destruct (category_parent_id elem) as [p|];
          [|discriminate]. cbn in Hid. now subst id.
    + rewrite Hperm, Hchildren, List.filter_app, fmap_app. cbn [List.filter].
      now destruct (no_parent elem).
Qed.

Lemma sector_hierarchy_entries_witness :
  1 ∈ (sg_id <$> sector_hierarchy Sample.categories).
Proof.
  refine (proj1 (sector_hierarchy_entries Sample.categories)
            {| category_id := 1; category_parent_id := None |} _ _).
  - apply list_elem_of_here.
  - reflexivity.
Defined.

(** ** A completed migration of the sectors is complete *)

Lemma sectors_grow_refl (d : db) : sectors_grow d d.
Proof. split; auto. Qed.

Lemma sectors_grow_trans (d1 d2 d3 : db) :
  sectors_grow d1 d2 -> sectors_grow d2 d3 -> sectors_grow d1 d3.
Proof. intros [Hg1 Hs1] [Hg2 Hs2]. split; auto. Qed.

Section SectorsComplete.
Context `{Django}.

Lemma Sector_create_grows (pk : Z) (name slug : string) (group : Z) (d : db) :
  sectors_grow d (Sector_create pk name slug group d).1.
Proof.
  unfold Sector_create. destruct (existsb _ _); [apply sectors_grow_refl|].
  split; cbn; [auto|]. intros s Hs. apply elem_of_app. now left.
Qed.

Lemma create_sector_grows (resp : list category_translation_row)
    (sg : sector_group_dict) (sector_id : Z) (d : db) :
  sectors_grow d (create_sector resp sg sector_id d).1.
Proof.
  unfold create_sector. destruct (french resp sector_id) as [t|e];
    [|apply sectors_grow_refl].
  rewrite bind_lift_ok. unfold try_except_IntegrityError.
  pose proof (Sector_create_grows sector_id (name t) (slug t) (sg_id sg) d) as H1.
  destruct (Sector_create sector_id (name t) (slug t) (sg_id sg) d) as [d1 [[]|e]];
    [exact H1|].
  cbn [fst] in H1. destruct e; try exact H1.
  eapply sectors_grow_trans; [exact H1 | apply Sector_create_grows].
Qed.

Lemma create_sector_group_grows (resp : list category_translation_row)
    (sg : sector_group_dict) (d : db) :
  sectors_grow d (create_sector_group resp sg d).1.
Proof.
  unfold create_sector_group. destruct (french resp (sg_id sg)) as [t|e];
    [|apply sectors_grow_refl].
  rewrite bind_lift_ok. apply (bind_keeps (sectors_grow d)).
  - unfold SectorGroup_create. destruct (existsb _ _); [apply sectors_grow_refl|].
    split; cbn; [|auto]. intros g Hg. apply elem_of_app. now left.
  - intros _ d1 Hd1. apply (for_each_invariant (sectors_grow d)); [|exact Hd1].
    intros x d2 _ Hd2. eapply sectors_grow_trans; [exact Hd2 | apply create_sector_grows].
Qed.

Lemma Sector_create_ok (pk : Z) (name slug : string) (group : Z) (d d' : db) :
  Sector_create pk name slug group d = (d', Ok tt) ->
  {| sector_pk := pk; sector_name := name; sector_slug := slug; sector_group := group |}
    ∈ Sector_objects d'.
Proof.
  unfold Sector_create. destruct (existsb _ _); [discriminate|].
  intros [= <-]. cbn. apply elem_of_app. right. apply list_elem_of_here.
Qed.

(** A child whose creation returns has its translation and its record,
    under the slug of the translation or the suffixed one. *)
Lemma create_sector_ok (resp : list category_translation_row)
    (sg : sector_group_dict) (sector_id : Z) (d d' : db) :
  create_sector resp sg sector_id d = (d', Ok tt) ->
  exists t, french resp sector_id = Ok t
    /\ exists s, s ∈ Sector_objects d'
         /\ sector_pk s = sector_id /\ sector_name s = name t
         /\ sector_group s = sg_id sg
         /\ (sector_slug s = slug t \/ sector_slug s = slug_fix (slug t) (sg_id sg)).
Proof.
  unfold create_sector. destruct (french resp sector_id) as [t|e]; [|discriminate].
  rewrite bind_lift_ok. unfold try_except_IntegrityError. intros Hrun.
  exists t. split; [reflexivity|].
  destruct (Sector_create sector_id (name t) (slug t) (sg_id sg) d)
    as [d1 [[]|e]] eqn:H1.
  - injection Hrun as <-. eexists. split; [apply (Sector_create_ok _ _ _ _ _ _ H1)|].
    cbn. auto.
  - destruct e; try discriminate.
    eexists. split; [apply (Sector_create_ok _ _ _ _ _ _ Hrun)|]. cbn. auto.
Qed.

Lemma migrate_sector_creates (cur : cursor) (d : db) (sg : sector_group_dict) :
  (migrate_sector cur d).2 = Ok tt ->
  sg ∈ sector_hierarchy (listing_category cur) ->
  (exists t, french (listing_category_translation cur) (sg_id sg) = Ok t
     /\ {| group_pk := sg_id sg; group_name := name t; group_slug := slug t |}
          ∈ SectorGroup_objects (migrate_sector cur d).1)
  /\ forall child, child ∈ sg_children sg ->
       exists t, french (listing_category_translation cur) child = Ok t
         /\ exists s, s ∈ Sector_objects (migrate_sector cur d).1
              /\ sector_pk s = child /\ sector_name s = name t
              /\ sector_group s = sg_id sg
              /\ (sector_slug s = slug t \/ sector_slug s = slug_fix (slug t) (sg_id sg)).
Proof.
  unfold migrate_sector.
  do 4 (erewrite bind_returns; [|reflexivity]).
  set (d0 := set_SectorGroup_objects [] _).
  set (tr := listing_category_translation cur).
  destruct (for_each (sector_hierarchy (listing_category cur)) (create_sector_group tr) d0)
    as [d1 [[]|e]] eqn:Hloop.
  2: { unfold mbind at 1, M_bind. rewrite Hloop. discriminate. }
  rewrite (bind_returns _ _ _ _ _ Hloop).
  do 3 (erewrite bind_returns; [|reflexivity]).
  intros _ Hsg. cbn [print fst set_stdout SectorGroup_objects Sector_objects].
  destruct (for_each_ok_each sectors_grow _ _ sectors_grow_refl sectors_grow_trans
              (create_sector_group_grows tr) d0 d1 Hloop) as [_ Heach].
  destruct (Heach sg Hsg) as (da & da' & Hbody & [Hgroups Hsectors]).
  unfold create_sector_group in Hbody.
  destruct (french tr (sg_id sg)) as [t|e] eqn:Ht; [|discriminate].
  rewrite bind_lift_ok in Hbody. unfold mbind, M_bind in Hbody.
  destruct (SectorGroup_create (sg_id sg) (name t) (slug t) da) as [dg [[]|e]] eqn:Hg;
    [|discriminate].
  destruct (for_each_ok_each sectors_grow _ _ sectors_grow_refl sectors_grow_trans
              (create_sector_grows tr sg) dg da' Hbody) as [[Hgg _] Hchildren].
  split.
  - exists t. split; [reflexivity|]. apply Hgroups, Hgg.
    unfold SectorGroup_create in Hg. destruct (existsb _ _); [discriminate|].
    injection Hg as <-. cbn. apply elem_of_app. right. apply list_elem_of_here.
  - intros child Hchild.
    destruct (Hchildren child Hchild) as (dc & dc' & Hc & [_ Hcs]).
    destruct (create_sector_ok _ _ _ _ _ Hc) as (tc & Htc & s & Hs & Hrest).
    exists tc. split; [exact Htc|]. exists s. split; [|exact Hrest].
    apply Hsectors, Hcs, Hs.
Qed.

(** A run of [migrate_sector] that returns has created the whole hierarchy:
    every group entry has a French translation and its [SectorGroup] record,
    with the key, name and slug of the legacy rows, and every child has a
    French translation and its [Sector] record in that group, under the slug
    of the translation or that slug suffixed with the group's id. *)
Theorem migrate_sector_complete (cur : cursor) (d : db) (sg : sector_group_dict) :
  (migrate_sector cur d).2 = Ok tt ->
  sg ∈ sector_hierarchy (listing_category cur) ->
  (exists t, french (listing_category_translation cur) (sg_id sg) = Ok t
     /\ {| group_pk := sg_id sg; group_name := name t; group_slug := slug t |}
          ∈ SectorGroup_objects (migrate_sector cur d).1)
  /\ forall child, child ∈ sg_children sg ->
       exists t, french (listing_category_translation cur) child = Ok t
         /\ exists s, s ∈ Sector_objects (migrate_sector cur d).1
              /\ sector_pk s = child /\ sector_name s = name t
              /\ sector_group s = sg_id sg
              /\ (sector_slug s = slug t \/ sector_slug s = slug_fix (slug t) (sg_id sg)).
Proof. exact (migrate_sector_creates cur d sg). Qed.

End SectorsComplete.

Section SampleSectors.
#[local] Existing Instance Sample.django.

Lemma migrate_sector_complete_witness :
  exists s, s ∈ Sector_objects (migrate_sector Sample.sectors_cursor Sample.empty_db).1
    /\ sector_pk s = 7 /\ sector_group s = 5
    /\ (sector_slug s = "autre" \/ sector_slug s = slug_fix "autre" 5).
Proof.
  destruct (migrate_sector_complete Sample.sectors_cursor Sample.empty_db
              {| sg_id := 5; sg_children := [6; 7] |}) as [_ Hchildren].
  - vm_compute. reflexivity.
  - vm_compute. apply list_elem_of_here.
  - destruct (Hchildren 7) as (t & Ht & s & Hs & Hpk & _ & Hgroup & Hslug).
    + apply list_elem_of_further, list_elem_of_here.
    + vm_compute in Ht. injection Ht as <-. exists s. auto.
Defined.

End SampleSectors.

(** ** The image loop accounts for every image *)

(** A loop over the counters whose every turn adds [w x] to a measure of
    the counters and the destination adds the sum of the [w x] when it
    returns. *)
Lemma for_each_count_measure {A} (mu : error_count -> db -> nat) (w : A -> nat)
    (l : list A) (body : error_count -> A -> M error_count) :
  (forall c x d c' d', x ∈ l -> body c x d = (d', Ok c') -> mu c' d' = (mu c d + w x)%nat) ->
  forall count d count' d',
    for_each_count l count body d = (d', Ok count') ->
    mu count' d' = (mu count d + sum_list (w <$> l))%nat.
Proof.
  induction l as [|x l IH]; intros Hbody count d count' d' Hrun.
  - cbn in Hrun. injection Hrun as <- <-. cbn. lia.
  - cbn [for_each_count] in Hrun. unfold mbind, M_bind in Hrun.
    destruct (body count x d) as [d1 [c1|e]] eqn:Hx; [|discriminate].
    rewrite (IH (fun c y d2 c' d3 Hy => Hbody c y d2 c' d3 (list_elem_of_further _ _ _ Hy))
               c1 d1 count' d' Hrun).
    rewrite (Hbody count x d c1 d1 (list_elem_of_here _ _) Hx). cbn. lia.
Qed.

Lemma sum_list_indicator {A} (p : A -> bool) (l : list A) :
  sum_list ((fun x => if p x then 1%nat else 0%nat) <$> l) = length (List.filter p l).
Proof.
  induction l as [|x l IH]; [reflexivity|]. cbn. destruct (p x); cbn; lia.
Qed.

Lemma sum_list_length {A} (l : list (list A)) :
  sum_list (length <$> l) = length (concat l).
Proof.
  induction l as [|x l IH]; [reflexivity|]. cbn. rewrite length_app. lia.
Qed.

Section ImageAccounting.
Context `{Django}.

(** One image, one outcome: a record created or one of the three owner
    errors counted, and never [listing_without_image]. *)
Lemma create_siae_image_accounts (si : siae_listing) (count count' : error_count)
    (siae_image : row) (d d' : db) :
  create_siae_image si count siae_image d = (d', Ok count') ->
  listing_without_image count' = listing_without_image count
  /\ (length (SiaeImage_objects d') + user_not_found count' + user_no_siae count'
      + user_multiple_siae count'
      = length (SiaeImage_objects d) + user_not_found count + user_no_siae count
        + user_multiple_siae count + 1)%nat.
Proof.
  unfold create_siae_image.
  destruct (rename_dict_key (siae_image ∪ fields si) "listing_id" "c4_listing_id")
    as [d1|e]; [|discriminate].
  rewrite bind_lift_ok.
  destruct (rename_dict_key d1 "position" "order") as [d2|e]; [|discriminate].
  rewrite bind_lift_ok.
  destruct (getitem d2 "user_id") as [user_id|e]; [|discriminate].
  rewrite bind_lift_ok. erewrite bind_returns by reflexivity.
  destruct (User_filter_c4_id user_id d) as [|first rest].
  { intros [= <- <-]. cbn. split; lia. }
  destruct (user_siaes first) as [|siae [|siae' siaes]].
  - intros [= <- <-]. cbn. split; lia.
  - destruct (pop_all (<["siae_id" := PInt siae]> d2) ["translatable_id"; "user_id"])
      as [x|e]; [|discriminate].
    rewrite bind_lift_ok. unfold objects_create. cbn [validate objects set_objects].
    unfold mbind, M_bind.
    destruct (SiaeImage_validate (SiaeImage_objects d) x); [discriminate|].
    intros [= <- <-]. cbn. rewrite length_app. cbn. split; lia.
  - intros [= <- <-]. cbn. split; lia.
Qed.

(** When the image loop returns, every image of the joined listings is
    accounted for exactly once: the records created and the three owner
    counters (user not found, user without enterprise, user with several) add
    up to the number of images, and [listing_without_image] is the number of
    listings that have no image. *)
Theorem create_siae_images_accounting (l : list siae_listing) (d : db)
    (count : error_count) :
  (create_siae_images l d).2 = Ok count ->
  listing_without_image count = length (List.filter without_image l)
  /\ (length (SiaeImage_objects (create_siae_images l d).1)
      + user_not_found count + user_no_siae count + user_multiple_siae count
      = length (SiaeImage_objects d) + length (concat (images <$> l)))%nat.
Proof.
  destruct (create_siae_images l d) as [d' r] eqn:Hrun. cbn [fst snd].
  intros ->. unfold create_siae_images in Hrun. split.
  - rewrite <- sum_list_indicator.
    apply (for_each_count_measure (fun c _ => listing_without_image c)
             (fun si => if without_image si then 1%nat else 0%nat)
             l create_listing_images) in Hrun; [exact Hrun|].
    intros c si d1 c' d2 _. unfold create_listing_images, without_image.
    destruct (images si) as [|img imgs] eqn:Himgs.
    + intros [= <- <-]. cbn. lia.
    + rewrite <- Himgs. intros Hinner.
      apply (for_each_count_measure (fun c _ => listing_without_image c)
               (fun _ => 0%nat)) in Hinner.
      * rewrite Hinner. clear. induction (images si); cbn in *; lia.
      * intros c1 img' d3 c2 d4 _ Himg.
        destruct (create_siae_image_accounts _ _ _ _ _ _ Himg) as [-> _]. lia.
  - rewrite <- sum_list_length, <- list_fmap_compose.
    apply (for_each_count_measure
             (fun c d => (length (SiaeImage_objects d) + user_not_found c
                          + user_no_siae c + user_multiple_siae c)%nat)
             (length ∘ images) l create_listing_images) in Hrun;
      [rewrite Hrun; cbn; lia|].
    intros c si d1 c' d2 _. unfold create_listing_images, compose.
    destruct (images si) as [|img imgs] eqn:Himgs.
    + intros [= <- <-]. cbn. lia.
    + rewrite <- Himgs. intros Hinner.
      apply (for_each_count_measure
               (fun c d => (length (SiaeImage_objects d) + user_not_found c
                            + user_no_siae c + user_multiple_siae c)%nat)
               (fun _ => 1%nat)) in Hinner.
      * rewrite Hinner. clear. induction (images si); cbn in *; lia.
      * intros c1 img' d3 c2 d4 _ Himg.
        now destruct (create_siae_image_accounts _ _ _ _ _ _ Himg) as [_ ->].
Qed.

End ImageAccounting.

Section SampleAccounting.
#[local] Existing Instance Sample.django.

Lemma create_siae_images_accounting_witness :
  let l := [ {| fields := fields Sample.joined_listing; images := [] |};
             Sample.joined_listing ] in
  length (SiaeImage_objects (create_siae_images l Sample.owner_db).1) = 2%nat.
Proof.
  intros l.
  destruct (create_siae_images_accounting l Sample.owner_db
              {| listing_without_image := 1; user_not_found := 0;
                 user_no_siae := 0; user_multiple_siae := 0 |}) as [_ Hsum].
  - vm_compute. reflexivity.
  - cbn [user_not_found user_no_siae user_multiple_siae] in Hsum.
    rewrite !Nat.add_0_r in Hsum. exact Hsum.
Defined.

End SampleAccounting.

(** ** The entries of the join *)

Section JoinEntries.
Context `{Django}.

Lemma thin_listing_steps (elem : row) (si : siae_listing) :
  thin_listing elem = Ok si ->
  exists e1 e2,
    make_aware_dates (cleanup_date_field_names elem) = Ok e1
    /\ rename_dict_key e1 "id" "listing_id" = Ok e2
    /\ restrict e2 ["listing_id"; "user_id"; "created_at"; "updated_at"] = Ok (fields si)
    /\ images si = [].
Proof.
  unfold thin_listing. intros Hrun.
  apply bind_Ok in Hrun as (e1 & H1 & Hrun).
  apply bind_Ok in Hrun as (e2 & H2 & Hrun).
  apply bind_Ok in Hrun as (e3 & H3 & Hrun).
  injection Hrun as <-. exists e1, e2. auto.
Qed.

(** The entry of a listing carries the listing's id and its user. *)
Lemma thin_listing_ids (elem : row) (si : siae_listing) :
  thin_listing elem = Ok si ->
  plain "id" -> plain "user_id" ->
  fields si !! "listing_id" = elem !! "id" /\ fields si !! "user_id" = elem !! "user_id".
Proof.
  intros Hrun [Hid _] [Huser _].
  destruct (thin_listing_steps _ _ Hrun) as (e1 & e2 & H1 & H2 & H3 & _).
  rewrite !(restrict_lookup _ _ _ _ H3).
  destruct (decide _) as [_|Hout];
    [|exfalso; apply Hout; repeat constructor].
  destruct (decide _) as [_|Hout];
    [|exfalso; apply Hout; repeat constructor].
  destruct (rename_dict_key_moved _ _ _ _ H2) as (-> & _ & _); [discriminate|].
  rewrite (rename_dict_key_lookup _ _ _ _ "user_id" H2) by discriminate.
  rewrite !(make_aware_dates_lookup _ _ _ H1) by assumption.
  now rewrite !cleanup_date_field_names_lookup by discriminate.
Qed.

Lemma thin_listings_ids (resp : list row) (l : list siae_listing) :
  thin_listings resp = Ok l ->
  plain "id" -> plain "user_id" ->
  (fun si => (fields si !! "listing_id", fields si !! "user_id")) <$> l
  = (fun elem => (elem !! "id", elem !! "user_id")) <$> resp.
Proof.
  intros Hrun Hid Huser. revert l Hrun.
  induction resp as [|elem resp IH]; intros l Hrun.
  - injection Hrun as <-. reflexivity.
  - cbn [thin_listings] in Hrun.
    apply bind_Ok in Hrun as (si & Hsi & Hrun).
    apply bind_Ok in Hrun as (rest & Hrest & Hrun).
    injection Hrun as <-. cbn [fmap list_fmap].
    destruct (thin_listing_ids _ _ Hsi Hid Huser) as [-> ->].
    f_equal. now apply IH.
Qed.

Lemma fmap_alter_same {A B} (g : A -> B) (f : A -> A) (i : nat) (l : list A) :
  (forall x, g (f x) = g x) -> g <$> alter f i l = g <$> l.
Proof.
  intros Hf. revert i. induction l as [|x l IH]; intros [|i]; try reflexivity.
  - cbn. now rewrite Hf.
  - cbn. f_equal. apply IH.
Qed.

Lemma update_at_index_same {B} (g : siae_listing -> B) (index : option nat)
    (update : siae_listing -> siae_listing) (l : list siae_listing) :
  (forall si, g (update si) = g si) ->
  g <$> update_at_index index update l = g <$> l.
Proof.
  intros Hupdate. destruct index as [[|i]|]; try reflexivity.
  now apply fmap_alter_same.
Qed.

Lemma enrich_same {B} (g : siae_listing -> B)
    (step : list siae_listing -> row -> result (list siae_listing)) (resp : list row) :
  (forall l elem l', step l elem = Ok l' -> g <$> l' = g <$> l) ->
  forall l l', enrich step l resp = Ok l' -> g <$> l' = g <$> l.
Proof.
  intros Hstep. induction resp as [|elem resp IH]; intros l l' Hrun.
  - now injection Hrun as <-.
  - cbn [enrich] in Hrun. apply bind_Ok in Hrun as (l1 & H1 & Hrun).
    rewrite (IH _ _ Hrun). now apply Hstep with elem.
Qed.

(** The join keeps one entry per row of [listing], in the order of the
    table, each with the id and the user of its row: translations and images
    are merged into the entries and never add, drop or reorder one. *)
Theorem join_listings_entries (listings translations imgs : list row)
    (l : list siae_listing) :
  join_listings listings translations imgs = Ok l ->
  plain "id" -> plain "user_id" ->
  (fun si => (fields si !! "listing_id", fields si !! "user_id")) <$> l
  = (fun elem => (elem !! "id", elem !! "user_id")) <$> listings.
Proof.
  unfold join_listings. intros Hrun Hid Huser.
  apply bind_Ok in Hrun as (l0 & H0 & Hrun).
  apply bind_Ok in Hrun as (l1 & H1 & Hrun).
  rewrite <- (thin_listings_ids _ _ H0 Hid Huser).
  transitivity ((fun si => (fields si !! "listing_id", fields si !! "user_id")) <$> l1).
  - apply (enrich_same _ enrich_with_image imgs); [|exact Hrun].
    intros l2 elem l3 Hstep. unfold enrich_with_image in Hstep.
    apply bind_Ok in Hstep as (e1 & _ & Hstep).
    apply bind_Ok in Hstep as (e2 & _ & Hstep).
    apply bind_Ok in Hstep as (v & _ & Hstep).
    apply bind_Ok in Hstep as (index & _ & Hstep).
    injection Hstep as <-. now apply update_at_index_same.
  - apply (enrich_same _ enrich_with_translation translations); [|exact H1].
    intros l2 elem l3 Hstep. unfold enrich_with_translation in Hstep.
    apply bind_Ok in Hstep as (e1 & _ & Hstep).
    apply bind_Ok in Hstep as (e2 & He2 & Hstep).
    apply bind_Ok in Hstep as (v & _ & Hstep).
    apply bind_Ok in Hstep as (index & _ & Hstep).
    injection Hstep as <-. apply update_at_index_same.
    intros si. unfold merge_translation. cbn [fields].
    rewrite !lookup_union, !(restrict_lookup _ _ _ _ He2).
    destruct (decide _) as [Hin|_];
      [repeat (apply elem_of_cons in Hin as [Hin|Hin]; [discriminate|]);
       now apply elem_of_nil in Hin|].
    destruct (decide _) as [Hin|_];
      [repeat (apply elem_of_cons in Hin as [Hin|Hin]; [discriminate|]);
       now apply elem_of_nil in Hin|].
    now rewrite !(left_id_L None _).
Qed.

(** A row of [listing] gets its entry only if both its dates are set: the
    entry is built from ["created_at"] and ["updated_at"], which
    [cleanup_date_field_names] sets from non-null ["createdAt"] and
    ["updatedAt"] only, so a listing whose [updatedAt] is NULL stops the join
    (and with it the migration of the images). *)
Theorem thin_listing_needs_dates (elem : row) (si : siae_listing) :
  thin_listing elem = Ok si ->
  elem !! "created_at" = None -> elem !! "updated_at" = None ->
  (exists v, elem !! "createdAt" = Some v /\ truthy v = true)
  /\ (exists v, elem !! "updatedAt" = Some v /\ truthy v = true).
Proof.
  intros Hrun Hcreated Hupdated.
  destruct (thin_listing_steps _ _ Hrun) as (e1 & e2 & H1 & H2 & H3 & _).
  assert (Hpresent : forall key, key ∈ ["created_at"; "updated_at"] ->
            is_Some (cleanup_date_field_names elem !! key)).
  { intros key Hkey.
    assert (Hin : key ∈ ["listing_id"; "user_id"; "created_at"; "updated_at"])
      by now do 2 apply list_elem_of_further.
    pose proof (restrict_present _ key _ _ H3 Hin) as Hsome.
    rewrite (restrict_lookup _ _ _ _ H3) in Hsome.
    destruct (decide _) as [_|Hout]; [|contradiction].
    rewrite (rename_dict_key_lookup _ _ _ _ key H2) in Hsome.
    2,3: apply elem_of_cons in Hkey as [->|Hkey];
         [|apply list_elem_of_singleton in Hkey; subst key]; discriminate.
    pose proof (make_aware_dates_cases _ _ key H1) as Hvalues.
    destruct (cleanup_date_field_names elem !! key) as [v|]; [eauto|].
    rewrite Hvalues in Hsome. now destruct Hsome. }
  destruct (cleanup_date_field_names_cases elem) as (_ & _ & Hc & Hu & _).
  split.
  - pose proof (Hpresent "created_at" (list_elem_of_here _ _)) as Hsome.
    rewrite Hc in Hsome.
    destruct (elem !! "createdAt") as [v|]; [|rewrite Hcreated in Hsome; now destruct Hsome].
    destruct (truthy v) eqn:Hv; [eauto|]. rewrite Hcreated in Hsome. now destruct Hsome.
  - pose proof (Hpresent "updated_at" (list_elem_of_further _ _ _ (list_elem_of_here _ _)))
      as Hsome.
    rewrite Hu in Hsome.
    destruct (elem !! "updatedAt") as [v|]; [|rewrite Hupdated in Hsome; now destruct Hsome].
    destruct (truthy v) eqn:Hv; [eauto|]. rewrite Hupdated in Hsome. now destruct Hsome.
Qed.

End JoinEntries.

Section SampleJoin.
#[local] Existing Instance Sample.django.

Lemma returned_eq {A} (a : A) (r : result A) :
  is_ok r = true -> r = Ok (Sample.returned a r).
Proof. destruct r; [reflexivity | discriminate]. Qed.

Lemma join_listings_entries_witness :
  let cur := Sample.listings_cursor in
  let l := Sample.returned []
             (join_listings (listing cur) (listing_translation cur) (listing_image cur)) in
  (fun si => (fields si !! "listing_id", fields si !! "user_id")) <$> l
  = [ (Some (PInt 1), Some (PInt 42)); (Some (PInt 2), Some (PInt 42)) ].
Proof.
  intros cur l.
  rewrite (join_listings_entries (listing cur) (listing_translation cur)
             (listing_image cur) l).
  - reflexivity.
  - apply returned_eq. vm_compute. reflexivity.
  - apply sample_plain. vm_compute. intuition discriminate.
  - apply sample_plain. vm_compute. intuition discriminate.
Defined.

Lemma thin_listing_needs_dates_witness :
  let elem := Sample.legacy_listing 1 in
  exists v, elem !! "updatedAt" = Some v /\ truthy v = true.
Proof.
  intros elem.
  refine (proj2 (thin_listing_needs_dates elem
                   (Sample.returned {| fields := ∅; images := [] |} (thin_listing elem))
                   _ _ _)).
  - apply returned_eq. vm_compute. reflexivity.
  - reflexivity.
  - reflexivity.
Defined.

End SampleJoin.

(** ** The orchestrator after a failed join *)

Section HandleFacts.
Context `{Django}.

(** When the join of the listing tables raises (a listing without
    [updatedAt], say), [handle] still ends normally: it prints the exception,
    rolls the legacy connection back and closes it. The destination is not
    restored: the images it held were deleted before the first legacy row was
    read, so the [SiaeImage] table is left empty; the other tables are as they
    were. *)
Theorem handle_after_failed_join (cur : cursor) (d : db) (e : exn) :
  join_listings (listing cur) (listing_translation cur) (listing_image cur) = Raise e ->
  exists d',
    handle (Ok cur) d = (d', Some {| rolled_back := true; closed := true |}, Ok tt)
    /\ SiaeImage_objects d' = []
    /\ last (stdout d') = Some [Exn e]
    /\ Siae_objects d' = Siae_objects d
    /\ User_objects d' = User_objects d.
Proof.
  unfold join_listings, handle, migrate_siae_image. intros Hjoin.
  do 4 (erewrite bind_returns; [|reflexivity]).
  destruct (thin_listings (listing cur)) as [l0|e0].
  2: { injection Hjoin as ->. rewrite bind_lift_raise. eexists. split; [reflexivity|].
       cbn. rewrite last_snoc. auto. }
  rewrite bind_lift_ok. cbn [mbind result_bind rbind] in Hjoin.
  destruct (enrich enrich_with_translation l0 (listing_translation cur)) as [l1|e1].
  2: { injection Hjoin as ->. rewrite bind_lift_raise. eexists. split; [reflexivity|].
       cbn. rewrite last_snoc. auto. }
  rewrite bind_lift_ok. erewrite bind_returns; [|reflexivity].
  cbn [mbind result_bind rbind] in Hjoin.
  rewrite Hjoin, bind_lift_raise. eexists. split; [reflexivity|].
  cbn. rewrite last_snoc. auto.
Qed.

End HandleFacts.

Section SampleHandle.
#[local] Existing Instance Sample.django.

Lemma handle_after_failed_join_witness :
  let cur := Sample.never_updated_cursor in
  exists d',
    handle (Ok cur) Sample.owner_db
      = (d', Some {| rolled_back := true; closed := true |}, Ok tt)
    /\ SiaeImage_objects d' = []
    /\ last (stdout d') = Some [Exn (KeyError (PStr "updated_at"))]
    /\ Siae_objects d' = Siae_objects Sample.owner_db
    /\ User_objects d' = User_objects Sample.owner_db.
Proof.
  intros cur. apply (handle_after_failed_join cur Sample.owner_db).
  vm_compute. reflexivity.
Defined.

End SampleHandle.

(** ** The address helper, case by case *)

Section GeocodingCases.
Import Geocoding.
Variable requests_get : query -> response.
Variable requests_has_RequestError : bool.
Variable GEOSGeometry_point : json -> json -> result string.

Abbreviation process_geocoding_data := (process_geocoding_data GEOSGeometry_point).
Abbreviation get_geocoding_data :=
  (get_geocoding_data requests_get requests_has_RequestError GEOSGeometry_point).

(** [process_geocoding_data] returns [None] for exactly two kinds of
    argument: a falsy one ([None], an empty dictionary, ...) and a dictionary
    whose ["properties"] are missing or falsy. On any other argument it
    returns a dictionary or raises. *)
Theorem process_geocoding_data_none (data : json) :
  process_geocoding_data data = Ok None
  <-> jtruthy data = false
      \/ exists l, data = JObj l /\ jtruthy (default JNull (jassoc l "properties")) = false.
Proof.
  unfold Geocoding.process_geocoding_data. split.
  - destruct (jtruthy data) eqn:Hdata; [|now left]. cbn [negb].
    intros Hrun. right.
    destruct data as [| | | | |l]; try discriminate. exists l. split; [reflexivity|].
    cbn [get mbind result_bind rbind] in Hrun.
    destruct (jtruthy (default JNull (jassoc l "properties"))); [|reflexivity].
    exfalso. cbn [negb] in Hrun.
    repeat (apply bind_Ok in Hrun as (? & _ & Hrun)). discriminate.
  - intros [->|(l & -> & Hprops)]; [reflexivity|].
    destruct (jtruthy (JObj l)); [|reflexivity].
    cbn [negb get mbind result_bind rbind]. now rewrite Hprops.
Qed.

(** Every dictionary [process_geocoding_data] returns is read off the
    feature: the longitude is the first coordinate of the geometry and the
    latitude the second, the point is built from them in that order, the
    address and its first line are both the ["name"] of the properties, and
    the house number and the street are [None] when the properties lack them
    (the other properties are required). *)
Theorem process_geocoding_data_record (data : json) (g : geocoding_data) :
  process_geocoding_data data = Ok (Some g) ->
  exists l properties geometry coordinates,
    data = JObj l
    /\ jassoc l "properties" = Some properties
    /\ jassoc l "geometry" = Some geometry
    /\ subscript geometry "coordinates" = Ok coordinates
    /\ index coordinates 0 = Ok (longitude g)
    /\ index coordinates 1 = Ok (latitude g)
    /\ GEOSGeometry_point (longitude g) (latitude g) = Ok (coords g)
    /\ subscript properties "score" = Ok (score g)
    /\ subscript properties "name" = Ok (address g)
    /\ address_line_1 g = address g
    /\ get properties "housenumber" = Ok (number g)
    /\ get properties "street" = Ok (lane g)
    /\ subscript properties "postcode" = Ok (post_code g)
    /\ subscript properties "citycode" = Ok (insee_code g)
    /\ subscript properties "city" = Ok (city g).
Proof.
  unfold Geocoding.process_geocoding_data.
  destruct (jtruthy data); [|discriminate]. cbn [negb].
  destruct data as [| | | | |l]; try discriminate.
  cbn [get mbind result_bind rbind].
  destruct (jtruthy (default JNull (jassoc l "properties"))); [|discriminate].
  cbn [negb]. intros Hrun.
  apply bind_Ok in Hrun as (geometry & Hgeometry & Hrun).
  apply bind_Ok in Hrun as (coordinates & Hcoordinates & Hrun).
  apply bind_Ok in Hrun as (lon & Hlon & Hrun).
  apply bind_Ok in Hrun as (geometry' & Hgeometry' & Hrun).
  apply bind_Ok in Hrun as (coordinates' & Hcoordinates' & Hrun).
  apply bind_Ok in Hrun as (lat & Hlat & Hrun).
  apply bind_Ok in Hrun as (properties & Hproperties & Hrun).
  apply bind_Ok in Hrun as (score & Hscore & Hrun).
  apply bind_Ok in Hrun as (name & Hname & Hrun).
  apply bind_Ok in Hrun as (number & Hnumber & Hrun).
  apply bind_Ok in Hrun as (lane & Hlane & Hrun).
  apply bind_Ok in Hrun as (postcode & Hpostcode & Hrun).
  apply bind_Ok in Hrun as (citycode & Hcitycode & Hrun).
  apply bind_Ok in Hrun as (city & Hcity & Hrun).
  apply bind_Ok in Hrun as (coords & Hcoords & Hrun).
  injection Hrun as <-. cbn.
  rewrite Hgeometry in Hgeometry'. injection Hgeometry' as <-.
  rewrite Hcoordinates in Hcoordinates'. injection Hcoordinates' as <-.
  cbn [subscript] in Hgeometry, Hproperties.
  destruct (jassoc l "geometry") as [geometry0|] eqn:Hg; [|discriminate].
  destruct (jassoc l "properties") as [properties0|] eqn:Hp; [|discriminate].
  injection Hgeometry as ->. injection Hproperties as ->.
  exists l, properties, geometry, coordinates.
  repeat split; first [assumption | reflexivity].
Qed.

(** [get_geocoding_data] degrades to [None], after a single request and one
    logged message, when the body of the answer is not JSON, when the document
    has no ["features"] key, when the feature list is empty and no post code
    was given, and on a network failure if the handler's exception class
    exists. *)
Theorem get_geocoding_data_degrades (address : string) (post_code : option string)
    (limit : Z) :
  let args := {| q := address; limit := limit;
                 postcode := if given post_code then post_code else None |} in
  let run := get_geocoding_data address post_code limit in
  (requests_get args = Body None ->
     run = ([Get args; Info "Error decoding json"], Ok None))
  /\ (forall l, requests_get args = Body (Some (JObj l)) -> jassoc l "features" = None ->
        run = ([Get args; Info "Error key missing"], Ok None))
  /\ (forall l, requests_get args = Body (Some (JObj l)) ->
        jassoc l "features" = Some (JArr []) -> given post_code = false ->
        run = ([Get args; Info "Geocoding error, no result found"], Ok None))
  /\ (forall e, requests_get args = NetworkFailure e ->
        requests_has_RequestError = true ->
        run = ([Get args; Info "Error while fetching"], Ok None)).
Proof.
  unfold Geocoding.get_geocoding_data, call_ban_geocoding_api.
  cbn [call_ban_geocoding_api_rec]. repeat split.
  - intros ->. reflexivity.
  - intros l -> Hl. cbn [subscript mbind result_bind rbind]. rewrite Hl. reflexivity.
  - intros l -> Hl Hgiven. cbn [subscript mbind result_bind rbind].
    rewrite Hl, Hgiven. reflexivity.
  - intros e -> ->. reflexivity.
Qed.

(** With a post code, an empty feature list is answered by asking again:
    the result is that of the call with the address alone and the default
    limit of 1 (the caller's limit is not passed on), after the first
    request. *)
Theorem get_geocoding_data_retry (address : string) (post_code : option string)
    (limit : Z) (l : list (string * json)) :
  given post_code = true ->
  requests_get {| q := address; limit := limit; postcode := post_code |}
    = Body (Some (JObj l)) ->
  jassoc l "features" = Some (JArr []) ->
  get_geocoding_data address post_code limit
  = (Get {| q := address; limit := limit; postcode := post_code |}
       :: (get_geocoding_data address None 1).1,
     (get_geocoding_data address None 1).2).
Proof.
  intros Hgiven Hget Hl.
  unfold Geocoding.get_geocoding_data, call_ban_geocoding_api.
  cbn [call_ban_geocoding_api_rec]. rewrite Hgiven, Hget.
  cbn [subscript mbind result_bind rbind]. rewrite Hl. cbn [index lookup list_lookup given].
  destruct (requests_get {| q := address; limit := 1; postcode := None |})
    as [e|[document|]].
  - destruct requests_has_RequestError; reflexivity.
  - destruct (features ← subscript document "features"; index features 0) as [v|e];
      [reflexivity|].
    destruct e; reflexivity.
  - reflexivity.
Qed.

End GeocodingCases.

Lemma process_geocoding_data_record_witness :
  match Geocoding.index (Geocoding.JArr
          [ Geocoding.JObj
              [ ("geometry",
                 Geocoding.JObj
                   [ ("coordinates",
                      Geocoding.JArr [ Geocoding.JNum (235 # 100);
                                       Geocoding.JNum (4885 # 100) ]) ]);
                ("properties",
                 Geocoding.JObj
                   [ ("score", Geocoding.JNum (9 # 10));
                     ("name", Geocoding.JStr "10 rue de la Paix");
                     ("postcode", Geocoding.JStr "75002");
                     ("citycode", Geocoding.JStr "75102");
                     ("city", Geocoding.JStr "Paris") ]) ] ]) 0 with
  | Ok feature =>
      match Geocoding.process_geocoding_data Sample.wkt_point feature with
      | Ok (Some g) =>
          Geocoding.address_line_1 g = Geocoding.address g
          /\ Geocoding.get (Geocoding.JObj
                 [ ("score", Geocoding.JNum (9 # 10));
                   ("name", Geocoding.JStr "10 rue de la Paix");
                   ("postcode", Geocoding.JStr "75002");
                   ("citycode", Geocoding.JStr "75102");
                   ("city", Geocoding.JStr "Paris") ]) "street"
             = Ok (Geocoding.lane g)
      | _ => False
      end
  | Raise _ => False
  end.
Proof.
  cbn [Geocoding.index lookup list_lookup].
  match goal with
  | |- match ?r with _ => _ end =>
      destruct r as [[g|]|e] eqn:Hrun; [|vm_compute in Hrun; discriminate..]
  end.
  destruct (process_geocoding_data_record _ _ _ Hrun)
    as (l & properties & geometry & coordinates & Hdata & Hproperties & _ & _ & _ & _
        & _ & _ & _ & Haddress & _ & Hlane & _).
  injection Hdata as <-. vm_compute in Hproperties. injection Hproperties as <-.
  split; assumption.
Defined.

Lemma get_geocoding_data_retry_witness :
  (Geocoding.get_geocoding_data Sample.strict_on_post_code true Sample.wkt_point
     "10 rue de la Paix" (Some "75002") 5).1
  = Geocoding.Get {| Geocoding.q := "10 rue de la Paix"; Geocoding.limit := 5;
                     Geocoding.postcode := Some "75002" |}
    :: (Geocoding.get_geocoding_data Sample.strict_on_post_code true Sample.wkt_point
          "10 rue de la Paix" None 1).1.
Proof.
  rewrite (get_geocoding_data_retry Sample.strict_on_post_code true Sample.wkt_point
             "10 rue de la Paix" (Some "75002") 5 [("features", Geocoding.JArr [])]);
    reflexivity.
Defined.

(** ** The import of the departments *)

Section DepartementsFacts.
Import Departements.
Variable DEPARTMENTS : list string.
Variable REGIONS : list string.
Variable KIND_DEPARTMENT : string.
Variable Perimeter_validate : list perimeter -> perimeter -> option exn.

Abbreviation get_or_create := (get_or_create Perimeter_validate).
Abbreviation import_item :=
  (import_item DEPARTMENTS REGIONS KIND_DEPARTMENT Perimeter_validate).
Abbreviation import_missing := (import_missing KIND_DEPARTMENT Perimeter_validate).
Abbreviation handle := (handle DEPARTMENTS REGIONS KIND_DEPARTMENT Perimeter_validate).
Abbreviation perimeter_of := (perimeter_of KIND_DEPARTMENT).
Abbreviation checked := (checked DEPARTMENTS REGIONS).
Abbreviation imports := (imports KIND_DEPARTMENT).
Abbreviation repeats := (repeats KIND_DEPARTMENT).

Lemma P_bind_returns {A B} (m : P A) (k : A -> P B) (st st' : store) (a : A) :
  m st = (st', Ok a) -> (m ≫= k) st = k a st'.
Proof. intros Hm. unfold mbind, P_bind. now rewrite Hm. Qed.

Lemma P_bind_ok {A B} (m : P A) (k : A -> P B) (st st' : store) (b : B) :
  (m ≫= k) st = (st', Ok b) ->
  exists a st1, m st = (st1, Ok a) /\ k a st1 = (st', Ok b).
Proof.
  unfold mbind, P_bind. destruct (m st) as [st1 [a|e]]; [eauto | discriminate].
Qed.

Lemma same_table_bind {A B} (m : P A) (k : A -> P B) :
  same_table m -> (forall a, same_table (k a)) -> same_table (m ≫= k).
Proof.
  intros Hm Hk st. unfold mbind, P_bind. specialize (Hm st).
  destruct (m st) as [st1 [a|e]]; [|exact Hm]. now rewrite Hk.
Qed.

Lemma same_table_for_each {A} (l : list A) (body : A -> P unit) :
  (forall x, same_table (body x)) -> same_table (for_each l body).
Proof.
  intros Hbody. induction l as [|x l IH]; [now intros st|].
  cbn [for_each]. apply same_table_bind; [apply Hbody | intros _; exact IH].
Qed.

Lemma same_table_write (line : string) : same_table (write line).
Proof. now intros st. Qed.

Lemma same_table_lift {A} (r : result A) : same_table (lift r).
Proof. now intros st. Qed.

Lemma same_table_ret {A} (a : A) : same_table (mret a : P A).
Proof. now intros st. Qed.

Lemma same_table_assert (b : bool) : same_table (assert b).
Proof. now intros st. Qed.

Lemma same_table_debug (verbose : bool) (msg : option string) :
  same_table (debug verbose msg).
Proof. destruct verbose; now intros st. Qed.

Lemma same_table_count : same_table (count_departments KIND_DEPARTMENT).
Proof. now intros st. Qed.

Lemma same_table_set_logger (verbosity : option nat) : same_table (set_logger verbosity).
Proof. destruct verbosity; now intros st. Qed.

Ltac same_table :=
  repeat first
    [ apply same_table_write | apply same_table_lift | apply same_table_ret
    | apply same_table_assert | apply same_table_debug | apply same_table_count
    | apply same_table_set_logger
    | apply same_table_for_each; intros ?
    | apply same_table_bind; [|intros ?] ].

(** A dry run leaves the [Perimeter] table as it is, whatever the file
    holds and however the run ends (the codes are still checked, and a failed
    check still stops the run). *)
Theorem dry_run_keeps_the_table (verbosity : option nat)
    (json_data : result (list item)) (st : store) :
  Perimeter_objects (handle true verbosity json_data st).1 = Perimeter_objects st.
Proof.
  revert st. change (same_table (handle true verbosity json_data)).
  unfold Departements.handle, Departements.import_item, Departements.import_missing.
  cbn [negb]. same_table.
Qed.

(** *** What a run that imports does *)

Lemma get_or_create_ok (p : perimeter) (st st' : store) :
  get_or_create p st = (st', Ok tt) ->
  got_or_created p (Perimeter_objects st) (Perimeter_objects st').
Proof.
  unfold Departements.get_or_create.
  destruct (matching p (Perimeter_objects st)) as [|[|n]] eqn:Hn.
  - destruct (Perimeter_validate _ p); [discriminate|].
    intros [= <-]. right. split; [exact Hn | reflexivity].
  - intros [= <-]. left. split; [exact Hn | reflexivity].
  - discriminate.
Qed.

Lemma get_or_create_found (p : perimeter) (st : store) :
  matching p (Perimeter_objects st) = 1%nat -> get_or_create p st = (st, Ok tt).
Proof. intros Hn. unfold Departements.get_or_create. now rewrite Hn. Qed.

Lemma debug_ok (verbose : bool) (msg : option string) (st : store) :
  exists st', debug verbose msg st = (st', Ok tt)
              /\ Perimeter_objects st' = Perimeter_objects st.
Proof. destruct verbose; eexists; split; reflexivity. Qed.

Lemma import_item_run (verbose : bool) (item : item) (st : store) :
  checked item ->
  exists st1, Perimeter_objects st1 = Perimeter_objects st
    /\ import_item false verbose item st = get_or_create (perimeter_of item) st1.
Proof.
  intros ([name Hname] & [code Hcode] & Hdep & Hreg).
  unfold Departements.import_item, Departements.perimeter_of, subscript, lift.
  unfold get in *. rewrite Hname, Hcode in *. cbn [default from_option] in *.
  unfold id in *.
  do 2 (erewrite P_bind_returns by reflexivity).
  rewrite Hdep, Hreg.
  do 2 (erewrite P_bind_returns by reflexivity).
  destruct (debug_ok verbose (Some dashes) st) as (st1 & H1 & Ht1).
  erewrite P_bind_returns by exact H1.
  destruct (debug_ok verbose name st1) as (st2 & H2 & Ht2).
  erewrite P_bind_returns by exact H2.
  destruct (debug_ok verbose code st2) as (st3 & H3 & Ht3).
  erewrite P_bind_returns by exact H3.
  exists st3. split; [congruence | reflexivity].
Qed.

Lemma import_item_checked (verbose : bool) (item : item) (st st' : store) :
  import_item false verbose item st = (st', Ok tt) -> checked item.
Proof.
  unfold Departements.import_item, subscript, lift. intros Hrun.
  destruct (item !! "nom") as [name|] eqn:Hname; [|discriminate].
  destruct (item !! "code") as [code|] eqn:Hcode; [|discriminate].
  do 2 (erewrite P_bind_returns in Hrun by reflexivity).
  destruct (is_in DEPARTMENTS code) eqn:Hdep; [|discriminate].
  erewrite P_bind_returns in Hrun by reflexivity.
  destruct (is_in REGIONS (get item "codeRegion")) eqn:Hreg; [|discriminate].
  unfold Departements.checked. rewrite Hname, Hcode, Hreg. unfold get. rewrite Hcode.
  repeat split; eauto.
Qed.

Lemma import_missing_run (department : item) (st : store) :
  import_missing false department st =
    match department !! "nom", department !! "code", department !! "codeRegion" with
    | Some _, Some _, Some _ => get_or_create (perimeter_of department) st
    | None, _, _ => (st, Raise (KeyError (PStr "nom")))
    | _, None, _ => (st, Raise (KeyError (PStr "code")))
    | _, _, None => (st, Raise (KeyError (PStr "codeRegion")))
    end.
Proof.
  unfold Departements.import_missing, Departements.perimeter_of, subscript, get.
  destruct (department !! "nom") as [name|]; [|reflexivity].
  destruct (department !! "code") as [code|]; [|reflexivity].
  destruct (department !! "codeRegion") as [region|]; reflexivity.
Qed.

Lemma import_item_imports (verbose : bool) : imports (import_item false verbose).
Proof.
  intros item st st' Hrun.
  destruct (import_item_run verbose item st (import_item_checked _ _ _ _ Hrun))
    as (st1 & Ht & Heq).
  rewrite Heq in Hrun. rewrite <- Ht. now apply get_or_create_ok.
Qed.

Lemma import_item_repeats (verbose verbose' : bool) :
  repeats (import_item false verbose) (import_item false verbose').
Proof.
  intros item st st' Hrun st2 Hone.
  destruct (import_item_run verbose' item st2 (import_item_checked _ _ _ _ Hrun))
    as (st3 & Ht & Heq).
  exists st3. rewrite Heq. split; [|exact Ht].
  apply get_or_create_found. now rewrite Ht.
Qed.

Lemma import_missing_imports : imports (import_missing false).
Proof.
  intros item st st'. rewrite import_missing_run.
  destruct (item !! "nom"), (item !! "code"), (item !! "codeRegion"); try discriminate.
  apply get_or_create_ok.
Qed.

Lemma import_missing_repeats : repeats (import_missing false) (import_missing false).
Proof.
  intros item st st' Hrun st2 Hone. exists st2. split; [|reflexivity].
  rewrite import_missing_run in *.
  destruct (item !! "nom"), (item !! "code"), (item !! "codeRegion"); try discriminate.
  now apply get_or_create_found.
Qed.

Lemma for_each_imports (body : item -> P unit) (l : list item) :
  imports body ->
  forall st st', for_each l body st = (st', Ok tt) ->
    all_got_or_created (perimeter_of <$> l) (Perimeter_objects st) (Perimeter_objects st').
Proof.
  intros Hbody. induction l as [|x l IH]; intros st st' Hrun.
  - now injection Hrun as <-.
  - cbn [for_each] in Hrun. apply P_bind_ok in Hrun as ([] & st1 & Hx & Hrun).
    exists (Perimeter_objects st1). split; [now apply Hbody | now apply IH].
Qed.

Lemma for_each_repeats (body body' : item -> P unit) (l : list item) :
  repeats body body' ->
  forall st st', for_each l body st = (st', Ok tt) ->
    forall st2,
      (forall x, x ∈ l -> matching (perimeter_of x) (Perimeter_objects st2) = 1%nat) ->
      exists st3, for_each l body' st2 = (st3, Ok tt)
                  /\ Perimeter_objects st3 = Perimeter_objects st2.
Proof.
  intros Hbody. induction l as [|x l IH]; intros st st' Hrun st2 Hone.
  - exists st2. now split.
  - cbn [for_each] in Hrun. apply P_bind_ok in Hrun as ([] & st1 & Hx & Hrun).
    destruct (Hbody x st st1 Hx st2 (Hone x (list_elem_of_here _ _))) as (sta & Ha & Hta).
    destruct (IH st1 st' Hrun sta) as (st3 & H3 & Ht3).
    { intros y Hy. rewrite Hta. apply Hone. now apply list_elem_of_further. }
    exists st3. split; [|congruence].
    cbn [for_each]. now rewrite (P_bind_returns _ _ _ _ _ Ha).
Qed.

(** *** Tables along a run *)

Lemma matching_app (p : perimeter) (table table' : list perimeter) :
  matching p (table ++ table') = (matching p table + matching p table')%nat.
Proof. unfold matching. now rewrite List.filter_app, length_app. Qed.

Lemma matching_singleton (p q : perimeter) :
  matching p [q] = if decide (q = p) then 1%nat else 0%nat.
Proof.
  unfold matching. cbn [List.filter].
  destruct (decide (q = p)) as [Heq|Hne];
    [rewrite bool_decide_eq_true_2 by exact Heq
    |rewrite bool_decide_eq_false_2 by exact Hne]; reflexivity.
Qed.

Lemma matching_elem_of (p : perimeter) (table : list perimeter) :
  p ∈ table <-> (0 < matching p table)%nat.
Proof.
  unfold matching. induction table as [|q table IH].
  - cbn. split; [intros Hin; now apply elem_of_nil in Hin | lia].
  - cbn [List.filter]. rewrite elem_of_cons, IH.
    destruct (decide (q = p)) as [->|Hne].
    + rewrite bool_decide_eq_true_2 by reflexivity. cbn. split; [lia | now left].
    + rewrite bool_decide_eq_false_2 by exact Hne.
      split; [intros [->|Hin]; [contradiction | exact Hin] | now right].
Qed.

Lemma got_or_created_self (p : perimeter) (table table' : list perimeter) :
  got_or_created p table table' -> matching p table' = 1%nat.
Proof.
  intros [[Hone ->]|[Hnone ->]]; [exact Hone|].
  rewrite matching_app, Hnone, matching_singleton. now destruct (decide (p = p)).
Qed.

Lemma got_or_created_other (p q : perimeter) (table table' : list perimeter) :
  got_or_created q table table' -> matching p table = 1%nat -> matching p table' = 1%nat.
Proof.
  intros [[_ ->]|[Hnone ->]] Hone; [exact Hone|].
  rewrite matching_app, Hone, matching_singleton.
  destruct (decide (q = p)) as [->|_]; [congruence | lia].
Qed.

Lemma all_got_or_created_other (p : perimeter) (ps : list perimeter) :
  forall table table',
    all_got_or_created ps table table' ->
    matching p table = 1%nat -> matching p table' = 1%nat.
Proof.
  induction ps as [|q ps IH]; intros table table' Hrun Hone.
  - cbn in Hrun. now subst.
  - destruct Hrun as (table1 & Hq & Hrun).
    apply (IH _ _ Hrun). now apply got_or_created_other with q table.
Qed.

Lemma all_got_or_created_once (ps : list perimeter) :
  forall table table',
    all_got_or_created ps table table' ->
    forall p, p ∈ ps -> matching p table' = 1%nat.
Proof.
  induction ps as [|q ps IH]; intros table table' Hrun p Hp.
  - now apply elem_of_nil in Hp.
  - destruct Hrun as (table1 & Hq & Hrun).
    destruct (decide (p ∈ ps)) as [Hin|Hout]; [now apply (IH _ _ Hrun)|].
    apply elem_of_cons in Hp as [->|Hp]; [|contradiction].
    apply (all_got_or_created_other _ _ _ _ Hrun). now apply got_or_created_self with table.
Qed.

Lemma all_got_or_created_added (ps : list perimeter) :
  forall table table',
    all_got_or_created ps table table' ->
    exists added, table' = table ++ added
      /\ NoDup added
      /\ (forall p, p ∈ added -> p ∈ ps /\ p ∉ table).
Proof.
  induction ps as [|q ps IH]; intros table table' Hrun.
  - cbn in Hrun. subst. exists []. rewrite app_nil_r. split; [reflexivity|].
    split; [constructor|]. intros p Hp. now apply elem_of_nil in Hp.
  - destruct Hrun as (table1 & Hq & Hrun).
    destruct (IH _ _ Hrun) as (added & -> & Hnodup & Hadded).
    destruct Hq as [[_ ->]|[Hnone ->]].
    + exists added. split; [reflexivity|]. split; [exact Hnodup|].
      intros p Hp. destruct (Hadded p Hp) as [Hin Hout].
      split; [now apply list_elem_of_further | exact Hout].
    + exists (q :: added). rewrite <- app_assoc. split; [reflexivity|].
      assert (Hq : q ∉ table) by (rewrite matching_elem_of; lia).
      split.
      * constructor; [|exact Hnodup]. intros Hin.
        destruct (Hadded q Hin) as [_ Hout]. apply Hout, elem_of_app. right.
        apply list_elem_of_here.
      * intros p Hp. apply elem_of_cons in Hp as [->|Hp].
        { split; [apply list_elem_of_here | exact Hq]. }
        destruct (Hadded p Hp) as [Hin Hout].
        split; [now apply list_elem_of_further|].
        intros Hpt. apply Hout, elem_of_app. now left.
Qed.

Lemma all_got_or_created_app (ps qs : list perimeter) :
  forall table table1 table',
    all_got_or_created ps table table1 -> all_got_or_created qs table1 table' ->
    all_got_or_created (ps ++ qs) table table'.
Proof.
  induction ps as [|p ps IH]; intros table table1 table' Hps Hqs.
  - cbn in Hps. now subst.
  - destruct Hps as (table2 & Hp & Hps). exists table2. split; [exact Hp|].
    now apply IH with table1.
Qed.

(** *** The whole command *)

Lemma handle_returns (verbosity : option nat) (json_data : result (list item))
    (st st' : store) :
  handle false verbosity json_data st = (st', Ok tt) ->
  exists v items st1 st2 st3,
    verbosity = Some v /\ json_data = Ok items
    /\ Perimeter_objects st1 = Perimeter_objects st
    /\ for_each items (import_item false (1 <? v)%nat) st1 = (st2, Ok tt)
    /\ for_each MISSING_DEPARTMENTS (import_missing false) st2 = (st3, Ok tt)
    /\ Perimeter_objects st' = Perimeter_objects st3.
Proof.
  unfold Departements.handle.
  do 4 (erewrite P_bind_returns by reflexivity).
  destruct verbosity as [v|]; [|discriminate].
  erewrite P_bind_returns by reflexivity.
  destruct json_data as [items|e]; [|discriminate].
  unfold lift at 1. erewrite P_bind_returns by reflexivity. intros Hrun.
  apply P_bind_ok in Hrun as ([] & st2 & Hitems & Hrun).
  apply P_bind_ok in Hrun as ([] & st3 & Hmissing & Hrun).
  do 2 (erewrite P_bind_returns in Hrun by reflexivity).
  injection Hrun as <-.
  match type of Hitems with
  | for_each _ _ ?s = _ => exists v, items, s, st2, st3
  end.
  repeat split; first [assumption | reflexivity].
Qed.

(** A run that returns has every department of the file and the eight
    overseas collectivities in the table, each exactly once; the records that
    were in the table are all still there, in place, and what the run added
    are records of those objects, each added once. Every object of the file
    passed the two checks. *)
Theorem import_is_complete (verbosity : option nat) (json_data : result (list item))
    (st : store) :
  (handle false verbosity json_data st).2 = Ok tt ->
  exists items added,
    json_data = Ok items
    /\ Perimeter_objects (handle false verbosity json_data st).1
       = Perimeter_objects st ++ added
    /\ NoDup added
    /\ (forall p, p ∈ added ->
          p ∈ (perimeter_of <$> items ++ MISSING_DEPARTMENTS)
          /\ p ∉ Perimeter_objects st)
    /\ (forall item, item ∈ items ++ MISSING_DEPARTMENTS ->
          matching (perimeter_of item)
            (Perimeter_objects (handle false verbosity json_data st).1) = 1%nat)
    /\ (forall item, item ∈ items -> checked item).
Proof.
  destruct (handle false verbosity json_data st) as [st' r] eqn:Hrun. cbn [fst snd].
  intros ->.
  destruct (handle_returns _ _ _ _ Hrun)
    as (v & items & st1 & st2 & st3 & -> & -> & Ht1 & Hitems & Hmissing & Ht').
  pose proof (for_each_imports _ _ (import_item_imports _) _ _ Hitems) as Hsteps1.
  pose proof (for_each_imports _ _ import_missing_imports _ _ Hmissing) as Hsteps2.
  pose proof (all_got_or_created_app _ _ _ _ _ Hsteps1 Hsteps2) as Hsteps.
  rewrite <- fmap_app, Ht1, <- Ht' in Hsteps.
  destruct (all_got_or_created_added _ _ _ Hsteps) as (added & Heq & Hnodup & Hadded).
  exists items, added.
  split; [reflexivity|]. split; [exact Heq|]. split; [exact Hnodup|].
  split; [exact Hadded|]. split.
  - intros item Hitem. apply (all_got_or_created_once _ _ _ Hsteps).
    apply list_elem_of_fmap. eauto.
  - clear -Hitems. revert st1 Hitems.
    induction items as [|x items IH]; intros st1 Hitems item Hitem;
      [now apply elem_of_nil in Hitem|].
    cbn [for_each] in Hitems. apply P_bind_ok in Hitems as ([] & sta & Hx & Hitems).
    apply elem_of_cons in Hitem as [->|Hitem];
      [now apply import_item_checked in Hx | now apply (IH sta)].
Qed.

(** The import is idempotent: after a run that returned, a second run over
    the same file returns as well and leaves the table as the first run left
    it, at any verbosity. *)
Theorem import_is_idempotent (verbosity verbosity' : option nat)
    (json_data : result (list item)) (st : store) :
  (handle false verbosity json_data st).2 = Ok tt ->
  is_Some verbosity' ->
  let st' := (handle false verbosity json_data st).1 in
  (handle false verbosity' json_data st').2 = Ok tt
  /\ Perimeter_objects (handle false verbosity' json_data st').1 = Perimeter_objects st'.
Proof.
  destruct (handle false verbosity json_data st) as [st' r] eqn:Hrun. cbn [fst snd].
  intros -> [v' ->]. cbn zeta.
  destruct (handle_returns _ _ _ _ Hrun)
    as (v & items & st1 & st2 & st3 & -> & -> & Ht1 & Hitems & Hmissing & Ht').
  pose proof (for_each_imports _ _ (import_item_imports _) _ _ Hitems) as Hsteps1.
  pose proof (for_each_imports _ _ import_missing_imports _ _ Hmissing) as Hsteps2.
  pose proof (all_got_or_created_app _ _ _ _ _ Hsteps1 Hsteps2) as Hsteps.
  rewrite <- fmap_app, <- Ht' in Hsteps.
  assert (Hone : forall item, item ∈ items ++ MISSING_DEPARTMENTS ->
            matching (perimeter_of item) (Perimeter_objects st') = 1%nat).
  { intros item Hitem. apply (all_got_or_created_once _ _ _ Hsteps).
    apply list_elem_of_fmap. eauto. }
  unfold Departements.handle.
  do 6 (erewrite P_bind_returns by reflexivity).
  match goal with
  | |- context [(for_each items _ ≫= _) ?s] => set (sta := s)
  end.
  assert (Hta : Perimeter_objects sta = Perimeter_objects st') by reflexivity.
  destruct (for_each_repeats _ _ _ (import_item_repeats (1 <? v)%nat (1 <? v')%nat)
              _ _ Hitems sta) as (stb & Hb & Htb).
  { intros x Hx. rewrite Hta. apply Hone, elem_of_app. now left. }
  erewrite P_bind_returns by exact Hb.
  destruct (for_each_repeats _ _ _ import_missing_repeats _ _ Hmissing stb)
    as (stc & Hc & Htc).
  { intros x Hx. rewrite Htb, Hta. apply Hone, elem_of_app. now right. }
  erewrite P_bind_returns by exact Hc.
  do 2 (erewrite P_bind_returns by reflexivity).
  split; [reflexivity|]. cbn. congruence.
Qed.

End DepartementsFacts.

Lemma import_is_complete_witness :
  Departements.matching (Departements.perimeter_of "DEPARTMENT" Sample.paris_department)
    (Departements.Perimeter_objects
       (Sample.import_departements false (Some 1%nat) Sample.empty_store).1)
  = 1%nat.
Proof.
  destruct (import_is_complete ["01"; "75"] ["11"; "84"; "97"] "DEPARTMENT"
              (fun _ _ => None) (Some 1%nat) (Ok [Sample.ain; Sample.paris_department])
              Sample.empty_store)
    as (items & added & Hitems & _ & _ & _ & Hone & _).
  - vm_compute. reflexivity.
  - injection Hitems as <-. apply Hone, elem_of_app. left.
    apply list_elem_of_further, list_elem_of_here.
Defined.

Lemma import_is_idempotent_witness :
  let st' := (Sample.import_departements false (Some 1%nat) Sample.empty_store).1 in
  (Sample.import_departements false (Some 2%nat) st').2 = Ok tt
  /\ Departements.Perimeter_objects (Sample.import_departements false (Some 2%nat) st').1
     = Departements.Perimeter_objects st'.
Proof.
  apply (import_is_idempotent ["01"; "75"] ["11"; "84"; "97"] "DEPARTMENT"
           (fun _ _ => None) (Some 1%nat) (Some 2%nat)
           (Ok [Sample.ain; Sample.paris_department]) Sample.empty_store).
  - vm_compute. reflexivity.
  - eexists. reflexivity.
Defined.

(** ** No row is lost silently *)

(** A loop whose every turn adds [w x] to a measure of the destination
    adds the sum of the [w x] when it returns. *)
Lemma for_each_measure {A} (mu : db -> nat) (w : A -> nat) (l : list A)
    (body : A -> M unit) :
  (forall x d d', x ∈ l -> body x d = (d', Ok tt) -> mu d' = (mu d + w x)%nat) ->
  forall d d', for_each l body d = (d', Ok tt) ->
    mu d' = (mu d + sum_list (w <$> l))%nat.
Proof.
  induction l as [|x l IH]; intros Hbody d d' Hrun.
  - cbn in Hrun. injection Hrun as <-. cbn. lia.
  - rewrite for_each_cons in Hrun.
    destruct (body x d) as [d1 [[]|e]] eqn:Hx; [|discriminate].
    rewrite (IH (fun y d2 d3 Hy => Hbody y d2 d3 (list_elem_of_further _ _ _ Hy))
               d1 d' Hrun).
    rewrite (Hbody x d d1 (list_elem_of_here _ _) Hx). cbn. lia.
Qed.

Lemma exceptions_printed_print (line : list printed) (d : db) :
  exceptions_printed (print line d).1
  = (exceptions_printed d + if shows_exception line then 1 else 0)%nat.
Proof.
  unfold exceptions_printed, print. cbn. rewrite List.filter_app, length_app. cbn.
  now destruct (shows_exception line).
Qed.

Lemma sum_list_ones {A} (l : list A) : sum_list ((fun _ => 1%nat) <$> l) = length l.
Proof. induction l as [|x l IH]; [reflexivity|]. cbn. now rewrite IH. Qed.

Section RowAccounting.
Context `{Django}.

(** When [migrate_siae] returns, every row of [directory] is accounted for:
    it has its [Siae] record, or the exception that refused it was printed.
    The records created and the exceptions printed by the run add up to the
    number of rows. *)
Theorem migrate_siae_accounts_for_rows (cur : cursor) (d : db) :
  (migrate_siae cur d).2 = Ok tt ->
  (length (Siae_objects (migrate_siae cur d).1)
   + exceptions_printed (migrate_siae cur d).1
   = exceptions_printed d + length (directory cur))%nat.
Proof.
  unfold migrate_siae.
  do 3 (erewrite bind_returns; [|reflexivity]).
  match goal with
  | |- context [(for_each _ _ ≫= _) ?s] => set (d0 := s)
  end.
  destruct (for_each (directory cur) migrate_siae_row d0) as [d1 [[]|e]] eqn:Hloop.
  2: { unfold mbind at 1, M_bind. rewrite Hloop. discriminate. }
  rewrite (bind_returns _ _ _ _ _ Hloop).
  erewrite bind_returns; [|reflexivity]. intros _.
  rewrite exceptions_printed_print. cbn [print fst set_stdout Siae_objects shows_exception
    existsb]. rewrite Nat.add_0_r.
  apply (for_each_measure
           (fun d => (length (Siae_objects d) + exceptions_printed d)%nat)
           (fun _ => 1%nat)) in Hloop.
  - rewrite Hloop, sum_list_ones. subst d0. unfold exceptions_printed. cbn.
    rewrite !List.filter_app, !length_app. cbn. lia.
  - intros elem da da' _. unfold migrate_siae_row.
    destruct (siae_record elem) as [r|e]; [|discriminate].
    rewrite bind_lift_ok. unfold try_except, objects_create.
    cbn [validate objects set_objects].
    destruct (Siae_validate (Siae_objects da) r) as [e|].
    + intros Hprint. replace da' with (print [Exn e] da).1 by now rewrite Hprint.
      rewrite exceptions_printed_print. cbn. lia.
    + intros [= <-]. unfold exceptions_printed. cbn. rewrite length_app. cbn. lia.
Qed.

(** When [migrate_user] returns, every legacy user whose kind is known is
    accounted for: the users in the table are those who held an API key
    before the run and the users created, and the users created and the
    exceptions printed add up to the number of rows with a known kind. *)
Theorem migrate_user_accounts_for_rows (cur : cursor) (d : db) :
  (migrate_user cur d).2 = Ok tt ->
  (length (User_objects (migrate_user cur d).1)
   + exceptions_printed (migrate_user cur d).1
   = length (List.filter (fun u => negb (isnull (user_fields u) "api_key"))
               (User_objects d))
     + exceptions_printed d + sum_list (with_kind <$> user cur))%nat.
Proof.
  unfold migrate_user.
  do 3 (erewrite bind_returns; [|reflexivity]).
  match goal with
  | |- context [(for_each _ _ ≫= _) ?s] => set (d0 := s)
  end.
  destruct (for_each (user cur) migrate_user_row d0) as [d1 [[]|e]] eqn:Hloop.
  2: { unfold mbind at 1, M_bind. rewrite Hloop. discriminate. }
  rewrite (bind_returns _ _ _ _ _ Hloop).
  erewrite bind_returns; [|reflexivity]. intros _.
  rewrite exceptions_printed_print. cbn [print fst set_stdout User_objects shows_exception
    existsb]. rewrite Nat.add_0_r.
  apply (for_each_measure
           (fun d => (length (User_objects d) + exceptions_printed d)%nat)
           with_kind) in Hloop.
  - rewrite Hloop. subst d0. unfold exceptions_printed. cbn.
    rewrite !List.filter_app, !length_app. cbn. lia.
  - intros elem da da' _. unfold migrate_user_row, with_kind.
    destruct (user_record elem) as [r|e]; [|discriminate].
    rewrite bind_lift_ok. unfold getitem.
    destruct (r !! "kind") as [kind|]; [|discriminate].
    rewrite bind_lift_ok.
    destruct (truthy kind); [|intros [= <-]; lia].
    unfold try_except, User_create.
    destruct (User_validate _ r) as [e|].
    + intros Hprint. replace da' with (print [Text "a"; Exn e] da).1 by now rewrite Hprint.
      rewrite exceptions_printed_print. cbn. lia.
    + intros [= <-]. unfold exceptions_printed. cbn. rewrite length_app. cbn. lia.
Qed.

End RowAccounting.

Section SampleRowAccounting.
#[local] Existing Instance Sample.django.

Lemma migrate_siae_accounts_for_rows_witness :
  let run := migrate_siae Sample.siaes_cursor Sample.empty_db in
  (length (Siae_objects run.1) + exceptions_printed run.1
   = exceptions_printed Sample.empty_db + length (directory Sample.siaes_cursor))%nat.
Proof.
  intros run.
  apply (migrate_siae_accounts_for_rows Sample.siaes_cursor Sample.empty_db).
  vm_compute. reflexivity.
Defined.

Lemma migrate_user_accounts_for_rows_witness :
  let run := migrate_user Sample.users_cursor Sample.api_db in
  (length (User_objects run.1) + exceptions_printed run.1
   = length (List.filter (fun u => negb (isnull (user_fields u) "api_key"))
               (User_objects Sample.api_db))
     + exceptions_printed Sample.api_db
     + sum_list (with_kind <$> user Sample.users_cursor))%nat.
Proof.
  intros run.
  apply (migrate_user_accounts_for_rows Sample.users_cursor Sample.api_db).
  vm_compute. reflexivity.
Defined.

End SampleRowAccounting.

(** ** Full replacement *)

Section Recreation.
Context `{Django}.








(** *** Siae *)




(** *** User *)




End Recreation.



Section RecreationOfImages.
Context `{Django}.







End RecreationOfImages.




Section SampleReplacement.
#[local] Existing Instance Sample.django.


End SampleReplacement.
